(** * PVT property engine of opm-material: wet gas, oil multiplexer, black-oil facade

    Shallow embedding of
      - opm/material/fluidsystems/blackoilpvt/WetGasPvt.hpp
      - opm/material/fluidsystems/blackoilpvt/OilPvtMultiplexer.hpp
      - opm/material/fluidsystems/BlackOilFluidSystem.hpp

    The classes are templates over [Scalar].  The embedding instantiates
    [Scalar] with the canonical rationals [Qc]: every arithmetic operator of
    the source is the exact operator of the field, literals such as [1e-11]
    are the rationals they denote, and division is [Qcdiv] (total, with
    [x / 0 = 0]; statements that would be sensitive to a division by zero
    carry the non-zero side condition explicitly).

    Calls can end in three ways: a value, a C++ exception, or behaviour the
    program does not define (an index beyond a vector, a failed [assert],
    a pointer that was never set). *)

From Stdlib Require Import String QArith Qcanon Qcabs Lia Bool Arith List.
Import ListNotations.

Set Implicit Arguments.

Close Scope Qc_scope.
Close Scope Q_scope.
Open Scope nat_scope.

(* ------------------------------------------------------------------ *)
(** ** Scalars *)

Definition Scalar : Type := Qc.

(** Decimal literal [n / d]. *)
Definition lit (n : Z) (d : positive) : Scalar := Q2Qc (n # d).

(** Conversion of a [size_t] counter to [Scalar]. *)
Definition ofNat (n : nat) : Scalar := Q2Qc (Z.of_nat n # 1).

Definition Qcltb (a b : Scalar) : bool :=
  if Qclt_le_dec a b then true else false.

Definition Qcleb (a b : Scalar) : bool :=
  if Qclt_le_dec b a then false else true.

Definition e_minus_10 : Scalar := lit 1 10000000000.
Definition e_minus_11 : Scalar := lit 1 100000000000.
Definition e_plus_8 : Scalar := lit 100000000 1.
Definition e_plus_100 : Scalar := Q2Qc (10 ^ 100 # 1).

(* ------------------------------------------------------------------ *)
(** ** Exceptions and outcomes *)

(** A message assembled by [OPM_THROW(Class, "text" << value ...)]: the
    pieces streamed into it, in order. *)
Inductive Piece : Type :=
| Text (s : string)
| Num (x : Scalar)
| Idx (n : nat).

Definition Message : Type := list Piece.

(** The exception classes thrown by the modelled code. *)
Inductive Exception : Type :=
| logic_error (what : Message)
| runtime_error (what : Message)
| NumericalIssue (what : Message).

Inductive Result (A : Type) : Type :=
| Ok (a : A)
| Throw (e : Exception)
| Undefined.

Arguments Ok {A} a.
Arguments Throw {A} e.
Arguments Undefined {A}.

Definition bind {A B : Type} (r : Result A) (k : A -> Result B) : Result B :=
  match r with
  | Ok a => k a
  | Throw e => Throw e
  | Undefined => Undefined
  end.

Declare Scope result_scope.
Delimit Scope result_scope with result.
Notation "x <- e ;; k" := (bind e (fun x => k))
  (at level 61, e at next level, right associativity) : result_scope.
Open Scope result_scope.

(** [std::vector::operator[]]: defined only below [size()]. *)
Definition at_ {A : Type} (v : list A) (i : nat) : Result A :=
  match nth_error v i with
  | Some a => Ok a
  | None => Undefined
  end.

(** [assert(c)] *)
Definition assert (c : bool) : Result unit :=
  if c then Ok tt else Undefined.

Definition SamplingPoints : Type := list (Scalar * Scalar).

(* ------------------------------------------------------------------ *)
(** ** Tabulated1DFunction *)

Module Tabulated1DFunction.

(** Modelled from the spec: opm/material/common/Tabulated1DFunction.hpp is
    not among the sources.  Section 3 of the specification: an ordered
    sequence of (x, y) samples; evaluation interpolates linearly between
    the two bracketing samples, [y0 + (y1-y0)*(x-x0)/(x1-x0)], and with
    [extrapolate] extends the slope of the nearest edge segment. *)
Definition t : Type := list (Scalar * Scalar).

Definition setContainerOfTuples (pts : SamplingPoints) : t := pts.

Definition setXYArrays (n : nat) (xs ys : list Scalar) : t :=
  firstn n (combine xs ys).

Definition numSamples (f : t) : nat := length f.

Definition xMin (f : t) : Result Scalar :=
  match f with
  | [] => Undefined
  | (x, _) :: _ => Ok x
  end.

Definition xMax (f : t) : Result Scalar :=
  match rev f with
  | [] => Undefined
  | (x, _) :: _ => Ok x
  end.

Definition interpolate (x0 y0 x1 y1 x : Scalar) : Scalar :=
  (y0 + (y1 - y0) * (x - x0) / (x1 - x0))%Qc.

Fixpoint evalSegments (pts : list (Scalar * Scalar)) (x : Scalar)
  : Result Scalar :=
  match pts with
  | (x0, y0) :: (((x1, y1) :: rest) as tl) =>
      match rest with
      | [] => Ok (interpolate x0 y0 x1 y1 x)
      | _ :: _ =>
          if Qcltb x x1 then Ok (interpolate x0 y0 x1 y1 x)
          else evalSegments tl x
      end
  | _ => Undefined
  end.

Definition inRange (f : t) (x : Scalar) : Result bool :=
  lo <- xMin f ;;
  hi <- xMax f ;;
  Ok (Qcleb lo x && Qcleb x hi).

Definition eval (f : t) (x : Scalar) (extrapolate : bool) : Result Scalar :=
  if extrapolate then evalSegments f x
  else
    inside <- inRange f x ;;
    if inside then evalSegments f x else Undefined.

End Tabulated1DFunction.

(* ------------------------------------------------------------------ *)
(** ** UniformXTabulated2DFunction *)

Module UniformXTabulated2DFunction.

(** Modelled from the spec: opm/material/common/UniformXTabulated2DFunction.hpp
    is not among the sources.  Section 3: an ordered sequence of outer
    x-positions, each owning its own ordered sequence of (y, value)
    samples; construction is append-only (section 4.1). *)
Definition t : Type := list (Scalar * list (Scalar * Scalar)).

Definition numX (f : t) : nat := length f.

Definition numY (f : t) (i : nat) : Result nat :=
  col <- at_ f i ;; Ok (length (snd col)).

Definition xAt (f : t) (i : nat) : Result Scalar :=
  col <- at_ f i ;; Ok (fst col).

Definition yAt (f : t) (i j : nat) : Result Scalar :=
  col <- at_ f i ;; s <- at_ (snd col) j ;; Ok (fst s).

Definition valueAt (f : t) (i j : nat) : Result Scalar :=
  col <- at_ f i ;; s <- at_ (snd col) j ;; Ok (snd s).

Definition appendXPos (f : t) (x : Scalar) : t := f ++ [(x, [])].

Fixpoint appendAt (f : t) (i : nat) (s : Scalar * Scalar) : option t :=
  match f, i with
  | [], _ => None
  | (x, col) :: rest, O => Some ((x, col ++ [s]) :: rest)
  | c :: rest, S i' =>
      match appendAt rest i' s with
      | Some rest' => Some (c :: rest')
      | None => None
      end
  end.

Definition appendSamplePoint (f : t) (i : nat) (y v : Scalar) : Result t :=
  match appendAt f i (y, v) with
  | Some f' => Ok f'
  | None => Undefined
  end.

(** The samples of outer position [i] (empty beyond the table). *)
Definition samples (f : t) (i : nat) : list (Scalar * Scalar) :=
  match nth_error f i with
  | Some col => snd col
  | None => []
  end.

End UniformXTabulated2DFunction.

(* ------------------------------------------------------------------ *)
(** ** OilPvtMultiplexer *)

Module OilPvtMultiplexer.

Inductive OilPvtApproach : Type :=
| NoOilPvt
| LiveOilPvt
| DeadOilPvt
| ConstantCompressibilityOilPvt.

Definition OilPvtApproach_eqb (a b : OilPvtApproach) : bool :=
  match a, b with
  | NoOilPvt, NoOilPvt
  | LiveOilPvt, LiveOilPvt
  | DeadOilPvt, DeadOilPvt
  | ConstantCompressibilityOilPvt, ConstantCompressibilityOilPvt => true
  | _, _ => false
  end.

(** Addresses of objects on the free store. *)
Definition addr : Type := nat.

(** The two data members.  [realOilPvt_] is a [void*]; [None] stands for
    the indeterminate value it has before the first assignment. *)
Record t : Type := mk {
  approach_ : OilPvtApproach;
  realOilPvt_ : option addr
}.

(** The interface the three implementation classes (LiveOilPvt, DeadOilPvt,
    ConstantCompressibilityOilPvt; their headers are not among the sources)
    offer to the multiplexer: a default constructor and the property
    methods the multiplexer forwards to. *)
Class RealPvtClass (RealPvt : Type) : Type := {
  construct : OilPvtApproach -> RealPvt;
  real_viscosity :
    OilPvtApproach -> RealPvt -> nat -> Scalar -> Scalar -> Scalar -> Result Scalar;
  real_saturatedViscosity :
    OilPvtApproach -> RealPvt -> nat -> Scalar -> Scalar -> Result Scalar;
  real_formationVolumeFactor :
    OilPvtApproach -> RealPvt -> nat -> Scalar -> Scalar -> Scalar -> Result Scalar;
  real_saturatedFormationVolumeFactor :
    OilPvtApproach -> RealPvt -> nat -> Scalar -> Scalar -> Result Scalar;
  real_density :
    OilPvtApproach -> RealPvt -> nat -> Scalar -> Scalar -> Scalar -> Result Scalar;
  real_saturatedDensity :
    OilPvtApproach -> RealPvt -> nat -> Scalar -> Scalar -> Result Scalar;
  real_saturatedGasDissolutionFactor :
    OilPvtApproach -> RealPvt -> nat -> Scalar -> Scalar -> Result Scalar;
  real_saturationPressure :
    OilPvtApproach -> RealPvt -> nat -> Scalar -> Scalar -> Result Scalar;
  real_fugacityCoefficientOil :
    OilPvtApproach -> RealPvt -> nat -> Scalar -> Scalar -> Result Scalar
}.

Section WithRealPvt.

Context {RealPvt : Type} `{RealPvtClass RealPvt}.

(** Objects on the free store: multiplexers, and the implementation
    objects that [setApproach] creates with [new]. *)
Inductive Object : Type :=
| ObjMultiplexer (m : t)
| ObjRealPvt (kind : OilPvtApproach) (o : RealPvt).

(** The free store; a cell is [None] once deleted. *)
Definition Heap : Type := list (option Object).

Definition load (h : Heap) (a : addr) : option Object :=
  match nth_error h a with
  | Some (Some o) => Some o
  | _ => None
  end.

Fixpoint store (h : Heap) (a : addr) (c : option Object) : Heap :=
  match h, a with
  | [], _ => []
  | _ :: rest, O => c :: rest
  | x :: rest, S a' => x :: store rest a' c
  end.

(** [new T]: a fresh cell at the end of the store. *)
Definition new (h : Heap) (o : Object) : addr * Heap :=
  (length h, h ++ [Some o]).

(** [delete p] *)
Definition delete (h : Heap) (a : addr) : Result Heap :=
  match load h a with
  | Some _ => Ok (store h a None)
  | None => Undefined
  end.

Definition this_ (h : Heap) (self : addr) : Result t :=
  match load h self with
  | Some (ObjMultiplexer m) => Ok m
  | _ => Undefined
  end.

(** [OilPvtMultiplexer()] *)
Definition constructor (h : Heap) : addr * Heap :=
  new h (ObjMultiplexer (mk NoOilPvt None)).

Definition notImplemented : Exception :=
  logic_error [Text "Not implemented: Oil PVT of this deck!"].

(** [setApproach(appr)]: outcome and the store it leaves. *)
Definition setApproach (h : Heap) (self : addr) (appr : OilPvtApproach)
  : Result unit * Heap :=
  match this_ h self with
  | Ok m =>
      match appr with
      | NoOilPvt => (Throw notImplemented, h)
      | _ =>
          let (p, h1) := new h (ObjRealPvt appr (construct appr)) in
          (Ok tt, store h1 self (Some (ObjMultiplexer (mk appr (Some p)))))
      end
  | Throw e => (Throw e, h)
  | Undefined => (Undefined, h)
  end.

(** [getRealPvt<approachV>()]: [assert(approach() == approachV)] and the
    [static_cast] of [realOilPvt_]. *)
Definition getRealPvt (h : Heap) (m : t) (approachV : OilPvtApproach)
  : Result (addr * RealPvt) :=
  _ <- assert (OilPvtApproach_eqb (approach_ m) approachV) ;;
  match realOilPvt_ m with
  | None => Undefined
  | Some p =>
      match load h p with
      | Some (ObjRealPvt kind o) =>
          if OilPvtApproach_eqb kind approachV then Ok (p, o) else Undefined
      | _ => Undefined
      end
  end.

(** [~OilPvtMultiplexer()] *)
Definition destructor (h : Heap) (self : addr) : Result Heap :=
  m <- this_ h self ;;
  match approach_ m with
  | NoOilPvt => Ok h
  | k => po <- getRealPvt h m k ;; delete h (fst po)
  end.

(** [OPM_OIL_PVT_MULTIPLEXER_CALL(codeToCall)] where [codeToCall]
    returns from the enclosing method. *)
Definition OPM_OIL_PVT_MULTIPLEXER_CALL {A : Type} (h : Heap) (self : addr)
    (codeToCall : OilPvtApproach -> RealPvt -> Result A) : Result A :=
  m <- this_ h self ;;
  match approach_ m with
  | NoOilPvt => Throw notImplemented
  | k => po <- getRealPvt h m k ;; codeToCall k (snd po)
  end.

Definition approach (h : Heap) (self : addr) : Result OilPvtApproach :=
  m <- this_ h self ;; Ok (approach_ m).

Definition viscosity (h : Heap) (self : addr) (regionIdx : nat)
    (temperature pressure Rs : Scalar) : Result Scalar :=
  OPM_OIL_PVT_MULTIPLEXER_CALL h self
    (fun k pvtImpl => real_viscosity k pvtImpl regionIdx temperature pressure Rs).

Definition saturatedViscosity (h : Heap) (self : addr) (regionIdx : nat)
    (temperature pressure : Scalar) : Result Scalar :=
  OPM_OIL_PVT_MULTIPLEXER_CALL h self
    (fun k pvtImpl => real_saturatedViscosity k pvtImpl regionIdx temperature pressure).

Definition formationVolumeFactor (h : Heap) (self : addr) (regionIdx : nat)
    (temperature pressure Rs : Scalar) : Result Scalar :=
  OPM_OIL_PVT_MULTIPLEXER_CALL h self
    (fun k pvtImpl =>
       real_formationVolumeFactor k pvtImpl regionIdx temperature pressure Rs).

Definition saturatedFormationVolumeFactor (h : Heap) (self : addr)
    (regionIdx : nat) (temperature pressure : Scalar) : Result Scalar :=
  OPM_OIL_PVT_MULTIPLEXER_CALL h self
    (fun k pvtImpl =>
       real_saturatedFormationVolumeFactor k pvtImpl regionIdx temperature pressure).

Definition density (h : Heap) (self : addr) (regionIdx : nat)
    (temperature pressure Rs : Scalar) : Result Scalar :=
  OPM_OIL_PVT_MULTIPLEXER_CALL h self
    (fun k pvtImpl => real_density k pvtImpl regionIdx temperature pressure Rs).

Definition saturatedDensity (h : Heap) (self : addr) (regionIdx : nat)
    (temperature pressure : Scalar) : Result Scalar :=
  OPM_OIL_PVT_MULTIPLEXER_CALL h self
    (fun k pvtImpl => real_saturatedDensity k pvtImpl regionIdx temperature pressure).

Definition saturatedGasDissolutionFactor (h : Heap) (self : addr)
    (regionIdx : nat) (temperature pressure : Scalar) : Result Scalar :=
  OPM_OIL_PVT_MULTIPLEXER_CALL h self
    (fun k pvtImpl =>
       real_saturatedGasDissolutionFactor k pvtImpl regionIdx temperature pressure).

Definition saturationPressure (h : Heap) (self : addr) (regionIdx : nat)
    (temperature Rs : Scalar) : Result Scalar :=
  OPM_OIL_PVT_MULTIPLEXER_CALL h self
    (fun k pvtImpl => real_saturationPressure k pvtImpl regionIdx temperature Rs).

(** Modelled from the spec: [WetGasPvt::fugacityCoefficientOil] calls
    [oilPvt_->fugacityCoefficientOil], a method the multiplexer header
    among the sources does not define.  Section 4.5: every property
    method switches on the stored tag and forwards to the owned
    implementation, or fails with a configuration error if the tag is
    still unset. *)
Definition fugacityCoefficientOil (h : Heap) (self : addr) (regionIdx : nat)
    (temperature pressure : Scalar) : Result Scalar :=
  OPM_OIL_PVT_MULTIPLEXER_CALL h self
    (fun k pvtImpl =>
       real_fugacityCoefficientOil k pvtImpl regionIdx temperature pressure).

End WithRealPvt.

Arguments Object RealPvt : clear implicits.
Arguments Heap RealPvt : clear implicits.

Section Initialisation.

Context {RealPvt : Type} `{RealPvtClass RealPvt}.

(** The deck and the [eclState] handed to [initFromDeck]; the parser's
    classes are not among the sources, only [hasKeyword] is used here. *)
Variable DeckT : Type.
Variable hasKeyword : DeckT -> string -> bool.

(** [pvtImpl.initFromDeck(deck, eclState)] and [pvtImpl.initEnd()] of the
    three implementation classes: statements that update the
    implementation object and may fail. *)
Variable real_initFromDeck :
  OilPvtApproach -> DeckT -> RealPvt -> Result unit * RealPvt.
Variable real_initEnd : OilPvtApproach -> RealPvt -> Result unit * RealPvt.

(** [OPM_OIL_PVT_MULTIPLEXER_CALL(codeToCall)] where [codeToCall] is a
    statement that updates [pvtImpl]. *)
Definition OPM_OIL_PVT_MULTIPLEXER_UPDATE (h : Heap RealPvt) (self : addr)
    (codeToCall : OilPvtApproach -> RealPvt -> Result unit * RealPvt)
  : Result unit * Heap RealPvt :=
  match this_ h self with
  | Ok m =>
      match approach_ m with
      | NoOilPvt => (Throw notImplemented, h)
      | k =>
          match getRealPvt h m k with
          | Ok (p, pvtImpl) =>
              let (r, pvtImpl') := codeToCall k pvtImpl in
              (r, store h p (Some (ObjRealPvt k pvtImpl')))
          | Throw e => (Throw e, h)
          | Undefined => (Undefined, h)
          end
      end
  | Throw e => (Throw e, h)
  | Undefined => (Undefined, h)
  end.

(** Lines 111-116: the approach is chosen by the first keyword present
    among PVCDO, PVDO and PVTO; without any of them it is left alone. *)
Definition selectApproach (h : Heap RealPvt) (self : addr) (deck : DeckT)
  : Result unit * Heap RealPvt :=
  if hasKeyword deck "PVCDO" then setApproach h self ConstantCompressibilityOilPvt
  else if hasKeyword deck "PVDO" then setApproach h self DeadOilPvt
  else if hasKeyword deck "PVTO" then setApproach h self LiveOilPvt
  else (Ok tt, h).

Definition initFromDeck (h : Heap RealPvt) (self : addr) (deck : DeckT)
  : Result unit * Heap RealPvt :=
  match selectApproach h self deck with
  | (Ok _, h1) =>
      OPM_OIL_PVT_MULTIPLEXER_UPDATE h1 self
        (fun k pvtImpl => real_initFromDeck k deck pvtImpl)
  | (Throw e, h1) => (Throw e, h1)
  | (Undefined, h1) => (Undefined, h1)
  end.

Definition initEnd (h : Heap RealPvt) (self : addr)
  : Result unit * Heap RealPvt :=
  OPM_OIL_PVT_MULTIPLEXER_UPDATE h self real_initEnd.

End Initialisation.

End OilPvtMultiplexer.

(* ------------------------------------------------------------------ *)
(** ** Statements that update an object and may fail *)

Section StateResult.

Variable S : Type.

(** A statement run on a state [S]: its outcome and the state it leaves
    behind (also when it throws). *)
Definition M (A : Type) : Type := S -> Result A * S.

Definition retM {A : Type} (a : A) : M A := fun s => (Ok a, s).

Definition bindM {A B : Type} (m : M A) (k : A -> M B) : M B :=
  fun s =>
    match m s with
    | (Ok a, s') => k a s'
    | (Throw e, s') => (Throw e, s')
    | (Undefined, s') => (Undefined, s')
    end.

Definition liftR {A : Type} (r : Result A) : M A := fun s => (r, s).

Definition getM : M S := fun s => (Ok s, s).

Definition putM (s' : S) : M unit := fun _ => (Ok tt, s').

(** A fallible update of the state; a failed update leaves it as it was. *)
Definition modifyR (f : S -> Result S) : M unit :=
  fun s =>
    match f s with
    | Ok s' => (Ok tt, s')
    | Throw e => (Throw e, s)
    | Undefined => (Undefined, s)
    end.

(** [for (i : l) body(i)] *)
Fixpoint forM (l : list nat) (body : nat -> M unit) : M unit :=
  match l with
  | [] => retM tt
  | i :: l' => bindM (body i) (fun _ => forM l' body)
  end.

End StateResult.

Arguments retM {S A} a.
Arguments bindM {S A B} m k.
Arguments liftR {S A} r.
Arguments getM {S}.
Arguments putM {S} s'.
Arguments modifyR {S} f.
Arguments forM {S} l body.

Notation "x <~ e ;; k" := (bindM e (fun x => k))
  (at level 61, e at next level, right associativity) : result_scope.

(** [v.resize(n)] with value-initialised new elements. *)
Definition resize {A : Type} (n : nat) (d : A) (v : list A) : list A :=
  firstn n v ++ repeat d (n - length v).

(** [v[i] = a] *)
Fixpoint setAt {A : Type} (v : list A) (i : nat) (a : A) : Result (list A) :=
  match v, i with
  | [], _ => Undefined
  | _ :: rest, O => Ok (a :: rest)
  | x :: rest, S i' => rest' <- setAt rest i' a ;; Ok (x :: rest')
  end.

(* ------------------------------------------------------------------ *)
(** ** The PVTG and DENSITY data handed over by the deck parser *)

(** One row of an inner (under-saturated) PVTG table. *)
Record PvtgRow : Type := mkRow {
  OilSolubility : Scalar;
  GasFormationFactor : Scalar;
  GasViscosity : Scalar
}.

(** One row of the outer (saturated) PVTG table with the inner table that
    belongs to it: [getOuterTable()] and [getInnerTable(outerIdx)]. *)
Record PvtgOuterRow : Type := mkOuter {
  Pressure : Scalar;
  SaturatedOilSolubility : Scalar;
  InnerTable : list PvtgRow
}.

Definition PvtgTable : Type := list PvtgOuterRow.

Definition getPressureColumn (tbl : PvtgTable) : list Scalar :=
  map Pressure tbl.

Definition getOilSolubilityColumn (tbl : PvtgTable) : list Scalar :=
  map SaturatedOilSolubility tbl.

Definition getInnerTable (tbl : PvtgTable) (i : nat) : Result (list PvtgRow) :=
  row <- at_ tbl i ;; Ok (InnerTable row).

Record DensityRecord : Type := mkDensity {
  OIL : Scalar;
  GAS : Scalar;
  WATER : Scalar
}.

Record Deck : Type := mkDeck {
  densityKeyword : list DensityRecord;
  pvtgTables : list PvtgTable
}.

(* ------------------------------------------------------------------ *)
(** ** WetGasPvt *)

Module WetGasPvt.

Import OilPvtMultiplexer.
Module T1 := Tabulated1DFunction.
Module T2 := UniformXTabulated2DFunction.

(** A [Spline] object fitted with [setContainerOfTuples(points, Monotonic)]
    is represented by the points it was fitted to; opm/material/common/Spline.hpp
    is not among the sources, so the fitted curve is a parameter
    ([splineEval] below). *)
Definition Spline : Type := SamplingPoints.

Record t : Type := mk {
  oilPvt_ : option addr;
  gasMolarMass_ : list Scalar;
  oilMolarMass_ : list Scalar;
  gasReferenceDensity_ : list Scalar;
  oilReferenceDensity_ : list Scalar;
  inverseGasB_ : list T2.t;
  gasMu_ : list T2.t;
  inverseGasBMu_ : list T2.t;
  oilVaporizationFactorTable_ : list T1.t;
  saturationPressureSpline_ : list Spline
}.

(** A newly constructed object: empty vectors, [oilPvt_] not yet set. *)
Definition fresh : t := mk None [] [] [] [] [] [] [] [] [].

Definition setNumRegions (g : t) (numRegions : nat) : t :=
  mk (oilPvt_ g)
     (resize numRegions 0%Qc (gasMolarMass_ g))
     (resize numRegions 0%Qc (oilMolarMass_ g))
     (resize numRegions 0%Qc (gasReferenceDensity_ g))
     (resize numRegions 0%Qc (oilReferenceDensity_ g))
     (resize numRegions [] (inverseGasB_ g))
     (resize numRegions [] (gasMu_ g))
     (resize numRegions [] (inverseGasBMu_ g))
     (resize numRegions [] (oilVaporizationFactorTable_ g))
     (resize numRegions [] (saturationPressureSpline_ g)).

Definition setReferenceDensities (g : t) (regionIdx : nat)
    (rhoRefOil rhoRefGas rhoRefWater : Scalar) : Result t :=
  o <- setAt (oilReferenceDensity_ g) regionIdx rhoRefOil ;;
  r <- setAt (gasReferenceDensity_ g) regionIdx rhoRefGas ;;
  Ok (mk (oilPvt_ g) (gasMolarMass_ g) (oilMolarMass_ g) r o
         (inverseGasB_ g) (gasMu_ g) (inverseGasBMu_ g)
         (oilVaporizationFactorTable_ g) (saturationPressureSpline_ g)).

Definition setMolarMasses (g : t) (regionIdx : nat)
    (MOil MGas MWater : Scalar) : Result t :=
  o <- setAt (oilMolarMass_ g) regionIdx MOil ;;
  r <- setAt (gasMolarMass_ g) regionIdx MGas ;;
  Ok (mk (oilPvt_ g) r o (gasReferenceDensity_ g) (oilReferenceDensity_ g)
         (inverseGasB_ g) (gasMu_ g) (inverseGasBMu_ g)
         (oilVaporizationFactorTable_ g) (saturationPressureSpline_ g)).

Definition setSaturatedGasOilVaporizationFactor (g : t) (regionIdx : nat)
    (samplePoints : SamplingPoints) : Result t :=
  v <- setAt (oilVaporizationFactorTable_ g) regionIdx
             (T1.setContainerOfTuples samplePoints) ;;
  Ok (mk (oilPvt_ g) (gasMolarMass_ g) (oilMolarMass_ g)
         (gasReferenceDensity_ g) (oilReferenceDensity_ g)
         (inverseGasB_ g) (gasMu_ g) (inverseGasBMu_ g)
         v (saturationPressureSpline_ g)).

Definition setInverseGasFormationVolumeFactor (g : t) (regionIdx : nat)
    (invBg : T2.t) : Result t :=
  v <- setAt (inverseGasB_ g) regionIdx invBg ;;
  Ok (mk (oilPvt_ g) (gasMolarMass_ g) (oilMolarMass_ g)
         (gasReferenceDensity_ g) (oilReferenceDensity_ g)
         v (gasMu_ g) (inverseGasBMu_ g)
         (oilVaporizationFactorTable_ g) (saturationPressureSpline_ g)).

Definition setGasViscosity (g : t) (regionIdx : nat) (mug : T2.t) : Result t :=
  v <- setAt (gasMu_ g) regionIdx mug ;;
  Ok (mk (oilPvt_ g) (gasMolarMass_ g) (oilMolarMass_ g)
         (gasReferenceDensity_ g) (oilReferenceDensity_ g)
         (inverseGasB_ g) v (inverseGasBMu_ g)
         (oilVaporizationFactorTable_ g) (saturationPressureSpline_ g)).

(** The message of the [NumericalIssue] thrown by [gasSaturationPressure]. *)
Definition noSaturationPressure (XgO : Scalar) : Exception :=
  NumericalIssue
    [Text "Could find the gas saturation pressure for X_g^O = "; Num XgO].

Section Queries.

Context {RealPvt : Type} `{RealPvtClass RealPvt}.

(** [Spline::eval(x, extrapolate = true)]: the value at [x] of the
    monotonic spline fitted to the given points. *)
Variable splineEval : Spline -> Scalar -> Scalar.

(** [UniformXTabulated2DFunction::eval(x, y, extrapolate = true)]. *)
Variable eval2D : T2.t -> Scalar -> Scalar -> Scalar.

Definition oilVaporizationFactor (g : t) (regionIdx : nat)
    (temperature pressure : Scalar) : Result Scalar :=
  tab <- at_ (oilVaporizationFactorTable_ g) regionIdx ;;
  T1.eval tab pressure true.

Definition saturatedGasOilMassFraction (g : t) (regionIdx : nat)
    (temperature pressure : Scalar) : Result Scalar :=
  rho_gRef <- at_ (gasReferenceDensity_ g) regionIdx ;;
  rho_oRef <- at_ (oilReferenceDensity_ g) regionIdx ;;
  Rv <- oilVaporizationFactor g regionIdx temperature pressure ;;
  let rho_gO := (Rv * rho_oRef)%Qc in
  Ok (rho_gO / (rho_gRef + rho_gO))%Qc.

Definition saturatedGasOilMoleFraction (g : t) (regionIdx : nat)
    (temperature pressure : Scalar) : Result Scalar :=
  XgO <- saturatedGasOilMassFraction g regionIdx temperature pressure ;;
  MG <- at_ (gasMolarMass_ g) regionIdx ;;
  MO <- at_ (oilMolarMass_ g) regionIdx ;;
  let avgMolarMass := (MO / (1 + (1 - XgO) * (MO / MG - 1)))%Qc in
  Ok (XgO * avgMolarMass / MO)%Qc.

(** [formationVolumeFactor], [viscosity] and [density] convert the mass
    fraction to [Rv = XgO/(1 - XgO)*(rhogRef/rhooRef)].  The quotients
    are those of the field: where [1 - XgO] or [rhooRef] is zero the
    source divides by zero (inf or NaN in [double]) and the value below
    says nothing about it; statements about the values of these
    functions exclude these inputs. *)
Definition formationVolumeFactor (g : t) (regionIdx : nat)
    (temperature pressure XgO : Scalar) : Result Scalar :=
  rhooRef <- at_ (oilReferenceDensity_ g) regionIdx ;;
  rhogRef <- at_ (gasReferenceDensity_ g) regionIdx ;;
  let Rv := (XgO / (1 - XgO) * (rhogRef / rhooRef))%Qc in
  tab <- at_ (inverseGasB_ g) regionIdx ;;
  Ok (1 / eval2D tab pressure Rv)%Qc.

Definition viscosity (g : t) (regionIdx : nat)
    (temperature pressure XgO : Scalar) : Result Scalar :=
  rhooRef <- at_ (oilReferenceDensity_ g) regionIdx ;;
  rhogRef <- at_ (gasReferenceDensity_ g) regionIdx ;;
  let Rv := (XgO / (1 - XgO) * (rhogRef / rhooRef))%Qc in
  tabB <- at_ (inverseGasB_ g) regionIdx ;;
  let invBg := eval2D tabB pressure Rv in
  tabBMu <- at_ (inverseGasBMu_ g) regionIdx ;;
  let invMugBg := eval2D tabBMu pressure Rv in
  Ok (invBg / invMugBg)%Qc.

Definition density (g : t) (regionIdx : nat)
    (temperature pressure XgO : Scalar) : Result Scalar :=
  rhooRef <- at_ (oilReferenceDensity_ g) regionIdx ;;
  rhogRef <- at_ (gasReferenceDensity_ g) regionIdx ;;
  Bg <- formationVolumeFactor g regionIdx temperature pressure XgO ;;
  let rhog := (rhogRef / Bg)%Qc in
  let Rv := (XgO / (1 - XgO) * (rhogRef / rhooRef))%Qc in
  Ok (rhog + (rhogRef * Rv) / Bg)%Qc.

Definition fugacityCoefficientGas (g : t) (regionIdx : nat)
    (temperature pressure : Scalar) : Result Scalar :=
  Ok 1%Qc.

(** [oilPvt_->fugacityCoefficientOil(...)]: the companion is reached
    through the stored pointer. *)
Definition fugacityCoefficientOil (h : Heap RealPvt) (g : t)
    (regionIdx : nat) (temperature pressure : Scalar) : Result Scalar :=
  x_gOSat <- saturatedGasOilMoleFraction g regionIdx temperature pressure ;;
  match oilPvt_ g with
  | None => Undefined
  | Some oilPvt =>
      phi_oO <- OilPvtMultiplexer.fugacityCoefficientOil
                  h oilPvt regionIdx temperature pressure ;;
      Ok (phi_oO / x_gOSat)%Qc
  end.

(** [fugacityCoefficientWater] calls itself before it does anything
    else.  [depth] bounds the nesting of calls the evaluation may use;
    [None] means that this bound was not enough to reach a [return]. *)
Fixpoint fugacityCoefficientWater (depth : nat) (g : t) (regionIdx : nat)
    (temperature pressure : Scalar) : option (Result Scalar) :=
  match depth with
  | O => None
  | S depth' =>
      match fugacityCoefficientWater depth' g regionIdx temperature pressure with
      | None => None
      | Some r => Some (v <- r ;; Ok (e_plus_8 * v)%Qc)
      end
  end.

(** The body of the [for (unsigned i = 0; i < 20; ++i)] loop of
    [gasSaturationPressure], with [iterations] passes left. *)
Fixpoint newtonLoop (iterations : nat) (g : t) (regionIdx : nat)
    (temperature XgO eps pSat : Scalar) : Result Scalar :=
  match iterations with
  | O => Throw (noSaturationPressure XgO)
  | S iterations' =>
      X0 <- saturatedGasOilMassFraction g regionIdx temperature pSat ;;
      let f := (X0 - XgO)%Qc in
      X1 <- saturatedGasOilMassFraction g regionIdx temperature (pSat + eps)%Qc ;;
      let fPrime := (((X1 - XgO) - f) / eps)%Qc in
      let delta := (f / fPrime)%Qc in
      let pSat' := (pSat - delta)%Qc in
      if Qcltb (Qcabs delta) (Qcabs pSat' * e_minus_10)%Qc
      then Ok pSat'
      else newtonLoop iterations' g regionIdx temperature XgO eps pSat'
  end.

Definition gasSaturationPressure (g : t) (regionIdx : nat)
    (temperature XgO : Scalar) : Result Scalar :=
  spline <- at_ (saturationPressureSpline_ g) regionIdx ;;
  let pSat := splineEval spline XgO in
  let eps := (pSat * e_minus_11)%Qc in
  newtonLoop 20 g regionIdx temperature XgO eps pSat.

(** The sample points [(XgO, pSat)] pushed by the loop of
    [updateSaturationPressureSpline_] for [i] in [idxs]. *)
Fixpoint pSatSamplePoints (g : t) (regionIdx : nat) (xMin delta : Scalar)
    (idxs : list nat) : Result SamplingPoints :=
  match idxs with
  | [] => Ok []
  | i :: idxs' =>
      let pSat := (xMin + ofNat i * delta)%Qc in
      XgO <- saturatedGasOilMassFraction g regionIdx e_plus_100 pSat ;;
      rest <- pSatSamplePoints g regionIdx xMin delta idxs' ;;
      Ok ((XgO, pSat) :: rest)
  end.

Definition updateSaturationPressureSpline_ (g : t) (regionIdx : nat)
  : Result t :=
  oilVaporizationFac <- at_ (oilVaporizationFactorTable_ g) regionIdx ;;
  let n := T1.numSamples oilVaporizationFac * 5 in
  hi <- T1.xMax oilVaporizationFac ;;
  lo <- T1.xMin oilVaporizationFac ;;
  let delta := ((hi - lo) / ofNat (n + 1))%Qc in
  pts <- pSatSamplePoints g regionIdx lo delta (seq 0 (n + 1)) ;;
  spl <- setAt (saturationPressureSpline_ g) regionIdx pts ;;
  Ok (mk (oilPvt_ g) (gasMolarMass_ g) (oilMolarMass_ g)
         (gasReferenceDensity_ g) (oilReferenceDensity_ g)
         (inverseGasB_ g) (gasMu_ g) (inverseGasBMu_ g)
         (oilVaporizationFactorTable_ g) spl).

(** The iteration as the specification words it (section 4.3): the step of
    the finite difference is taken from the current iterate,
    [eps = p * 1e-11], in every pass. *)
Fixpoint newtonLoop_spec (iterations : nat) (g : t) (regionIdx : nat)
    (temperature XgO p : Scalar) : Result Scalar :=
  match iterations with
  | O => Throw (noSaturationPressure XgO)
  | S iterations' =>
      let eps := (p * e_minus_11)%Qc in
      X0 <- saturatedGasOilMassFraction g regionIdx temperature p ;;
      let f := (X0 - XgO)%Qc in
      X1 <- saturatedGasOilMassFraction g regionIdx temperature (p + eps)%Qc ;;
      let fPrime := (((X1 - XgO) - f) / eps)%Qc in
      let delta := (f / fPrime)%Qc in
      let p' := (p - delta)%Qc in
      if Qcltb (Qcabs delta) (Qcabs p' * e_minus_10)%Qc
      then Ok p'
      else newtonLoop_spec iterations' g regionIdx temperature XgO p'
  end.

Definition gasSaturationPressure_spec (g : t) (regionIdx : nat)
    (temperature XgO : Scalar) : Result Scalar :=
  spline <- at_ (saturationPressureSpline_ g) regionIdx ;;
  let p := splineEval spline XgO in
  newtonLoop_spec 20 g regionIdx temperature XgO p.

(** [initEnd]: one outer position [pIdx] of the table of [1/(Bg*mug)]. *)
Definition initEndColumn (gasMu invGasB : T2.t) (pIdx : nat) : M T2.t unit :=
  x <~ liftR (T2.xAt gasMu pIdx) ;;
  _ <~ (fun invGasBMu => (Ok tt, T2.appendXPos invGasBMu x)) ;;
  nMu <~ liftR (T2.numY gasMu pIdx) ;;
  nB <~ liftR (T2.numY invGasB pIdx) ;;
  _ <~ liftR (assert (nMu =? nB)) ;;
  let numPressures := nMu in
  forM (seq 0 numPressures) (fun rvIdx =>
    y <~ liftR (T2.yAt gasMu pIdx rvIdx) ;;
    b <~ liftR (T2.valueAt invGasB pIdx rvIdx) ;;
    m <~ liftR (T2.valueAt gasMu pIdx rvIdx) ;;
    modifyR (fun invGasBMu =>
               T2.appendSamplePoint invGasBMu pIdx y (b * 1 / m)%Qc)).

Definition initEndRegion (g : t) (regionIdx : nat) : Result t :=
  gasMu <- at_ (gasMu_ g) regionIdx ;;
  invGasB <- at_ (inverseGasB_ g) regionIdx ;;
  _ <- assert (T2.numX gasMu =? T2.numX invGasB) ;;
  invGasBMu <- at_ (inverseGasBMu_ g) regionIdx ;;
  let (r, invGasBMu') :=
    forM (seq 0 (T2.numX gasMu)) (initEndColumn gasMu invGasB) invGasBMu in
  _ <- r ;;
  v <- setAt (inverseGasBMu_ g) regionIdx invGasBMu' ;;
  updateSaturationPressureSpline_
    (mk (oilPvt_ g) (gasMolarMass_ g) (oilMolarMass_ g)
        (gasReferenceDensity_ g) (oilReferenceDensity_ g)
        (inverseGasB_ g) (gasMu_ g) v
        (oilVaporizationFactorTable_ g) (saturationPressureSpline_ g))
    regionIdx.

Fixpoint initEndRegions (g : t) (regions : list nat) : Result t :=
  match regions with
  | [] => Ok g
  | regionIdx :: rest =>
      g' <- initEndRegion g regionIdx ;; initEndRegions g' rest
  end.

Definition initEnd (g : t) (oilPvt : addr) : Result t :=
  let g0 := mk (Some oilPvt) (gasMolarMass_ g) (oilMolarMass_ g)
               (gasReferenceDensity_ g) (oilReferenceDensity_ g)
               (inverseGasB_ g) (gasMu_ g) (inverseGasBMu_ g)
               (oilVaporizationFactorTable_ g) (saturationPressureSpline_ g) in
  let numRegions := length (gasMu_ g0) in
  initEndRegions g0 (seq 0 numRegions).

(** *** setSaturatedGasViscosity *)

(** [v.front()] and [v.back()]: defined on a container that is not empty. *)
Definition front {A : Type} (v : list A) : Result A := at_ v 0.

Definition back {A : Type} (v : list A) : Result A :=
  match v with
  | [] => Undefined
  | _ :: _ => at_ v (length v - 1)
  end.

(** Lines 340-345: the body of the loop over [pIdx]; [mugSpline] is the
    spline fitted to [samplePoints]. *)
Definition saturatedViscositySample (samplePoints : SamplingPoints)
    (poMin poMax : Scalar) (nP RvIdx pIdx : nat) : M T2.t unit :=
  let pg := (poMin + (poMax - poMin) * ofNat pIdx / ofNat nP)%Qc in
  let mug := splineEval samplePoints pg in
  modifyR (fun gasMu => T2.appendSamplePoint gasMu RvIdx pg mug).

(** Lines 335-346: the body of the loop over [RvIdx]. *)
Definition saturatedViscosityColumn (samplePoints : SamplingPoints)
    (RvMin RvMax poMin poMax : Scalar) (nRv nP RvIdx : nat) : M T2.t unit :=
  let Rv := (RvMin + (RvMax - RvMin) * ofNat RvIdx / ofNat nRv)%Qc in
  _ <~ (fun gasMu => (Ok tt, T2.appendXPos gasMu Rv)) ;;
  forM (seq 0 nP) (saturatedViscositySample samplePoints poMin poMax nP RvIdx).

Definition setSaturatedGasViscosity (g : t) (regionIdx : nat)
    (samplePoints : SamplingPoints) : Result t :=
  oilVaporizationFac <- at_ (oilVaporizationFactorTable_ g) regionIdx ;;
  let RvMin := 0%Qc in
  hi <- T1.xMax oilVaporizationFac ;;
  RvMax <- T1.eval oilVaporizationFac hi true ;;
  first <- front samplePoints ;;
  let poMin := fst first in
  last <- back samplePoints ;;
  let poMax := fst last in
  let nRv := 20 in
  let nP := length samplePoints * 2 in
  gasMu <- at_ (gasMu_ g) regionIdx ;;
  let (r, gasMu') :=
    forM (seq 0 nRv)
         (saturatedViscosityColumn samplePoints RvMin RvMax poMin poMax nRv nP)
         gasMu in
  _ <- r ;;
  v <- setAt (gasMu_ g) regionIdx gasMu' ;;
  Ok (mk (oilPvt_ g) (gasMolarMass_ g) (oilMolarMass_ g)
         (gasReferenceDensity_ g) (oilReferenceDensity_ g)
         (inverseGasB_ g) v (inverseGasBMu_ g)
         (oilVaporizationFactorTable_ g) (saturationPressureSpline_ g)).

(** *** initFromDeck *)

(** The two tables of one region that the PVTG extraction fills. *)
Record Tables : Type := mkTables {
  invGasB : T2.t;
  gasMu : T2.t
}.

Definition appendXPosBoth (pg : Scalar) : M Tables unit :=
  fun s => (Ok tt, mkTables (T2.appendXPos (invGasB s) pg)
                            (T2.appendXPos (gasMu s) pg)).

Definition appendInvGasB (xIdx : nat) (y v : Scalar) : M Tables unit :=
  modifyR (fun s =>
             b <- T2.appendSamplePoint (invGasB s) xIdx y v ;;
             Ok (mkTables b (gasMu s))).

Definition appendGasMu (xIdx : nat) (y v : Scalar) : M Tables unit :=
  modifyR (fun s =>
             m <- T2.appendSamplePoint (gasMu s) xIdx y v ;;
             Ok (mkTables (invGasB s) m)).

(** Lines 117-124: the body of the loop over the rows of an inner table. *)
Definition extractSample (outerIdx : nat) (underSaturatedTable : list PvtgRow)
    (innerIdx : nat) : M Tables unit :=
  row <~ liftR (at_ underSaturatedTable innerIdx) ;;
  let Rv := OilSolubility row in
  let Bg := GasFormationFactor row in
  let mug := GasViscosity row in
  _ <~ appendInvGasB outerIdx Rv (1 / Bg)%Qc ;;
  appendGasMu outerIdx Rv mug.

(** Lines 106-125: the samples of outer row [outerIdx] as the deck has them. *)
Definition extractRow (pvtgTable : PvtgTable) (outerIdx : nat) : M Tables unit :=
  pg <~ liftR (at_ (getPressureColumn pvtgTable) outerIdx) ;;
  _ <~ appendXPosBoth pg ;;
  s <~ getM ;;
  _ <~ liftR (assert (T2.numX (invGasB s) =? outerIdx + 1)) ;;
  _ <~ liftR (assert (T2.numX (gasMu s) =? outerIdx + 1)) ;;
  underSaturatedTable <~ liftR (getInnerTable pvtgTable outerIdx) ;;
  let numRows := length underSaturatedTable in
  forM (seq 0 numRows) (extractSample outerIdx underSaturatedTable).

(** Lines 140-145: the scan for the master table, over the rows from
    [masterTableIdx] on. *)
Fixpoint scanMasterTable (rows : list PvtgOuterRow) (masterTableIdx : nat) : nat :=
  match rows with
  | [] => masterTableIdx
  | row :: rest =>
      if 1 <? length (InnerTable row) then masterTableIdx
      else scanMasterTable rest (S masterTableIdx)
  end.

Definition findMasterTable (pvtgTable : PvtgTable) (xIdx : nat) : nat :=
  scanMasterTable (skipn (xIdx + 1) pvtgTable) (xIdx + 1).

Definition invalidPvtg : Exception :=
  runtime_error
    [Text "PVTG tables are invalid: The last table must exhibit at least one entry for undersaturated gas!"].

(** Lines 158-177: one synthesized row. *)
Definition extendRow (xIdx : nat) (masterTable curTable : list PvtgRow)
    (newRowIdx : nat) : M Tables unit :=
  mNew <~ liftR (at_ masterTable newRowIdx) ;;
  m0 <~ liftR (at_ masterTable 0) ;;
  c0 <~ liftR (at_ curTable 0) ;;
  let alphaRv := (OilSolubility mNew / OilSolubility m0)%Qc in
  let alphaBg := (GasFormationFactor mNew / GasFormationFactor m0)%Qc in
  let alphaMug := (GasViscosity mNew / GasViscosity m0)%Qc in
  let newRv := (OilSolubility c0 * alphaRv)%Qc in
  let newBg := (GasFormationFactor c0 * alphaBg)%Qc in
  let newMug := (GasViscosity c0 * alphaMug)%Qc in
  _ <~ appendInvGasB xIdx newRv (1 / newBg)%Qc ;;
  appendGasMu xIdx newRv newMug.

(** Lines 128-178: the body of the gap-fill loop for outer row [xIdx]. *)
Definition gapFillRow (pvtgTable : PvtgTable) (xIdx : nat) : M Tables unit :=
  s <~ getM ;;
  numY <~ liftR (T2.numY (invGasB s) xIdx) ;;
  _ <~ liftR (assert (0 <? numY)) ;;
  if 1 <? numY then retM tt
  else
    let masterTableIdx := findMasterTable pvtgTable xIdx in
    if length pvtgTable <=? masterTableIdx then liftR (Throw invalidPvtg)
    else
      masterTable <~ liftR (getInnerTable pvtgTable masterTableIdx) ;;
      curTable <~ liftR (getInnerTable pvtgTable xIdx) ;;
      forM (seq 1 (length masterTable - 1))
           (extendRow xIdx masterTable curTable).

Definition gapFill (pvtgTable : PvtgTable) : M Tables unit :=
  s <~ getM ;;
  forM (seq 0 (T2.numX (invGasB s))) (gapFillRow pvtgTable).

(** Lines 105-178 for one region. *)
Definition extractPvtg (pvtgTable : PvtgTable) : M Tables unit :=
  _ <~ forM (seq 0 (length pvtgTable)) (extractRow pvtgTable) ;;
  gapFill pvtgTable.

(** [Opm::Constants<Scalar>::R]; opm/material/Constants.hpp is not among
    the sources. *)
Variable R : Scalar.

Definition writeTables (regionIdx : nat) (tabs : Tables) : M t unit :=
  modifyR (fun g =>
    b <- setAt (inverseGasB_ g) regionIdx (invGasB tabs) ;;
    m <- setAt (gasMu_ g) regionIdx (gasMu tabs) ;;
    Ok (mk (oilPvt_ g) (gasMolarMass_ g) (oilMolarMass_ g)
           (gasReferenceDensity_ g) (oilReferenceDensity_ g)
           b m (inverseGasBMu_ g)
           (oilVaporizationFactorTable_ g) (saturationPressureSpline_ g))).

(** Lines 75-179: the body of the loop over the regions. *)
Definition initRegionFromDeck (deck : Deck) (regionIdx : nat) : M t unit :=
  record <~ liftR (at_ (densityKeyword deck) regionIdx) ;;
  let rhoRefO := OIL record in
  let rhoRefG := GAS record in
  let rhoRefW := WATER record in
  _ <~ modifyR (fun g => setReferenceDensities g regionIdx rhoRefO rhoRefG rhoRefW) ;;
  let p := lit 101325 1 in
  let T := (lit 27315 100 + lit 1556 100)%Qc in
  let MO := lit 175 1000 in
  let MG := (R * T * rhoRefG / p)%Qc in
  let MW := lit 18 1000 in
  _ <~ modifyR (fun g => setMolarMasses g regionIdx MO MG MW) ;;
  pvtgTable <~ liftR (at_ (pvtgTables deck) regionIdx) ;;
  let saturatedTable := pvtgTable in
  _ <~ liftR (assert (1 <? length saturatedTable)) ;;
  g <~ getM ;;
  tabs <~ liftR (b <- at_ (inverseGasB_ g) regionIdx ;;
                 m <- at_ (gasMu_ g) regionIdx ;;
                 Ok (mkTables b m)) ;;
  _ <~ modifyR (fun g =>
         v <- setAt (oilVaporizationFactorTable_ g) regionIdx
                (T1.setXYArrays (length saturatedTable)
                   (getPressureColumn saturatedTable)
                   (getOilSolubilityColumn saturatedTable)) ;;
         Ok (mk (oilPvt_ g) (gasMolarMass_ g) (oilMolarMass_ g)
                (gasReferenceDensity_ g) (oilReferenceDensity_ g)
                (inverseGasB_ g) (gasMu_ g) (inverseGasBMu_ g)
                v (saturationPressureSpline_ g))) ;;
  let (r, tabs') := extractPvtg pvtgTable tabs in
  _ <~ writeTables regionIdx tabs' ;;
  liftR r.

Definition initFromDeck (deck : Deck) : M t unit :=
  _ <~ liftR (assert (length (pvtgTables deck) =? length (densityKeyword deck))) ;;
  let numRegions := length (pvtgTables deck) in
  _ <~ (fun g => (Ok tt, setNumRegions g numRegions)) ;;
  forM (seq 0 numRegions) (initRegionFromDeck deck).

End Queries.

End WetGasPvt.

(* ------------------------------------------------------------------ *)
(** ** BlackOil fluid system *)

Module BlackOil.

Definition waterPhaseIdx : nat := 0.
Definition oilPhaseIdx : nat := 1.
Definition gasPhaseIdx : nat := 2.

Definition oilCompIdx : nat := 0.
Definition waterCompIdx : nat := 1.
Definition gasCompIdx : nat := 2.

Definition surfaceTemperature : Scalar := (lit 27315 100 + lit 1556 100)%Qc.
Definition surfacePressure : Scalar := lit 101325 1.

(** [std::array<Scalar, 3>], value-initialised. *)
Definition array3 : Type := list Scalar.
Definition zeros3 : array3 := [0%Qc; 0%Qc; 0%Qc].

(** The static data members the initialisation touches (the three
    [shared_ptr] members play no part in it). *)
Record t : Type := mk {
  enableDissolvedGas_ : bool;
  enableVaporizedOil_ : bool;
  referenceDensity_ : list array3;
  molarMass_ : list array3
}.

(** [v[i][j] = x] *)
Definition setElem (v : list array3) (i j : nat) (x : Scalar)
  : Result (list array3) :=
  row <- at_ v i ;;
  row' <- setAt row j x ;;
  setAt v i row'.

Definition resizeArrays_ (s : t) (numRegions : nat) : t :=
  mk (enableDissolvedGas_ s) (enableVaporizedOil_ s)
     (resize numRegions zeros3 (referenceDensity_ s))
     (resize numRegions zeros3 (molarMass_ s)).

Definition initBegin (s : t) (numPvtRegions : nat) : t :=
  resizeArrays_ (mk true false (referenceDensity_ s) (molarMass_ s))
                numPvtRegions.

Definition setReferenceDensities (s : t) (rhoOil rhoWater rhoGas : Scalar)
    (regionIdx : nat) : Result t :=
  d1 <- setElem (referenceDensity_ s) regionIdx oilPhaseIdx rhoOil ;;
  d2 <- setElem d1 regionIdx waterPhaseIdx rhoWater ;;
  d3 <- setElem d2 regionIdx gasPhaseIdx rhoGas ;;
  Ok (mk (enableDissolvedGas_ s) (enableVaporizedOil_ s) d3 (molarMass_ s)).

Definition referenceDensity (s : t) (phaseIdx regionIdx : nat) : Result Scalar :=
  row <- at_ (referenceDensity_ s) regionIdx ;; at_ row phaseIdx.

Definition molarMass (s : t) (compIdx regionIdx : nat) : Result Scalar :=
  row <- at_ (molarMass_ s) regionIdx ;; at_ row compIdx.

Definition setEnableDissolvedGas (s : t) (yesno : bool) : t :=
  mk yesno (enableVaporizedOil_ s) (referenceDensity_ s) (molarMass_ s).

Definition setEnableVaporizedOil (s : t) (yesno : bool) : t :=
  mk (enableDissolvedGas_ s) yesno (referenceDensity_ s) (molarMass_ s).

Definition enableDissolvedGas (s : t) : bool := enableDissolvedGas_ s.

Definition enableVaporizedOil (s : t) : bool := enableVaporizedOil_ s.

(** Lines 116-123 of [initFromDeck]: the loop that stores the reference
    densities of the regions. *)
Fixpoint setDeckDensities (s : t) (densityKeyword : list DensityRecord)
    (regions : list nat) : Result t :=
  match regions with
  | [] => Ok s
  | regionIdx :: rest =>
      densityRecord <- at_ densityKeyword regionIdx ;;
      s' <- setReferenceDensities s (OIL densityRecord) (WATER densityRecord)
              (GAS densityRecord) regionIdx ;;
      setDeckDensities s' densityKeyword rest
  end.

(** Lines 109-123 of [initFromDeck]: what it does to the static data
    before it creates the three PVT objects.  [hasDISGAS] and [hasVAPOIL]
    are the answers of [deck->hasKeyword]. *)
Definition initFromDeckDensities (s : t) (densityKeyword : list DensityRecord)
    (hasDISGAS hasVAPOIL : bool) : Result t :=
  let numRegions := length densityKeyword in
  let s1 := initBegin s numRegions in
  let s2 := setEnableDissolvedGas s1 hasDISGAS in
  let s3 := setEnableVaporizedOil s2 hasVAPOIL in
  setDeckDensities s3 densityKeyword (seq 0 numRegions).

Section WithConstants.

(** [Opm::Constants<Scalar>::R]; opm/material/Constants.hpp is not among
    the sources. *)
Variable R : Scalar.

(** The array [initEnd] leaves for every region: oil, water and gas molar
    mass, the last from the gas reference density [rho_g]. *)
Definition molarMasses (rho_g : Scalar) : array3 :=
  [lit 175 1000; lit 18 1000;
   (R * surfaceTemperature * rho_g / surfacePressure)%Qc].

(** The body of the loop of [initEnd] for one region. *)
Definition initEndRegion (s : t) (regionIdx : nat) : Result t :=
  m1 <- setElem (molarMass_ s) regionIdx waterCompIdx (lit 18 1000) ;;
  let p := surfacePressure in
  let T := surfaceTemperature in
  rho_g <- (row <- at_ (referenceDensity_ s) 0 ;; at_ row gasPhaseIdx) ;;
  m2 <- setElem m1 regionIdx gasCompIdx (R * T * rho_g / p)%Qc ;;
  m3 <- setElem m2 regionIdx oilCompIdx (lit 175 1000) ;;
  Ok (mk (enableDissolvedGas_ s) (enableVaporizedOil_ s)
         (referenceDensity_ s) m3).

Fixpoint initEndRegions (s : t) (regions : list nat) : Result t :=
  match regions with
  | [] => Ok s
  | regionIdx :: rest =>
      s' <- initEndRegion s regionIdx ;; initEndRegions s' rest
  end.

Definition initEnd (s : t) : Result t :=
  let numRegions := length (molarMass_ s) in
  initEndRegions s (seq 0 numRegions).

End WithConstants.

End BlackOil.

(* ------------------------------------------------------------------ *)
(** ** The Newton sequence of the saturation-pressure inversion *)

Module Newton.

Section Sequence.

(** The forward map [p |-> saturatedGasOilMassFraction(region, T, p)], the
    target and the fixed step of the finite difference. *)
Variable F : Scalar -> Scalar.
Variables XgO eps : Scalar.







End Sequence.

End Newton.

(* ------------------------------------------------------------------ *)
(** ** The engine as its callers see it *)

Module Engine.

Import OilPvtMultiplexer.

Section Stored.

Context {RealPvt : Type} `{RealPvtClass RealPvt}.

(** Everything stored after initialisation: the free store with the oil
    multiplexer and its implementation object, the address of the
    multiplexer, and the wet-gas correlation. *)
Record World : Type := mkWorld {
  heap : Heap RealPvt;
  oilPvt : addr;
  gasPvt : WetGasPvt.t
}.

End Stored.

Arguments World RealPvt : clear implicits.

(** The property queries, with their arguments
    [(regionIdx, temperature, pressure[, composition])]. *)
Inductive Query : Type :=
| GasViscosity (r : nat) (T p XgO : Scalar)
| GasDensity (r : nat) (T p XgO : Scalar)
| GasFormationVolumeFactor (r : nat) (T p XgO : Scalar)
| GasFugacityCoefficientGas (r : nat) (T p : Scalar)
| GasFugacityCoefficientOil (r : nat) (T p : Scalar)
| GasOilVaporizationFactor (r : nat) (T p : Scalar)
| GasSaturatedGasOilMassFraction (r : nat) (T p : Scalar)
| GasSaturatedGasOilMoleFraction (r : nat) (T p : Scalar)
| GasSaturationPressure (r : nat) (T XgO : Scalar)
| OilViscosity (r : nat) (T p Rs : Scalar)
| OilSaturatedViscosity (r : nat) (T p : Scalar)
| OilFormationVolumeFactor (r : nat) (T p Rs : Scalar)
| OilSaturatedFormationVolumeFactor (r : nat) (T p : Scalar)
| OilDensity (r : nat) (T p Rs : Scalar)
| OilSaturatedDensity (r : nat) (T p : Scalar)
| OilSaturatedGasDissolutionFactor (r : nat) (T p : Scalar)
| OilSaturationPressure (r : nat) (T Rs : Scalar).

(** *** The methods of the multiplexer as statements

    The bodies of the [const] methods of part_000, lines 129-203, run as
    statements on the stored objects, in the monad in which [initFromDeck]
    and the setters are statements too: a read of a member is a read of
    the state, and an assignment to a member would be a [putM]. *)
Module Oil.

Section Methods.

Context {RealPvt : Type} `{RealPvtClass RealPvt}.

(** [*this] for the multiplexer at [self]. *)
Definition thisObject (self : addr) : M (World RealPvt) OilPvtMultiplexer.t :=
  w <~ getM ;; liftR (this_ (heap w) self).

(** [getRealPvt<approachV>() const] *)
Definition getRealPvt (m : OilPvtMultiplexer.t) (approachV : OilPvtApproach)
  : M (World RealPvt) (addr * RealPvt) :=
  w <~ getM ;; liftR (OilPvtMultiplexer.getRealPvt (heap w) m approachV).

(** [OPM_OIL_PVT_MULTIPLEXER_CALL(return pvtImpl.method(...))] in a
    [const] method: [pvtImpl] is a reference to [const], so that
    [codeToCall] is a [const] method of the implementation class (the
    headers of these classes are not among the sources; see
    [RealPvtClass]). *)
Definition OPM_OIL_PVT_MULTIPLEXER_CALL {A : Type} (self : addr)
    (codeToCall : OilPvtApproach -> RealPvt -> Result A) : M (World RealPvt) A :=
  m <~ thisObject self ;;
  match approach_ m with
  | NoOilPvt => liftR (Throw notImplemented)
  | k => po <~ getRealPvt m k ;; liftR (codeToCall k (snd po))
  end.

Definition viscosity (self : addr) (regionIdx : nat)
    (temperature pressure Rs : Scalar) : M (World RealPvt) Scalar :=
  OPM_OIL_PVT_MULTIPLEXER_CALL self
    (fun k pvtImpl => real_viscosity k pvtImpl regionIdx temperature pressure Rs).

Definition saturatedViscosity (self : addr) (regionIdx : nat)
    (temperature pressure : Scalar) : M (World RealPvt) Scalar :=
  OPM_OIL_PVT_MULTIPLEXER_CALL self
    (fun k pvtImpl => real_saturatedViscosity k pvtImpl regionIdx temperature pressure).

Definition formationVolumeFactor (self : addr) (regionIdx : nat)
    (temperature pressure Rs : Scalar) : M (World RealPvt) Scalar :=
  OPM_OIL_PVT_MULTIPLEXER_CALL self
    (fun k pvtImpl =>
       real_formationVolumeFactor k pvtImpl regionIdx temperature pressure Rs).

Definition saturatedFormationVolumeFactor (self : addr) (regionIdx : nat)
    (temperature pressure : Scalar) : M (World RealPvt) Scalar :=
  OPM_OIL_PVT_MULTIPLEXER_CALL self
    (fun k pvtImpl =>
       real_saturatedFormationVolumeFactor k pvtImpl regionIdx temperature pressure).

Definition density (self : addr) (regionIdx : nat)
    (temperature pressure Rs : Scalar) : M (World RealPvt) Scalar :=
  OPM_OIL_PVT_MULTIPLEXER_CALL self
    (fun k pvtImpl => real_density k pvtImpl regionIdx temperature pressure Rs).

Definition saturatedDensity (self : addr) (regionIdx : nat)
    (temperature pressure : Scalar) : M (World RealPvt) Scalar :=
  OPM_OIL_PVT_MULTIPLEXER_CALL self
    (fun k pvtImpl => real_saturatedDensity k pvtImpl regionIdx temperature pressure).

Definition saturatedGasDissolutionFactor (self : addr) (regionIdx : nat)
    (temperature pressure : Scalar) : M (World RealPvt) Scalar :=
  OPM_OIL_PVT_MULTIPLEXER_CALL self
    (fun k pvtImpl =>
       real_saturatedGasDissolutionFactor k pvtImpl regionIdx temperature pressure).

Definition saturationPressure (self : addr) (regionIdx : nat)
    (temperature Rs : Scalar) : M (World RealPvt) Scalar :=
  OPM_OIL_PVT_MULTIPLEXER_CALL self
    (fun k pvtImpl => real_saturationPressure k pvtImpl regionIdx temperature Rs).

(** Modelled from the spec: the method [WetGasPvt::fugacityCoefficientOil]
    calls through [oilPvt_]; part_000 does not define it.  Section 4.5:
    every property method switches on the stored tag and forwards to the
    owned implementation. *)
Definition fugacityCoefficientOil (self : addr) (regionIdx : nat)
    (temperature pressure : Scalar) : M (World RealPvt) Scalar :=
  OPM_OIL_PVT_MULTIPLEXER_CALL self
    (fun k pvtImpl =>
       real_fugacityCoefficientOil k pvtImpl regionIdx temperature pressure).

End Methods.

End Oil.

(** *** The methods of the wet-gas correlation as statements

    The bodies of the [const] methods of WetGasPvt.hpp, lines 387-564,
    statement by statement. *)
Module Gas.

Import WetGasPvt.

Section Methods.

Context {RealPvt : Type} `{RealPvtClass RealPvt}.
Variable splineEval : Spline -> Scalar -> Scalar.
Variable eval2D : T2.t -> Scalar -> Scalar -> Scalar.

(** [member_[regionIdx]], read from the object the method is called on. *)
Definition elem {A : Type} (member_ : WetGasPvt.t -> list A) (regionIdx : nat)
  : M (World RealPvt) A :=
  w <~ getM ;; liftR (at_ (member_ (gasPvt w)) regionIdx).

Definition oilVaporizationFactor (regionIdx : nat)
    (temperature pressure : Scalar) : M (World RealPvt) Scalar :=
  tab <~ elem oilVaporizationFactorTable_ regionIdx ;;
  liftR (T1.eval tab pressure true).

Definition saturatedGasOilMassFraction (regionIdx : nat)
    (temperature pressure : Scalar) : M (World RealPvt) Scalar :=
  rho_gRef <~ elem gasReferenceDensity_ regionIdx ;;
  rho_oRef <~ elem oilReferenceDensity_ regionIdx ;;
  Rv <~ oilVaporizationFactor regionIdx temperature pressure ;;
  let rho_gO := (Rv * rho_oRef)%Qc in
  retM (rho_gO / (rho_gRef + rho_gO))%Qc.

Definition saturatedGasOilMoleFraction (regionIdx : nat)
    (temperature pressure : Scalar) : M (World RealPvt) Scalar :=
  XgO <~ saturatedGasOilMassFraction regionIdx temperature pressure ;;
  MG <~ elem gasMolarMass_ regionIdx ;;
  MO <~ elem oilMolarMass_ regionIdx ;;
  let avgMolarMass := (MO / (1 + (1 - XgO) * (MO / MG - 1)))%Qc in
  retM (XgO * avgMolarMass / MO)%Qc.

Definition formationVolumeFactor (regionIdx : nat)
    (temperature pressure XgO : Scalar) : M (World RealPvt) Scalar :=
  rhooRef <~ elem oilReferenceDensity_ regionIdx ;;
  rhogRef <~ elem gasReferenceDensity_ regionIdx ;;
  let Rv := (XgO / (1 - XgO) * (rhogRef / rhooRef))%Qc in
  tab <~ elem inverseGasB_ regionIdx ;;
  retM (1 / eval2D tab pressure Rv)%Qc.

Definition viscosity (regionIdx : nat)
    (temperature pressure XgO : Scalar) : M (World RealPvt) Scalar :=
  rhooRef <~ elem oilReferenceDensity_ regionIdx ;;
  rhogRef <~ elem gasReferenceDensity_ regionIdx ;;
  let Rv := (XgO / (1 - XgO) * (rhogRef / rhooRef))%Qc in
  tabB <~ elem inverseGasB_ regionIdx ;;
  let invBg := eval2D tabB pressure Rv in
  tabBMu <~ elem inverseGasBMu_ regionIdx ;;
  let invMugBg := eval2D tabBMu pressure Rv in
  retM (invBg / invMugBg)%Qc.

Definition density (regionIdx : nat)
    (temperature pressure XgO : Scalar) : M (World RealPvt) Scalar :=
  rhooRef <~ elem oilReferenceDensity_ regionIdx ;;
  rhogRef <~ elem gasReferenceDensity_ regionIdx ;;
  Bg <~ formationVolumeFactor regionIdx temperature pressure XgO ;;
  let rhog := (rhogRef / Bg)%Qc in
  let Rv := (XgO / (1 - XgO) * (rhogRef / rhooRef))%Qc in
  retM (rhog + (rhogRef * Rv) / Bg)%Qc.

Definition fugacityCoefficientGas (regionIdx : nat)
    (temperature pressure : Scalar) : M (World RealPvt) Scalar :=
  retM 1%Qc.

(** [oilPvt_->fugacityCoefficientOil(...)]: the member [oilPvt_] is read
    and the companion's method runs on the same stored objects. *)
Definition fugacityCoefficientOil (regionIdx : nat)
    (temperature pressure : Scalar) : M (World RealPvt) Scalar :=
  x_gOSat <~ saturatedGasOilMoleFraction regionIdx temperature pressure ;;
  w <~ getM ;;
  match oilPvt_ (gasPvt w) with
  | None => liftR Undefined
  | Some oilPvt =>
      phi_oO <~ Oil.fugacityCoefficientOil oilPvt regionIdx temperature pressure ;;
      retM (phi_oO / x_gOSat)%Qc
  end.

(** The [for] loop of [gasSaturationPressure] with [iterations] passes
    left; [pSat] is a local variable of the method. *)
Fixpoint newtonLoop (iterations : nat) (regionIdx : nat)
    (temperature XgO eps pSat : Scalar) : M (World RealPvt) Scalar :=
  match iterations with
  | O => liftR (Throw (noSaturationPressure XgO))
  | S iterations' =>
      X0 <~ saturatedGasOilMassFraction regionIdx temperature pSat ;;
      let f := (X0 - XgO)%Qc in
      X1 <~ saturatedGasOilMassFraction regionIdx temperature (pSat + eps)%Qc ;;
      let fPrime := (((X1 - XgO) - f) / eps)%Qc in
      let delta := (f / fPrime)%Qc in
      let pSat' := (pSat - delta)%Qc in
      if Qcltb (Qcabs delta) (Qcabs pSat' * e_minus_10)%Qc
      then retM pSat'
      else newtonLoop iterations' regionIdx temperature XgO eps pSat'
  end.

Definition gasSaturationPressure (regionIdx : nat)
    (temperature XgO : Scalar) : M (World RealPvt) Scalar :=
  spline <~ elem saturationPressureSpline_ regionIdx ;;
  let pSat := splineEval spline XgO in
  let eps := (pSat * e_minus_11)%Qc in
  newtonLoop 20 regionIdx temperature XgO eps pSat.

End Methods.

End Gas.

Section Calls.

Context {RealPvt : Type} `{RealPvtClass RealPvt}.
Variable splineEval : WetGasPvt.Spline -> Scalar -> Scalar.
Variable eval2D : UniformXTabulated2DFunction.t -> Scalar -> Scalar -> Scalar.

(** What a query answers on given stored objects. *)
Definition answer (w : World RealPvt) (q : Query) : Result Scalar :=
  match q with
  | GasViscosity r T p X => WetGasPvt.viscosity eval2D (gasPvt w) r T p X
  | GasDensity r T p X => WetGasPvt.density eval2D (gasPvt w) r T p X
  | GasFormationVolumeFactor r T p X =>
      WetGasPvt.formationVolumeFactor eval2D (gasPvt w) r T p X
  | GasFugacityCoefficientGas r T p =>
      WetGasPvt.fugacityCoefficientGas (gasPvt w) r T p
  | GasFugacityCoefficientOil r T p =>
      WetGasPvt.fugacityCoefficientOil (heap w) (gasPvt w) r T p
  | GasOilVaporizationFactor r T p =>
      WetGasPvt.oilVaporizationFactor (gasPvt w) r T p
  | GasSaturatedGasOilMassFraction r T p =>
      WetGasPvt.saturatedGasOilMassFraction (gasPvt w) r T p
  | GasSaturatedGasOilMoleFraction r T p =>
      WetGasPvt.saturatedGasOilMoleFraction (gasPvt w) r T p
  | GasSaturationPressure r T X =>
      WetGasPvt.gasSaturationPressure splineEval (gasPvt w) r T X
  | OilViscosity r T p Rs => viscosity (heap w) (oilPvt w) r T p Rs
  | OilSaturatedViscosity r T p => saturatedViscosity (heap w) (oilPvt w) r T p
  | OilFormationVolumeFactor r T p Rs =>
      formationVolumeFactor (heap w) (oilPvt w) r T p Rs
  | OilSaturatedFormationVolumeFactor r T p =>
      saturatedFormationVolumeFactor (heap w) (oilPvt w) r T p
  | OilDensity r T p Rs => density (heap w) (oilPvt w) r T p Rs
  | OilSaturatedDensity r T p => saturatedDensity (heap w) (oilPvt w) r T p
  | OilSaturatedGasDissolutionFactor r T p =>
      saturatedGasDissolutionFactor (heap w) (oilPvt w) r T p
  | OilSaturationPressure r T Rs => saturationPressure (heap w) (oilPvt w) r T Rs
  end.

(** A call of a query: the body of the method runs on the stored
    objects; the multiplexer's methods are called on the multiplexer at
    [oilPvt].  The outcome, and the objects as they are when the call has
    returned or thrown. *)
Definition call (q : Query) : M (World RealPvt) Scalar :=
  match q with
  | GasViscosity r T p X => Gas.viscosity eval2D r T p X
  | GasDensity r T p X => Gas.density eval2D r T p X
  | GasFormationVolumeFactor r T p X => Gas.formationVolumeFactor eval2D r T p X
  | GasFugacityCoefficientGas r T p => Gas.fugacityCoefficientGas r T p
  | GasFugacityCoefficientOil r T p => Gas.fugacityCoefficientOil r T p
  | GasOilVaporizationFactor r T p => Gas.oilVaporizationFactor r T p
  | GasSaturatedGasOilMassFraction r T p => Gas.saturatedGasOilMassFraction r T p
  | GasSaturatedGasOilMoleFraction r T p => Gas.saturatedGasOilMoleFraction r T p
  | GasSaturationPressure r T X => Gas.gasSaturationPressure splineEval r T X
  | OilViscosity r T p Rs =>
      w <~ getM ;; Oil.viscosity (oilPvt w) r T p Rs
  | OilSaturatedViscosity r T p =>
      w <~ getM ;; Oil.saturatedViscosity (oilPvt w) r T p
  | OilFormationVolumeFactor r T p Rs =>
      w <~ getM ;; Oil.formationVolumeFactor (oilPvt w) r T p Rs
  | OilSaturatedFormationVolumeFactor r T p =>
      w <~ getM ;; Oil.saturatedFormationVolumeFactor (oilPvt w) r T p
  | OilDensity r T p Rs =>
      w <~ getM ;; Oil.density (oilPvt w) r T p Rs
  | OilSaturatedDensity r T p =>
      w <~ getM ;; Oil.saturatedDensity (oilPvt w) r T p
  | OilSaturatedGasDissolutionFactor r T p =>
      w <~ getM ;; Oil.saturatedGasDissolutionFactor (oilPvt w) r T p
  | OilSaturationPressure r T Rs =>
      w <~ getM ;; Oil.saturationPressure (oilPvt w) r T Rs
  end.

(** A run of queries, one after the other, each on the state the previous
    one left; the outcomes in order. *)
Fixpoint run (qs : list Query) (w : World RealPvt)
  : list (Result Scalar) * World RealPvt :=
  match qs with
  | [] => ([], w)
  | q :: rest =>
      let (r, w1) := call q w in
      let (rs, w2) := run rest w1 in
      (r :: rs, w2)
  end.

End Calls.

End Engine.

(* ------------------------------------------------------------------ *)
(** ** Concrete data used in the examples *)

Module Examples.

Import OilPvtMultiplexer.

(** An implementation family without state whose property methods all
    answer 1; enough to run the multiplexer. *)
#[global] Instance unitPvt : RealPvtClass unit := {
  construct := fun _ => tt;
  real_viscosity := fun _ _ _ _ _ _ => Ok 1%Qc;
  real_saturatedViscosity := fun _ _ _ _ _ => Ok 1%Qc;
  real_formationVolumeFactor := fun _ _ _ _ _ _ => Ok 1%Qc;
  real_saturatedFormationVolumeFactor := fun _ _ _ _ _ => Ok 1%Qc;
  real_density := fun _ _ _ _ _ _ => Ok 1%Qc;
  real_saturatedDensity := fun _ _ _ _ _ => Ok 1%Qc;
  real_saturatedGasDissolutionFactor := fun _ _ _ _ _ => Ok 1%Qc;
  real_saturationPressure := fun _ _ _ _ _ => Ok 1%Qc;
  real_fugacityCoefficientOil := fun _ _ _ _ _ => Ok 1%Qc
}.

(** A curve through the sample points used where a concrete spline is
    needed: the piecewise linear interpolant.  Like every interpolating
    curve it returns the sample's ordinate at a sample's abscissa. *)
Definition linearSpline (pts : WetGasPvt.Spline) (x : Scalar) : Scalar :=
  match Tabulated1DFunction.evalSegments pts x with
  | Ok y => y
  | _ => 0%Qc
  end.

(** A wet gas with [regions] identical regions: reference densities 1, and
    the vaporization factor [Rv(p) = 1 + p] tabulated at [p = 0] and
    [p = 1]; the saturation-pressure splines are fitted by
    [updateSaturationPressureSpline_]. *)
Definition unitRegion (g : WetGasPvt.t) (regionIdx : nat) : Result WetGasPvt.t :=
  g1 <- WetGasPvt.setReferenceDensities g regionIdx 1%Qc 1%Qc 1%Qc ;;
  g2 <- WetGasPvt.setMolarMasses g1 regionIdx (lit 175 1000) (lit 20 1000) (lit 18 1000) ;;
  g3 <- WetGasPvt.setSaturatedGasOilVaporizationFactor g2 regionIdx
          [(0%Qc, 1%Qc); (1%Qc, lit 2 1)] ;;
  WetGasPvt.updateSaturationPressureSpline_ g3 regionIdx.

Definition twoRegions : Result WetGasPvt.t :=
  g <- unitRegion (WetGasPvt.setNumRegions WetGasPvt.fresh 2) 0 ;;
  unitRegion g 1.

Definition wetGas : WetGasPvt.t :=
  match twoRegions with
  | Ok g => g
  | _ => WetGasPvt.fresh
  end.

(** The example wet gas after [initEnd] with the oil multiplexer at
    address 0. *)
Definition finalWetGas : WetGasPvt.t :=
  match WetGasPvt.initEnd wetGas 0 with
  | Ok g => g
  | _ => WetGasPvt.fresh
  end.

(** A black-oil fluid system with two regions whose gas reference densities
    differ (1 and 2 kg/m^3). *)
Definition blackOil2 : BlackOil.t :=
  match
    (s <- BlackOil.setReferenceDensities
            (BlackOil.initBegin (BlackOil.mk false false [] []) 2)
            (lit 800 1) (lit 1000 1) 1%Qc 0 ;;
     BlackOil.setReferenceDensities s (lit 850 1) (lit 1000 1) (lit 2 1) 1)
  with
  | Ok s => s
  | _ => BlackOil.mk false false [] []
  end.

(** A value for the gas constant, 8.314472 J/(mol K). *)
Definition gasConstant : Scalar := lit 8314472 1000000.

(** A free store holding one newly constructed multiplexer, at address 0. *)
Definition oneMultiplexer : Heap unit :=
  snd (OilPvtMultiplexer.constructor []).

(** A PVTG table of three outer rows: row 0 has a single inner sample, row 1
    has two, row 2 (the last) has again a single one. *)
Definition pvtgExample : PvtgTable :=
  [ mkOuter (lit 100 1) 1%Qc [mkRow 1%Qc (lit 2 1) (lit 3 1)];
    mkOuter (lit 200 1) (lit 2 1)
      [mkRow (lit 2 1) (lit 4 1) (lit 6 1); mkRow 1%Qc (lit 5 1) (lit 7 1)];
    mkOuter (lit 300 1) (lit 3 1) [mkRow (lit 3 1) 1%Qc 1%Qc] ].

Definition densityExample : DensityRecord :=
  mkDensity (lit 800 1) 1%Qc (lit 1000 1).

(** A deck with one region. *)
Definition deckExample : Deck := mkDeck [densityExample] [pvtgExample].

(** A new wet-gas object sized for one region. *)
Definition oneRegion : WetGasPvt.t :=
  WetGasPvt.setNumRegions WetGasPvt.fresh 1.

(** Numerator and denominator of a returned scalar. *)
Definition value (res : Result Scalar) : option Q :=
  match res with
  | Ok x => Some (this x)
  | _ => None
  end.

(** Numerators and denominators of a list of samples. *)
Definition values (l : list (Scalar * Scalar)) : list (Q * Q) :=
  map (fun s => (this (fst s), this (snd s))) l.

(** A table evaluation that answers 2 everywhere. *)
Definition constantEval2D (f : UniformXTabulated2DFunction.t) (x y : Scalar)
  : Scalar := lit 2 1.

(** The example wet gas with tables of [1/Bg] and of the viscosity given to
    both regions: two outer positions with two samples each. *)
Definition invBgExample : UniformXTabulated2DFunction.t :=
  [ (0%Qc, [(0%Qc, 1%Qc); (1%Qc, lit 2 1)]);
    (1%Qc, [(0%Qc, lit 3 1); (1%Qc, lit 4 1)]) ].

Definition mugExample : UniformXTabulated2DFunction.t :=
  [ (0%Qc, [(0%Qc, lit 2 1); (1%Qc, lit 4 1)]);
    (1%Qc, [(0%Qc, lit 6 1); (1%Qc, lit 8 1)]) ].

Definition tabulatedGas : WetGasPvt.t :=
  match
    (g1 <- WetGasPvt.setInverseGasFormationVolumeFactor wetGas 0 invBgExample ;;
     g2 <- WetGasPvt.setGasViscosity g1 0 mugExample ;;
     g3 <- WetGasPvt.setInverseGasFormationVolumeFactor g2 1 invBgExample ;;
     WetGasPvt.setGasViscosity g3 1 mugExample)
  with
  | Ok g => g
  | _ => WetGasPvt.fresh
  end.

(** A PVTG table whose last outer row has two inner samples (row 0 has a
    single one), and one in which every outer row has two. *)
Definition pvtgFilled : PvtgTable :=
  [ mkOuter (lit 100 1) 1%Qc [mkRow 1%Qc (lit 2 1) (lit 3 1)];
    mkOuter (lit 200 1) (lit 2 1)
      [mkRow (lit 2 1) (lit 4 1) (lit 6 1); mkRow 1%Qc (lit 5 1) (lit 7 1)] ].

Definition pvtgFull : PvtgTable :=
  [ mkOuter (lit 100 1) 1%Qc
      [mkRow 1%Qc (lit 2 1) (lit 3 1); mkRow 0%Qc (lit 3 1) (lit 4 1)];
    mkOuter (lit 200 1) (lit 2 1)
      [mkRow (lit 2 1) (lit 4 1) (lit 6 1); mkRow 1%Qc (lit 5 1) (lit 7 1)] ].

Definition deckFilled : Deck := mkDeck [densityExample] [pvtgFilled].

Definition deckFull : Deck := mkDeck [densityExample] [pvtgFull].

(** A deck for the oil multiplexer, as the list of its keywords. *)
Definition hasKeyword (deck : list string) (keyword : string) : bool :=
  existsb (String.eqb keyword) deck.

(** The initialisation methods of the stateless implementation family. *)
Definition unitInitFromDeck (k : OilPvtApproach) (deck : list string) (o : unit)
  : Result unit * unit := (Ok tt, o).

Definition unitInitEnd (k : OilPvtApproach) (o : unit) : Result unit * unit :=
  (Ok tt, o).

(** A deck with the keywords PVDO and PVTO. *)
Definition keywordDeck : list string := ["PVTO"%string; "PVDO"%string].

(** The example wet gas with tables after [initEnd] with the oil
    multiplexer at address 0. *)
Definition finalTabulatedGas : WetGasPvt.t :=
  match WetGasPvt.initEnd tabulatedGas 0 with
  | Ok g => g
  | _ => WetGasPvt.fresh
  end.

(** The one-region object after the loop body of [initFromDeck] has filled
    its region from the deck whose rows are all complete. *)
Definition filledRegion : WetGasPvt.t :=
  snd (WetGasPvt.initRegionFromDeck gasConstant deckFull 0 oneRegion).

(** DENSITY records for two regions, with the gas densities 1 and 2. *)
Definition densityRecords : list DensityRecord :=
  [ mkDensity (lit 800 1) 1%Qc (lit 1000 1);
    mkDensity (lit 850 1) (lit 2 1) (lit 1000 1) ].

(** The static data of the fluid system before its first initialisation. *)
Definition blackOilStart : BlackOil.t := BlackOil.mk false false [] [].

End Examples.

(* ------------------------------------------------------------------ *)
(** ** Conditions on the stored state *)

Module Conditions.

(** [BlackOil]: both static vectors were sized by [resizeArrays_], and
    their elements are arrays of three scalars. *)
Definition blackOilSized (s : BlackOil.t) : Prop :=
  length (BlackOil.referenceDensity_ s) = length (BlackOil.molarMass_ s)
  /\ Forall (fun a => length a = 3) (BlackOil.referenceDensity_ s)
  /\ Forall (fun a => length a = 3) (BlackOil.molarMass_ s).

(** [WetGasPvt]: the number of regions as [initEnd] reads it, and the
    vectors all sized to it by [setNumRegions]. *)
Definition numRegions (g : WetGasPvt.t) : nat := length (WetGasPvt.gasMu_ g).

Definition wetGasSized (g : WetGasPvt.t) : Prop :=
  length (WetGasPvt.gasMolarMass_ g) = numRegions g
  /\ length (WetGasPvt.oilMolarMass_ g) = numRegions g
  /\ length (WetGasPvt.gasReferenceDensity_ g) = numRegions g
  /\ length (WetGasPvt.oilReferenceDensity_ g) = numRegions g
  /\ length (WetGasPvt.oilVaporizationFactorTable_ g) = numRegions g
  /\ length (WetGasPvt.saturationPressureSpline_ g) = numRegions g.

(** The saturated vaporization factor of region [r] has been supplied (a
    table needs two samples for a segment). *)
Definition tabulated (g : WetGasPvt.t) (r : nat) : Prop :=
  exists tab, nth_error (WetGasPvt.oilVaporizationFactorTable_ g) r = Some tab
              /\ 2 <= length tab.



(** The forward map of region [r] as a function of pressure alone (the
    temperature plays no part in it). *)
Definition massFractionAt (g : WetGasPvt.t) (r : nat) (p : Scalar) : Scalar :=
  match WetGasPvt.saturatedGasOilMassFraction g r 0%Qc p with
  | Ok X => X
  | _ => 0%Qc
  end.

(** The seed of the Newton iteration. *)
Definition seed (splineEval : WetGasPvt.Spline -> Scalar -> Scalar)
    (g : WetGasPvt.t) (r : nat) (XgO : Scalar) : Scalar :=
  splineEval (nth r (WetGasPvt.saturationPressureSpline_ g) []) XgO.


Section Wording.

Import OilPvtMultiplexer.

Variable splineEval : WetGasPvt.Spline -> Scalar -> Scalar.



(** Section 7 as worded: the exception of a failed inversion carries the
    region, that is, the region can be read off the exception. *)
Definition carriesRegion : Prop :=
  exists regionOf : Exception -> nat,
    forall g r T XgO e,
      WetGasPvt.gasSaturationPressure splineEval g r T XgO = Throw e ->
      regionOf e = r.

End Wording.

(** Section 4.5 as worded: after a successful [setApproach], a further
    [setApproach] with a different tag is rejected, or it leaves the
    multiplexer with the tag and the implementation it had. *)
Definition singleSelection (RealPvt : Type)
    `{OilPvtMultiplexer.RealPvtClass RealPvt} : Prop :=
  forall (h h1 h2 : OilPvtMultiplexer.Heap RealPvt) (self : OilPvtMultiplexer.addr)
         (a1 a2 : OilPvtMultiplexer.OilPvtApproach) (r2 : Result unit),
    OilPvtMultiplexer.setApproach h self a1 = (Ok tt, h1) ->
    a2 <> a1 ->
    OilPvtMultiplexer.setApproach h1 self a2 = (r2, h2) ->
    r2 <> Ok tt
    \/ OilPvtMultiplexer.this_ h2 self = OilPvtMultiplexer.this_ h1 self.

Arguments singleSelection RealPvt {_}.

(** *** Gap-fill of the PVTG tables *)

(** The samples of an outer row as the deck gives them, in the form the two
    tables store them. *)
Definition deckInvGasB (row : PvtgOuterRow) : list (Scalar * Scalar) :=
  map (fun r => (OilSolubility r, (1 / GasFormationFactor r)%Qc))
      (InnerTable row).

Definition deckGasMu (row : PvtgOuterRow) : list (Scalar * Scalar) :=
  map (fun r => (OilSolubility r, GasViscosity r)) (InnerTable row).

(** The point synthesized for a row with first sample [c0] from the master
    row's first sample [m0] and its further sample [mNew]. *)
Definition pointInvGasB (c0 m0 mNew : PvtgRow) : Scalar * Scalar :=
  ((OilSolubility c0 * (OilSolubility mNew / OilSolubility m0))%Qc,
   (1 / (GasFormationFactor c0
         * (GasFormationFactor mNew / GasFormationFactor m0)))%Qc).

Definition pointGasMu (c0 m0 mNew : PvtgRow) : Scalar * Scalar :=
  ((OilSolubility c0 * (OilSolubility mNew / OilSolubility m0))%Qc,
   (GasViscosity c0 * (GasViscosity mNew / GasViscosity m0))%Qc).

(** All points synthesized for the row [cur] from the row [master]: one for
    each sample of [master] beyond its first. *)
Definition extension (point : PvtgRow -> PvtgRow -> PvtgRow -> Scalar * Scalar)
    (cur master : list PvtgRow) : list (Scalar * Scalar) :=
  match cur, master with
  | c0 :: _, m0 :: further => map (point c0 m0) further
  | _, _ => []
  end.

(** Number of inner samples of outer row [j] (0 beyond the table). *)
Definition innerLength (tbl : PvtgTable) (j : nat) : nat :=
  match nth_error tbl j with
  | Some row => length (InnerTable row)
  | None => 0
  end.

(** Section 4.2: [m] is the first outer position after [x] that has two or
    more inner samples. *)
Definition isMasterOf (tbl : PvtgTable) (x m : nat) : Prop :=
  x < m /\ m < length tbl /\ 2 <= innerLength tbl m
  /\ forall j, x < j -> j < m -> innerLength tbl j < 2.

(** No outer position after [x] has two or more inner samples. *)
Definition noMasterFor (tbl : PvtgTable) (x : nat) : Prop :=
  forall j, x < j -> j < length tbl -> innerLength tbl j < 2.

(** The samples of outer row [x] once the gap-fill loop is through, by the
    master the scan of the source finds. *)
Definition filledRow (deckRow : PvtgOuterRow -> list (Scalar * Scalar))
    (point : PvtgRow -> PvtgRow -> PvtgRow -> Scalar * Scalar)
    (tbl : PvtgTable) (x : nat) : list (Scalar * Scalar) :=
  match nth_error tbl x with
  | None => []
  | Some row =>
      if 1 <? length (InnerTable row) then deckRow row
      else
        match nth_error tbl (WetGasPvt.findMasterTable tbl x) with
        | Some mrow =>
            deckRow row ++ extension point (InnerTable row) (InnerTable mrow)
        | None => deckRow row
        end
  end.

(** The rows from [k] on are as the extraction left them. *)
Definition untouchedFrom (tbl : PvtgTable) (k : nat) (s : WetGasPvt.Tables) : Prop :=
  forall j row,
    k <= j -> nth_error tbl j = Some row ->
    nth_error (WetGasPvt.invGasB s) j = Some (Pressure row, deckInvGasB row)
    /\ nth_error (WetGasPvt.gasMu s) j = Some (Pressure row, deckGasMu row).

(** The rows from [k] on are as the gap-fill loop leaves them. *)
Definition filledFrom (tbl : PvtgTable) (k : nat) (s : WetGasPvt.Tables) : Prop :=
  forall j row,
    k <= j -> nth_error tbl j = Some row ->
    nth_error (WetGasPvt.invGasB s) j
    = Some (Pressure row,
            filledRow deckInvGasB pointInvGasB tbl j)
    /\ nth_error (WetGasPvt.gasMu s) j
       = Some (Pressure row,
               filledRow deckGasMu pointGasMu tbl j).

Definition sameRowsBelow (k : nat) (s s' : WetGasPvt.Tables) : Prop :=
  forall j, j < k ->
    nth_error (WetGasPvt.invGasB s') j = nth_error (WetGasPvt.invGasB s) j
    /\ nth_error (WetGasPvt.gasMu s') j = nth_error (WetGasPvt.gasMu s) j.

(** Row [x] is deficient and the scan finds no master for it. *)
Definition stuck (tbl : PvtgTable) (x : nat) : Prop :=
  innerLength tbl x < 2 /\ length tbl <= WetGasPvt.findMasterTable tbl x.

(** The object is ready for [initFromDeck] to fill region [r]: the vectors
    reach beyond [r], and the two tables of the region are still empty. *)
Definition awaitsRegion (g : WetGasPvt.t) (r : nat) : Prop :=
  r < length (WetGasPvt.gasMolarMass_ g)
  /\ r < length (WetGasPvt.oilMolarMass_ g)
  /\ r < length (WetGasPvt.gasReferenceDensity_ g)
  /\ r < length (WetGasPvt.oilReferenceDensity_ g)
  /\ r < length (WetGasPvt.oilVaporizationFactorTable_ g)
  /\ nth_error (WetGasPvt.inverseGasB_ g) r = Some []
  /\ nth_error (WetGasPvt.gasMu_ g) r = Some [].

(** The last outer row of the table has two or more inner samples. *)
Definition lastRowComplete (tbl : PvtgTable) : bool :=
  1 <? innerLength tbl (length tbl - 1).

(** What the assertions of lines 70, 95 and 130 of [initFromDeck] ask of
    the deck: one PVTG table per DENSITY record, two or more outer rows in
    every table, and no outer row without an inner sample. *)
Definition validDeck (deck : Deck) : Prop :=
  length (pvtgTables deck) = length (densityKeyword deck)
  /\ forall tbl, In tbl (pvtgTables deck) ->
       2 <= length tbl /\ forall row, In row tbl -> InnerTable row <> [].

(** The two objects agree on everything that belongs to a region other
    than [r], and their vectors have the same sizes. *)
Definition sameOutside (r : nat) (g g' : WetGasPvt.t) : Prop :=
  WetGasPvt.oilPvt_ g' = WetGasPvt.oilPvt_ g
  /\ WetGasPvt.inverseGasBMu_ g' = WetGasPvt.inverseGasBMu_ g
  /\ WetGasPvt.saturationPressureSpline_ g' = WetGasPvt.saturationPressureSpline_ g
  /\ (length (WetGasPvt.gasMolarMass_ g') = length (WetGasPvt.gasMolarMass_ g)
      /\ length (WetGasPvt.oilMolarMass_ g') = length (WetGasPvt.oilMolarMass_ g)
      /\ length (WetGasPvt.gasReferenceDensity_ g')
         = length (WetGasPvt.gasReferenceDensity_ g)
      /\ length (WetGasPvt.oilReferenceDensity_ g')
         = length (WetGasPvt.oilReferenceDensity_ g)
      /\ length (WetGasPvt.inverseGasB_ g') = length (WetGasPvt.inverseGasB_ g)
      /\ length (WetGasPvt.gasMu_ g') = length (WetGasPvt.gasMu_ g)
      /\ length (WetGasPvt.oilVaporizationFactorTable_ g')
         = length (WetGasPvt.oilVaporizationFactorTable_ g))
  /\ forall r', r' <> r ->
       nth_error (WetGasPvt.gasMolarMass_ g') r'
       = nth_error (WetGasPvt.gasMolarMass_ g) r'
       /\ nth_error (WetGasPvt.oilMolarMass_ g') r'
          = nth_error (WetGasPvt.oilMolarMass_ g) r'
       /\ nth_error (WetGasPvt.gasReferenceDensity_ g') r'
          = nth_error (WetGasPvt.gasReferenceDensity_ g) r'
       /\ nth_error (WetGasPvt.oilReferenceDensity_ g') r'
          = nth_error (WetGasPvt.oilReferenceDensity_ g) r'
       /\ nth_error (WetGasPvt.inverseGasB_ g') r'
          = nth_error (WetGasPvt.inverseGasB_ g) r'
       /\ nth_error (WetGasPvt.gasMu_ g') r' = nth_error (WetGasPvt.gasMu_ g) r'
       /\ nth_error (WetGasPvt.oilVaporizationFactorTable_ g') r'
          = nth_error (WetGasPvt.oilVaporizationFactorTable_ g) r'.

(** *** initEnd of the wet gas *)

(** The column of [1/(Bg*mug)] from a column of the viscosity table and the
    column of [1/Bg] at the same outer position: the positions of the
    first, the values [invGasB * 1 / gasMu]. *)
Definition productColumn (mu b : list (Scalar * Scalar)) : list (Scalar * Scalar) :=
  map (fun mb => (fst (fst mb), (snd (snd mb) * 1 / snd (fst mb))%Qc))
      (combine mu b).

Definition productTable (gasMu invGasB : UniformXTabulated2DFunction.t)
  : UniformXTabulated2DFunction.t :=
  map (fun cols =>
         (fst (fst cols), productColumn (snd (fst cols)) (snd (snd cols))))
      (combine gasMu invGasB).

(** The two tables have the same number of outer positions and, at each,
    the same number of samples (the assertions of lines 363 and 370). *)
Definition sameShape (gasMu invGasB : UniformXTabulated2DFunction.t) : Prop :=
  Forall2 (fun c d => length (snd c) = length (snd d)) gasMu invGasB.

(** The object is ready for [initEnd]: every vector is sized to the number
    of regions, every region has its vaporization factor tabulated, its two
    tables of the same shape, and its table of [1/(Bg*mug)] still empty. *)
Definition finalizable (g : WetGasPvt.t) : Prop :=
  wetGasSized g
  /\ length (WetGasPvt.inverseGasB_ g) = numRegions g
  /\ length (WetGasPvt.inverseGasBMu_ g) = numRegions g
  /\ forall r, r < numRegions g ->
       tabulated g r
       /\ nth_error (WetGasPvt.inverseGasBMu_ g) r = Some []
       /\ sameShape (nth r (WetGasPvt.gasMu_ g) [])
                    (nth r (WetGasPvt.inverseGasB_ g) []).

(** The object while the loop of [initEnd] runs, started on [g0]: the
    regions below [k] hold their table of [1/(Bg*mug)], the others are
    still empty, and nothing else but the splines has changed. *)
Definition finalizedBelow (g0 g : WetGasPvt.t) (k : nat) : Prop :=
  WetGasPvt.gasMolarMass_ g = WetGasPvt.gasMolarMass_ g0
  /\ WetGasPvt.oilMolarMass_ g = WetGasPvt.oilMolarMass_ g0
  /\ WetGasPvt.gasReferenceDensity_ g = WetGasPvt.gasReferenceDensity_ g0
  /\ WetGasPvt.oilReferenceDensity_ g = WetGasPvt.oilReferenceDensity_ g0
  /\ WetGasPvt.oilVaporizationFactorTable_ g
     = WetGasPvt.oilVaporizationFactorTable_ g0
  /\ WetGasPvt.gasMu_ g = WetGasPvt.gasMu_ g0
  /\ WetGasPvt.inverseGasB_ g = WetGasPvt.inverseGasB_ g0
  /\ WetGasPvt.oilPvt_ g = WetGasPvt.oilPvt_ g0
  /\ length (WetGasPvt.saturationPressureSpline_ g)
     = length (WetGasPvt.saturationPressureSpline_ g0)
  /\ length (WetGasPvt.inverseGasBMu_ g) = length (WetGasPvt.inverseGasBMu_ g0)
  /\ forall r, r < numRegions g0 ->
       nth_error (WetGasPvt.inverseGasBMu_ g) r
       = if r <? k
         then Some (productTable (nth r (WetGasPvt.gasMu_ g0) [])
                                 (nth r (WetGasPvt.inverseGasB_ g0) []))
         else Some [].

(** The sample points of the saturation-pressure spline: [count] pressures
    from [lo] in steps of [delta], each with its saturated mass fraction. *)
Definition splineNodes (g : WetGasPvt.t) (r : nat) (lo delta : Scalar)
    (count : nat) : SamplingPoints :=
  map (fun i => (massFractionAt g r (lo + ofNat i * delta)%Qc,
                 (lo + ofNat i * delta)%Qc))
      (seq 0 count).

(** The samples [setSaturatedGasViscosity] stores at every outer position:
    [nP] pressures from [poMin] towards [poMax], each with the value of the
    spline fitted to [samplePoints]. *)
Definition viscosityColumn (splineEval : WetGasPvt.Spline -> Scalar -> Scalar)
    (samplePoints : SamplingPoints) (poMin poMax : Scalar) (nP : nat)
  : list (Scalar * Scalar) :=
  map (fun pIdx =>
         let pg := (poMin + (poMax - poMin) * ofNat pIdx / ofNat nP)%Qc in
         (pg, splineEval samplePoints pg))
      (seq 0 nP).

(** A statement on the two tables of a region leaves their numbers of
    outer positions as they are. *)
Definition keepsLengths {A : Type} (m : M WetGasPvt.Tables A) : Prop :=
  forall s res s',
    m s = (res, s') ->
    length (WetGasPvt.invGasB s') = length (WetGasPvt.invGasB s)
    /\ length (WetGasPvt.gasMu s') = length (WetGasPvt.gasMu s).

(** The object while the loop of [initFromDeck] over the regions runs: the
    regions below [k] are filled and fit for [initEnd], the others still
    await their turn. *)
Definition deckFilledBelow (deck : Deck) (k : nat) (g : WetGasPvt.t) : Prop :=
  wetGasSized g
  /\ numRegions g = length (pvtgTables deck)
  /\ length (WetGasPvt.inverseGasB_ g) = length (pvtgTables deck)
  /\ length (WetGasPvt.inverseGasBMu_ g) = length (pvtgTables deck)
  /\ (forall r, r < length (pvtgTables deck) ->
        nth_error (WetGasPvt.inverseGasBMu_ g) r = Some [])
  /\ (forall r, r < k ->
        tabulated g r
        /\ sameShape (nth r (WetGasPvt.gasMu_ g) [])
                     (nth r (WetGasPvt.inverseGasB_ g) []))
  /\ (forall r, k <= r -> r < length (pvtgTables deck) ->
        nth_error (WetGasPvt.inverseGasB_ g) r = Some []
        /\ nth_error (WetGasPvt.gasMu_ g) r = Some []).

(** *** The oil multiplexer and the deck *)

Section Selection.

Import OilPvtMultiplexer.

Context {RealPvt : Type} `{RealPvtClass RealPvt}.

(** The store after a successful [setApproach(appr)] on the multiplexer at
    [self]: a new implementation at the end of the store, and the
    multiplexer pointing to it. *)
Definition selected (h : Heap RealPvt) (self : addr) (appr : OilPvtApproach)
  : Heap RealPvt :=
  store (h ++ [Some (ObjRealPvt appr (construct appr))]) self
        (Some (ObjMultiplexer (mk appr (Some (length h))))).

Variable DeckT : Type.
Variable hasKeyword : DeckT -> string -> bool.
Variable real_initFromDeck :
  OilPvtApproach -> DeckT -> RealPvt -> Result unit * RealPvt.

(** The approach the keywords of the deck ask for. *)
Definition deckApproach (deck : DeckT) : OilPvtApproach :=
  if hasKeyword deck "PVCDO" then ConstantCompressibilityOilPvt
  else if hasKeyword deck "PVDO" then DeadOilPvt
  else if hasKeyword deck "PVTO" then LiveOilPvt
  else NoOilPvt.

(** The store after [initFromDeck] on a multiplexer newly constructed at
    the end of [h], for a deck that asks for the approach [k]. *)
Definition initialised (h : Heap RealPvt) (deck : DeckT) (k : OilPvtApproach)
  : Heap RealPvt :=
  let self := fst (constructor h) in
  let h1 := snd (constructor h) in
  store (selected h1 self k) (length h1)
        (Some (ObjRealPvt k (snd (real_initFromDeck k deck (construct k))))).

End Selection.

End Conditions.

(* ================================================================== *)
(** * Properties *)

Unset Implicit Arguments.

(** ** Basic facts *)



(** Two canonical rationals with the same numerator and denominator are
    equal; an outcome can be compared by value. *)
Lemma Ok_by_value (res : Result Scalar) (x : Scalar) :
  match res with
  | Ok a => this a = this x
  | _ => False
  end ->
  res = Ok x.
Proof.
  destruct res as [a | e |]; intro E; try contradiction.
  f_equal. apply Qc_is_canon. rewrite E. reflexivity.
Qed.

Lemma at_lt {A : Type} (v : list A) (i : nat) :
  i < length v -> exists a, at_ v i = Ok a.
Proof.
  intro Hlt. unfold at_. destruct (nth_error v i) eqn:E.
  - eauto.
  - apply nth_error_None in E. lia.
Qed.

Lemma at_Ok {A : Type} (v : list A) (i : nat) (a : A) :
  at_ v i = Ok a <-> nth_error v i = Some a.
Proof.
  unfold at_. destruct (nth_error v i); split; intro E;
    try discriminate; congruence.
Qed.

Lemma at_not_Throw {A : Type} (v : list A) (i : nat) (e : Exception) :
  at_ v i <> Throw e.
Proof. unfold at_. destruct (nth_error v i); discriminate. Qed.

Lemma bind_Ok_inv {A B : Type} (r : Result A) (k : A -> Result B) (b : B) :
  bind r k = Ok b -> exists a, r = Ok a /\ k a = Ok b.
Proof. destruct r; simpl; intro E; try discriminate. eauto. Qed.

Lemma bind_Throw_inv {A B : Type} (r : Result A) (k : A -> Result B)
    (e : Exception) :
  bind r k = Throw e -> r = Throw e \/ exists a, r = Ok a /\ k a = Throw e.
Proof.
  destruct r; simpl; intro E; try discriminate.
  - right. eauto.
  - left. injection E as ->. reflexivity.
Qed.

Lemma setAt_length {A : Type} (v : list A) (i : nat) (a : A) (v' : list A) :
  setAt v i a = Ok v' -> length v' = length v.
Proof.
  revert i v'. induction v as [| x rest IH]; intros [| i] v' E; simpl in E;
    try discriminate.
  - injection E as <-. reflexivity.
  - apply bind_Ok_inv in E. destruct E as [r' [E1 E2]].
    injection E2 as <-. simpl. f_equal. eapply IH. eassumption.
Qed.

Lemma setAt_lt {A : Type} (v : list A) (i : nat) (a : A) :
  i < length v -> exists v', setAt v i a = Ok v'.
Proof.
  revert i. induction v as [| x rest IH]; intros [| i] Hlt; simpl in *;
    try lia.
  - eauto.
  - destruct (IH i) as [r' E]; [lia |]. rewrite E. simpl. eauto.
Qed.

Lemma setAt_same {A : Type} (v : list A) (i : nat) (a : A) (v' : list A) :
  setAt v i a = Ok v' -> nth_error v' i = Some a.
Proof.
  revert i v'. induction v as [| x rest IH]; intros [| i] v' E; simpl in E;
    try discriminate.
  - injection E as <-. reflexivity.
  - apply bind_Ok_inv in E. destruct E as [r' [E1 E2]].
    injection E2 as <-. simpl. eapply IH. eassumption.
Qed.

Lemma setAt_other {A : Type} (v : list A) (i j : nat) (a : A) (v' : list A) :
  setAt v i a = Ok v' -> j <> i -> nth_error v' j = nth_error v j.
Proof.
  revert i j v'. induction v as [| x rest IH]; intros [| i] [| j] v' E Hne;
    simpl in E; try discriminate; try congruence.
  - injection E as <-. reflexivity.
  - apply bind_Ok_inv in E. destruct E as [r' [E1 E2]].
    injection E2 as <-. reflexivity.
  - apply bind_Ok_inv in E. destruct E as [r' [E1 E2]].
    injection E2 as <-. simpl. eapply IH; [eassumption | lia].
Qed.

(* ------------------------------------------------------------------ *)
(** ** fugacityCoefficientWater *)

(** C6.  [WetGasPvt::fugacityCoefficientWater(region, T, p)] does not return
    a value for any region, temperature and pressure: its body is
    [1e8 * fugacityCoefficientWater(region, T, p)], so whatever nesting of
    calls is allowed, the evaluation never reaches a [return]. *)
Theorem fugacityCoefficientWater_never_returns :
  forall (depth : nat) (g : WetGasPvt.t) (regionIdx : nat)
         (temperature pressure : Scalar),
    WetGasPvt.fugacityCoefficientWater depth g regionIdx temperature pressure
    = None.
Proof.
  induction depth as [| depth IH]; intros g r T p; simpl.
  - reflexivity.
  - rewrite IH. reflexivity.
Qed.

(* ------------------------------------------------------------------ *)
(** ** BlackOil::initEnd *)

Section BlackOilInitEnd.

Import BlackOil.

Variable R : Scalar.

Lemma setElem_spec (v : list array3) (i j : nat) (x : Scalar)
    (row row' : array3) :
  nth_error v i = Some row -> setAt row j x = Ok row' ->
  exists v', setElem v i j x = Ok v'
             /\ nth_error v' i = Some row'
             /\ (forall k, k <> i -> nth_error v' k = nth_error v k)
             /\ length v' = length v.
Proof.
  intros Hrow Hset. unfold setElem.
  apply at_Ok in Hrow. rewrite Hrow. simpl. rewrite Hset. simpl.
  apply at_Ok in Hrow.
  destruct (setAt_lt v i row') as [v' Hv'].
  { apply nth_error_Some. congruence. }
  exists v'. split; [assumption |]. split; [| split].
  - eapply setAt_same. eassumption.
  - intros k Hk. eapply setAt_other; eassumption.
  - eapply setAt_length. eassumption.
Qed.

Lemma Forall_replaced (P : array3 -> Prop) (v v' : list array3) (i : nat)
    (row' : array3) :
  Forall P v -> length v' = length v -> nth_error v' i = Some row' -> P row' ->
  (forall k, k <> i -> nth_error v' k = nth_error v k) ->
  Forall P v'.
Proof.
  intros Hall Hlen Hi Hrow' Hother. apply Forall_forall. intros a Hin.
  apply In_nth_error in Hin. destruct Hin as [k Hk].
  destruct (Nat.eq_dec k i) as [-> | Hne].
  - congruence.
  - rewrite (Hother k Hne) in Hk. rewrite Forall_forall in Hall.
    apply Hall. eapply nth_error_In. eassumption.
Qed.

Lemma initEndRegion_spec (s : t) (regionIdx : nat) (rho_g : Scalar) :
  Conditions.blackOilSized s ->
  regionIdx < length (molarMass_ s) ->
  referenceDensity s gasPhaseIdx 0 = Ok rho_g ->
  exists s', initEndRegion R s regionIdx = Ok s'
             /\ referenceDensity_ s' = referenceDensity_ s
             /\ length (molarMass_ s') = length (molarMass_ s)
             /\ Forall (fun a => length a = 3) (molarMass_ s')
             /\ nth_error (molarMass_ s') regionIdx = Some (molarMasses R rho_g)
             /\ (forall k, k <> regionIdx ->
                   nth_error (molarMass_ s') k = nth_error (molarMass_ s) k).
Proof.
  intros [Hlen [Hdens Hmass]] Hlt Hrho.
  destruct (nth_error (molarMass_ s) regionIdx) as [row |] eqn:Hrow;
    [| apply nth_error_None in Hrow; lia].
  assert (Hrow3 : length row = 3).
  { rewrite Forall_forall in Hmass. apply Hmass.
    eapply nth_error_In. eassumption. }
  destruct row as [| o [| w [| gm [| ? ?]]]]; simpl in Hrow3; try lia.
  unfold initEndRegion.
  destruct (setElem_spec (molarMass_ s) regionIdx waterCompIdx (lit 18 1000)
              _ [o; lit 18 1000; gm] Hrow eq_refl)
    as [m1 [E1 [R1 [O1 L1]]]].
  rewrite E1. simpl. unfold referenceDensity in Hrho. rewrite Hrho. simpl.
  destruct (setElem_spec m1 regionIdx gasCompIdx
              (R * surfaceTemperature * rho_g / surfacePressure)%Qc _
              [o; lit 18 1000;
               (R * surfaceTemperature * rho_g / surfacePressure)%Qc]
              R1 eq_refl)
    as [m2 [E2 [R2 [O2 L2]]]].
  rewrite E2. simpl.
  destruct (setElem_spec m2 regionIdx oilCompIdx (lit 175 1000) _
              (molarMasses R rho_g) R2 eq_refl)
    as [m3 [E3 [R3 [O3 L3]]]].
  rewrite E3. simpl. eexists. split; [reflexivity |]. simpl.
  assert (Hother : forall k, k <> regionIdx ->
                             nth_error m3 k = nth_error (molarMass_ s) k).
  { intros k Hk. rewrite O3, O2, O1 by assumption. reflexivity. }
  repeat split; try assumption; try congruence.
  eapply Forall_replaced with (v := molarMass_ s) (i := regionIdx);
    try eassumption; try congruence.
Qed.

Lemma initEndRegions_spec (regions : list nat) :
  forall (s : t) (rho_g : Scalar),
    Conditions.blackOilSized s ->
    (forall r, In r regions -> r < length (molarMass_ s)) ->
    referenceDensity s gasPhaseIdx 0 = Ok rho_g ->
    exists s', initEndRegions R s regions = Ok s'
               /\ referenceDensity_ s' = referenceDensity_ s
               /\ length (molarMass_ s') = length (molarMass_ s)
               /\ (forall r, In r regions ->
                     nth_error (molarMass_ s') r = Some (molarMasses R rho_g))
               /\ (forall r, ~ In r regions ->
                     nth_error (molarMass_ s') r = nth_error (molarMass_ s) r).
Proof.
  induction regions as [| r0 rest IH]; intros s rho_g Hs Hin Hrho; simpl.
  - exists s. repeat split; try reflexivity. intros r [].
  - destruct (initEndRegion_spec s r0 rho_g Hs)
      as [s1 [E1 [D1 [L1 [F1 [R1 O1]]]]]];
      [apply Hin; left; reflexivity | assumption |].
    rewrite E1. simpl.
    assert (Hs1 : Conditions.blackOilSized s1).
    { destruct Hs as [Hlen [Hdens _]]. unfold Conditions.blackOilSized.
      rewrite D1, L1. auto. }
    destruct (IH s1 rho_g Hs1) as [s' [E' [D' [L' [P' U']]]]].
    { intros r Hr. rewrite L1. apply Hin. right. assumption. }
    { unfold referenceDensity in *. rewrite D1. assumption. }
    exists s'. split; [assumption |]. split; [congruence |].
    split; [congruence |]. split.
    + intros r [<- | Hr].
      * destruct (in_dec Nat.eq_dec r0 rest) as [Hi | Hni].
        -- apply P'. assumption.
        -- rewrite (U' r0 Hni). assumption.
      * apply P'. assumption.
    + intros r Hr. rewrite U' by (intro; apply Hr; right; assumption).
      apply O1. intro; subst. apply Hr. left. reflexivity.
Qed.

(** C10.  After [BlackOil::initEnd()] the gas component's molar mass is the
    same in every region: it is [R*T*rho_g/p] at surface conditions with
    [rho_g] the gas reference density of region 0, whatever gas reference
    densities the other regions were given; water and oil have 18e-3 and
    175e-3 kg/mol in every region. *)
Theorem initEnd_molarMass_from_region_0 :
  forall (s : t),
    Conditions.blackOilSized s ->
    exists s', initEnd R s = Ok s'
      /\ referenceDensity_ s' = referenceDensity_ s
      /\ forall regionIdx, regionIdx < length (molarMass_ s) ->
           exists rho_g0,
             referenceDensity s gasPhaseIdx 0 = Ok rho_g0
             /\ molarMass s' gasCompIdx regionIdx
                = Ok (R * surfaceTemperature * rho_g0 / surfacePressure)%Qc
             /\ molarMass s' waterCompIdx regionIdx = Ok (lit 18 1000)
             /\ molarMass s' oilCompIdx regionIdx = Ok (lit 175 1000).
Proof.
  intros s Hs. unfold initEnd.
  destruct (molarMass_ s) as [| row0 rows] eqn:Hm.
  - simpl. exists s. repeat split; try reflexivity. intros r Hr. simpl in Hr. lia.
  - assert (Hrho : exists rho_g0, referenceDensity s gasPhaseIdx 0 = Ok rho_g0).
    { destruct Hs as [Hlen [Hdens _]]. rewrite Hm in Hlen.
      destruct (referenceDensity_ s) as [| d0 ds] eqn:Hd; [discriminate |].
      unfold referenceDensity. rewrite Hd. simpl.
      inversion Hdens as [| ? ? H3 _]; subst.
      destruct d0 as [| a [| b [| c [| ? ?]]]]; simpl in H3; try lia.
      eexists. reflexivity. }
    destruct Hrho as [rho_g0 Hrho].
    rewrite <- Hm.
    destruct (initEndRegions_spec (seq 0 (length (molarMass_ s))) s rho_g0 Hs)
      as [s' [E' [D' [L' [P' _]]]]].
    { intros r Hr. apply in_seq in Hr. lia. }
    { assumption. }
    exists s'. split; [assumption |]. split; [assumption |].
    intros r Hr. exists rho_g0. split; [assumption |].
    assert (Hrow : nth_error (molarMass_ s') r = Some (molarMasses R rho_g0)).
    { apply P'. apply in_seq. lia. }
    unfold molarMass. apply at_Ok in Hrow. rewrite Hrow. simpl.
    repeat split; reflexivity.
Qed.

End BlackOilInitEnd.

(** The two-region example: both regions get the molar mass computed from
    the gas reference density of region 0. *)
Lemma initEnd_molarMass_witness :
  Conditions.blackOilSized Examples.blackOil2
  /\ exists s', BlackOil.initEnd Examples.gasConstant Examples.blackOil2 = Ok s'
      /\ BlackOil.referenceDensity_ s' = BlackOil.referenceDensity_ Examples.blackOil2
      /\ forall regionIdx,
           regionIdx < length (BlackOil.molarMass_ Examples.blackOil2) ->
           exists rho_g0,
             BlackOil.referenceDensity Examples.blackOil2 BlackOil.gasPhaseIdx 0
             = Ok rho_g0
             /\ BlackOil.molarMass s' BlackOil.gasCompIdx regionIdx
                = Ok (Examples.gasConstant * BlackOil.surfaceTemperature * rho_g0
                      / BlackOil.surfacePressure)%Qc
             /\ BlackOil.molarMass s' BlackOil.waterCompIdx regionIdx
                = Ok (lit 18 1000)
             /\ BlackOil.molarMass s' BlackOil.oilCompIdx regionIdx
                = Ok (lit 175 1000).
Proof.
  assert (Hs : Conditions.blackOilSized Examples.blackOil2).
  { unfold Conditions.blackOilSized. simpl.
    repeat split; repeat constructor. }
  split; [exact Hs |].
  apply (initEnd_molarMass_from_region_0 Examples.gasConstant
           Examples.blackOil2 Hs).
Defined.

(** The gas reference densities of the two example regions are 1 and 2. *)
Example blackOil2_densities :
  BlackOil.referenceDensity Examples.blackOil2 BlackOil.gasPhaseIdx 0 = Ok 1%Qc
  /\ BlackOil.referenceDensity Examples.blackOil2 BlackOil.gasPhaseIdx 1
     = Ok (lit 2 1).
Proof. split; reflexivity. Qed.

(* ------------------------------------------------------------------ *)
(** ** OilPvtMultiplexer::setApproach *)

Section SetApproach.

Import OilPvtMultiplexer.

Context {RealPvt : Type} `{RealPvtClass RealPvt}.

Lemma load_app_lt (h l : Heap RealPvt) (a : addr) :
  a < length h -> load (h ++ l) a = load h a.
Proof.
  intro Hlt. unfold load. rewrite nth_error_app1 by assumption. reflexivity.
Qed.

Lemma load_app_new (h : Heap RealPvt) (o : Object RealPvt) :
  load (h ++ [Some o]) (length h) = Some o.
Proof.
  unfold load. rewrite nth_error_app2 by lia. rewrite Nat.sub_diag.
  reflexivity.
Qed.

Lemma load_lt (h : Heap RealPvt) (a : addr) (o : Object RealPvt) :
  load h a = Some o -> a < length h.
Proof.
  unfold load. intro E. apply nth_error_Some. intro Hn. rewrite Hn in E.
  discriminate.
Qed.

Lemma load_store_same (h : Heap RealPvt) (a : addr) (o : Object RealPvt) :
  a < length h -> load (store h a (Some o)) a = Some o.
Proof.
  revert a. induction h as [| x rest IH]; intros [| a] Hlt; simpl in *;
    try lia.
  - reflexivity.
  - apply IH. lia.
Qed.

Lemma load_store_other (h : Heap RealPvt) (a b : addr)
    (c : option (Object RealPvt)) :
  b <> a -> load (store h a c) b = load h b.
Proof.
  revert a b. induction h as [| x rest IH]; intros [| a] [| b] Hne; simpl;
    try reflexivity; try congruence.
  apply IH. lia.
Qed.

Lemma this_lt (h : Heap RealPvt) (self : addr) (m : t) :
  this_ h self = Ok m -> self < length h.
Proof.
  unfold this_. destruct (load h self) as [o |] eqn:E; [| discriminate].
  intros _. eapply load_lt. eassumption.
Qed.

(** C5 (as the code has it).  [setApproach(tag)] is not tied to the unset
    state: called on a multiplexer in any state with a tag other than
    [NoOilPvt], it succeeds, allocates a new implementation object of that
    kind, and stores its address and the tag; every other object on the free
    store, the implementation selected before included, stays as it is.
    With [NoOilPvt] it throws [logic_error] and changes nothing. *)
Theorem setApproach_overwrites :
  forall (h : Heap RealPvt) (self : addr) (m : t) (appr : OilPvtApproach),
    this_ h self = Ok m ->
    (appr = NoOilPvt -> setApproach h self appr = (Throw notImplemented, h))
    /\ (appr <> NoOilPvt ->
        exists h',
          setApproach h self appr = (Ok tt, h')
          /\ this_ h' self = Ok (mk appr (Some (length h)))
          /\ load h' (length h) = Some (ObjRealPvt appr (construct appr))
          /\ forall a, a <> self -> a < length h -> load h' a = load h a).
Proof.
  intros h self m appr Hthis.
  pose proof (this_lt h self m Hthis) as Hlt.
  split.
  - intros ->. unfold setApproach. rewrite Hthis. reflexivity.
  - intro Hne.
    exists (store (h ++ [Some (ObjRealPvt appr (construct appr))]) self
                  (Some (ObjMultiplexer (mk appr (Some (length h)))))).
    split; [| split; [| split]].
    + unfold setApproach. rewrite Hthis.
      destruct appr; [congruence | reflexivity | reflexivity | reflexivity].
    + unfold this_. rewrite load_store_same; [reflexivity |].
      rewrite length_app. simpl. lia.
    + rewrite load_store_other by lia. apply load_app_new.
    + intros a Ha Hal. rewrite load_store_other by assumption.
      apply load_app_lt. assumption.
Qed.

End SetApproach.

(** A newly constructed multiplexer given [LiveOilPvt]: the call succeeds
    and the implementation lives at address 1. *)
Lemma setApproach_overwrites_witness :
  OilPvtMultiplexer.this_ Examples.oneMultiplexer 0
  = Ok (OilPvtMultiplexer.mk OilPvtMultiplexer.NoOilPvt None)
  /\ exists h',
       OilPvtMultiplexer.setApproach Examples.oneMultiplexer 0
         OilPvtMultiplexer.LiveOilPvt = (Ok tt, h')
       /\ OilPvtMultiplexer.this_ h' 0
          = Ok (OilPvtMultiplexer.mk OilPvtMultiplexer.LiveOilPvt (Some 1)).
Proof.
  split; [reflexivity |].
  destruct (setApproach_overwrites (RealPvt := unit) Examples.oneMultiplexer 0
              (OilPvtMultiplexer.mk OilPvtMultiplexer.NoOilPvt None)
              OilPvtMultiplexer.LiveOilPvt eq_refl) as [_ Hok].
  destruct Hok as [h' [Hset [Hthis _]]]; [discriminate |].
  exists h'. split; assumption.
Defined.

(** C5 as worded fails: on a multiplexer set to [LiveOilPvt], a second
    [setApproach(DeadOilPvt)] succeeds and replaces tag and implementation. *)
Lemma setApproach_twice_counterexample :
  ~ Conditions.singleSelection unit.
Proof.
  intro Hsingle.
  destruct (Hsingle Examples.oneMultiplexer
              (snd (OilPvtMultiplexer.setApproach Examples.oneMultiplexer 0
                      OilPvtMultiplexer.LiveOilPvt))
              (snd (OilPvtMultiplexer.setApproach
                      (snd (OilPvtMultiplexer.setApproach
                              Examples.oneMultiplexer 0
                              OilPvtMultiplexer.LiveOilPvt))
                      0 OilPvtMultiplexer.DeadOilPvt))
              0 OilPvtMultiplexer.LiveOilPvt OilPvtMultiplexer.DeadOilPvt
              (Ok tt) eq_refl)
    as [Hrejected | Hkept].
  - discriminate.
  - reflexivity.
  - apply Hrejected. reflexivity.
  - vm_compute in Hkept. discriminate.
Qed.

(** After the second [setApproach], the destructor releases the second
    implementation only; the first one is still on the free store. *)
Example first_implementation_outlives_multiplexer :
  let h1 := snd (OilPvtMultiplexer.setApproach Examples.oneMultiplexer 0
                   OilPvtMultiplexer.LiveOilPvt) in
  let h2 := snd (OilPvtMultiplexer.setApproach h1 0
                   OilPvtMultiplexer.DeadOilPvt) in
  exists h3,
    OilPvtMultiplexer.destructor h2 0 = Ok h3
    /\ OilPvtMultiplexer.load h3 1
       = Some (OilPvtMultiplexer.ObjRealPvt OilPvtMultiplexer.LiveOilPvt tt)
    /\ OilPvtMultiplexer.load h3 2 = None.
Proof. eexists. repeat split. Qed.

(* ------------------------------------------------------------------ *)
(** ** The forward map *)

Section ForwardMap.

Import WetGasPvt.

Lemma evalSegments_not_Throw (pts : list (Scalar * Scalar)) (x : Scalar)
    (e : Exception) :
  Tabulated1DFunction.evalSegments pts x <> Throw e.
Proof.
  induction pts as [| [x0 y0] tl IH]; simpl; [discriminate |].
  destruct tl as [| [x1 y1] rest]; [discriminate |].
  destruct rest as [| s rest]; [discriminate |].
  destruct (Qcltb x x1); [discriminate | exact IH].
Qed.

Lemma evalSegments_defined (pts : list (Scalar * Scalar)) (x : Scalar) :
  2 <= length pts -> exists y, Tabulated1DFunction.evalSegments pts x = Ok y.
Proof.
  induction pts as [| [x0 y0] tl IH]; simpl; [lia |].
  destruct tl as [| [x1 y1] rest]; simpl; [lia |]. intros _.
  destruct rest as [| s rest]; [eauto |].
  destruct (Qcltb x x1); [eauto |]. apply IH. simpl. lia.
Qed.

Lemma saturatedGasOilMassFraction_not_Throw (g : t) (r : nat) (T p : Scalar)
    (e : Exception) :
  saturatedGasOilMassFraction g r T p <> Throw e.
Proof.
  unfold saturatedGasOilMassFraction, oilVaporizationFactor.
  destruct (at_ (gasReferenceDensity_ g) r) eqn:E1; simpl;
    [| exfalso; eapply at_not_Throw; eassumption | discriminate].
  destruct (at_ (oilReferenceDensity_ g) r) eqn:E2; simpl;
    [| exfalso; eapply at_not_Throw; eassumption | discriminate].
  destruct (at_ (oilVaporizationFactorTable_ g) r) eqn:E3; simpl;
    [| exfalso; eapply at_not_Throw; eassumption | discriminate].
  unfold Tabulated1DFunction.eval.
  destruct (Tabulated1DFunction.evalSegments a1 p) eqn:E4; simpl;
    [discriminate | | discriminate].
  exfalso. eapply evalSegments_not_Throw. eassumption.
Qed.

(** The temperature is not used. *)
Lemma saturatedGasOilMassFraction_temperature (g : t) (r : nat)
    (T T' p : Scalar) :
  saturatedGasOilMassFraction g r T p = saturatedGasOilMassFraction g r T' p.
Proof. reflexivity. Qed.

Lemma saturatedGasOilMassFraction_defined (g : t) (r : nat) (T p : Scalar) :
  Conditions.wetGasSized g -> r < Conditions.numRegions g ->
  Conditions.tabulated g r ->
  saturatedGasOilMassFraction g r T p = Ok (Conditions.massFractionAt g r p).
Proof.
  intros [_ [_ [Hg [Ho _]]]] Hr [tab [Htab Hlen]].
  unfold Conditions.massFractionAt.
  rewrite (saturatedGasOilMassFraction_temperature g r 0%Qc T p).
  unfold saturatedGasOilMassFraction, oilVaporizationFactor.
  destruct (at_lt (gasReferenceDensity_ g) r) as [rg Erg]; [lia |].
  destruct (at_lt (oilReferenceDensity_ g) r) as [ro Ero]; [lia |].
  apply at_Ok in Htab. rewrite Erg, Ero, Htab. simpl.
  destruct (evalSegments_defined tab p Hlen) as [y Ey]. rewrite Ey.
  reflexivity.
Qed.


End ForwardMap.

(* ------------------------------------------------------------------ *)
(** ** The Newton loop of gasSaturationPressure *)

Section NewtonLoop.

Import WetGasPvt.

Variable splineEval : Spline -> Scalar -> Scalar.
Variable g : t.
Variable r : nat.
Variable T XgO : Scalar.

Hypothesis Hsized : Conditions.wetGasSized g.
Hypothesis Hregion : r < Conditions.numRegions g.
Hypothesis Htab : Conditions.tabulated g r.

Let p0 : Scalar := Conditions.seed splineEval g r XgO.
Let eps : Scalar := (p0 * e_minus_11)%Qc.






End NewtonLoop.


Lemma wetGas_sized : Conditions.wetGasSized Examples.wetGas.
Proof. vm_compute. repeat split. Defined.


Lemma wetGas_regions : 0 < Conditions.numRegions Examples.wetGas.
Proof. vm_compute. lia. Defined.



(** The two pressures of that example: both are within 1e-10 of 1/2, and
    they differ. *)
Example fixed_step_values :
  Examples.value
    (WetGasPvt.gasSaturationPressure Examples.linearSpline Examples.wetGas 0
       0%Qc (lit 3 5))
  = Some (159709811955690383911132831490773529320581843868511898126679
          # 319419623911380767822265625000000000000000000000000000000000)%Q
  /\ Examples.value
       (WetGasPvt.gasSaturationPressure_spec Examples.linearSpline
          Examples.wetGas 0 0%Qc (lit 3 5))
     = Some (23078918457031250000000002739712351357782615209046671261838855795385600539418652415364359
             # 46157836914062500000000000000000000000000000000000000000000000000000000000000000000000000)%Q.
Proof. split; vm_compute; reflexivity. Qed.

(* ------------------------------------------------------------------ *)
(** ** The exception of a failed inversion *)

Lemma newtonLoop_exception (n : nat) :
  forall (g : WetGasPvt.t) (r : nat) (T XgO eps p : Scalar) (e : Exception),
    WetGasPvt.newtonLoop n g r T XgO eps p = Throw e ->
    e = WetGasPvt.noSaturationPressure XgO.
Proof.
  induction n as [| n IH]; intros g r T XgO eps p e E; simpl in E.
  - injection E as <-. reflexivity.
  - apply bind_Throw_inv in E. destruct E as [E | [X0 [_ E]]].
    { exfalso. eapply saturatedGasOilMassFraction_not_Throw. eassumption. }
    apply bind_Throw_inv in E. destruct E as [E | [X1 [_ E]]].
    { exfalso. eapply saturatedGasOilMassFraction_not_Throw. eassumption. }
    match type of E with
    | (if ?c then _ else _) = _ => destruct c
    end; [discriminate |].
    eapply IH. eassumption.
Qed.

(** C7 (as the code has it).  Every exception [gasSaturationPressure] raises
    is the [NumericalIssue] of the exhausted Newton loop; it is no
    [logic_error] (the class used for an unset approach), and its message
    consists of the fixed text followed by the target composition [XgO]:
    the region index is not part of it. *)
Theorem gasSaturationPressure_exception :
  forall (splineEval : WetGasPvt.Spline -> Scalar -> Scalar)
         (g : WetGasPvt.t) (r : nat) (T XgO : Scalar) (e : Exception),
    WetGasPvt.gasSaturationPressure splineEval g r T XgO = Throw e ->
    e = NumericalIssue
          [Text "Could find the gas saturation pressure for X_g^O = "; Num XgO]
    /\ forall what, e <> logic_error what.
Proof.
  intros splineEval g r T XgO e E. unfold WetGasPvt.gasSaturationPressure in E.
  apply bind_Throw_inv in E. destruct E as [E | [spl [_ E]]].
  { exfalso. eapply at_not_Throw. eassumption. }
  apply newtonLoop_exception in E. subst e. split; [reflexivity |].
  intros what. discriminate.
Qed.

(** In the example wet gas the table starts at pressure 0; at the target
    1/2, the saturated mass fraction at that pressure, seed and step are 0
    and no pass is accepted. *)
Lemma gasSaturationPressure_exception_witness :
  WetGasPvt.gasSaturationPressure Examples.linearSpline Examples.wetGas 0
    0%Qc (lit 1 2)
  = Throw (WetGasPvt.noSaturationPressure (lit 1 2))
  /\ WetGasPvt.noSaturationPressure (lit 1 2)
     = NumericalIssue
         [Text "Could find the gas saturation pressure for X_g^O = ";
          Num (lit 1 2)].
Proof.
  assert (E : WetGasPvt.gasSaturationPressure Examples.linearSpline
                Examples.wetGas 0 0%Qc (lit 1 2)
              = Throw (WetGasPvt.noSaturationPressure (lit 1 2)))
    by (vm_compute; reflexivity).
  split; [exact E |].
  exact (proj1 (gasSaturationPressure_exception Examples.linearSpline
                  Examples.wetGas 0 0%Qc (lit 1 2) _ E)).
Defined.

(** C7 as worded fails: regions 0 and 1 of the example wet gas fail with
    one and the same exception, so no reading of the exception tells the
    region. *)
Lemma exception_region_counterexample :
  ~ Conditions.carriesRegion Examples.linearSpline.
Proof.
  intros [regionOf Hregion].
  assert (E0 : WetGasPvt.gasSaturationPressure Examples.linearSpline
                 Examples.wetGas 0 0%Qc (lit 1 2)
               = Throw (WetGasPvt.noSaturationPressure (lit 1 2)))
    by (vm_compute; reflexivity).
  assert (E1 : WetGasPvt.gasSaturationPressure Examples.linearSpline
                 Examples.wetGas 1 0%Qc (lit 1 2)
               = Throw (WetGasPvt.noSaturationPressure (lit 1 2)))
    by (vm_compute; reflexivity).
  apply Hregion in E0. apply Hregion in E1. congruence.
Qed.

(* ------------------------------------------------------------------ *)
(** ** Round trip of the inversion *)









(* ------------------------------------------------------------------ *)
(** ** Cross-finalization and the fugacity coefficient of oil *)

Section CrossFinalization.

Import WetGasPvt.









Context {RealPvt : Type} `{OilPvtMultiplexer.RealPvtClass RealPvt}.


End CrossFinalization.


(** In that example the coefficient has a value. *)
Example fugacityCoefficientOil_value :
  exists phi,
    WetGasPvt.fugacityCoefficientOil
      (snd (OilPvtMultiplexer.setApproach Examples.oneMultiplexer 0
              OilPvtMultiplexer.LiveOilPvt))
      Examples.finalWetGas 0 0%Qc 1%Qc = Ok phi.
Proof. vm_compute. eexists. reflexivity. Qed.

(* ------------------------------------------------------------------ *)
(** ** Queries leave the stored state alone *)

(** A statement that leaves the state as it is, on a state [s], followed
    by statements that do so too. *)
Lemma bindM_reads {S A B : Type} (m : M S A) (k : A -> M S B) (s : S)
    (r : Result A) (k' : A -> Result B) :
  m s = (r, s) -> (forall a, k a s = (k' a, s)) ->
  bindM m k s = (bind r k', s).
Proof.
  intros Em Ek. unfold bindM. rewrite Em.
  destruct r as [a | e |]; cbn [bind]; [apply Ek | reflexivity | reflexivity].
Qed.

Section Frame.

Import OilPvtMultiplexer Engine.

Context {RealPvt : Type} `{RealPvtClass RealPvt}.
Variable splineEval : WetGasPvt.Spline -> Scalar -> Scalar.
Variable eval2D : UniformXTabulated2DFunction.t -> Scalar -> Scalar -> Scalar.

Lemma Oil_call_reads {A : Type} (self : addr)
    (codeToCall : OilPvtApproach -> RealPvt -> Result A) (w : World RealPvt) :
  Oil.OPM_OIL_PVT_MULTIPLEXER_CALL self codeToCall w
  = (OPM_OIL_PVT_MULTIPLEXER_CALL (heap w) self codeToCall, w).
Proof.
  unfold Oil.OPM_OIL_PVT_MULTIPLEXER_CALL, OPM_OIL_PVT_MULTIPLEXER_CALL.
  eapply bindM_reads; [reflexivity |].
  intro m. destruct (approach_ m); [reflexivity | | |];
    (eapply bindM_reads; [reflexivity | intro po; reflexivity]).
Qed.

Lemma Gas_elem_reads {A : Type} (member_ : WetGasPvt.t -> list A) (regionIdx : nat)
    (w : World RealPvt) :
  Gas.elem member_ regionIdx w = (at_ (member_ (gasPvt w)) regionIdx, w).
Proof. reflexivity. Qed.

Lemma oilVaporizationFactor_reads (r : nat) (T p : Scalar) (w : World RealPvt) :
  Gas.oilVaporizationFactor r T p w
  = (WetGasPvt.oilVaporizationFactor (gasPvt w) r T p, w).
Proof.
  unfold Gas.oilVaporizationFactor, WetGasPvt.oilVaporizationFactor.
  eapply bindM_reads; [apply Gas_elem_reads | intro tab; reflexivity].
Qed.

Lemma saturatedGasOilMassFraction_reads (r : nat) (T p : Scalar)
    (w : World RealPvt) :
  Gas.saturatedGasOilMassFraction r T p w
  = (WetGasPvt.saturatedGasOilMassFraction (gasPvt w) r T p, w).
Proof.
  unfold Gas.saturatedGasOilMassFraction, WetGasPvt.saturatedGasOilMassFraction.
  eapply bindM_reads; [apply Gas_elem_reads | intro rho_gRef].
  eapply bindM_reads; [apply Gas_elem_reads | intro rho_oRef].
  eapply bindM_reads; [apply oilVaporizationFactor_reads | intro Rv; reflexivity].
Qed.

Lemma saturatedGasOilMoleFraction_reads (r : nat) (T p : Scalar)
    (w : World RealPvt) :
  Gas.saturatedGasOilMoleFraction r T p w
  = (WetGasPvt.saturatedGasOilMoleFraction (gasPvt w) r T p, w).
Proof.
  unfold Gas.saturatedGasOilMoleFraction, WetGasPvt.saturatedGasOilMoleFraction.
  eapply bindM_reads; [apply saturatedGasOilMassFraction_reads | intro XgO].
  eapply bindM_reads; [apply Gas_elem_reads | intro MG].
  eapply bindM_reads; [apply Gas_elem_reads | intro MO; reflexivity].
Qed.

Lemma formationVolumeFactor_reads (r : nat) (T p XgO : Scalar)
    (w : World RealPvt) :
  Gas.formationVolumeFactor eval2D r T p XgO w
  = (WetGasPvt.formationVolumeFactor eval2D (gasPvt w) r T p XgO, w).
Proof.
  unfold Gas.formationVolumeFactor, WetGasPvt.formationVolumeFactor.
  eapply bindM_reads; [apply Gas_elem_reads | intro rhooRef].
  eapply bindM_reads; [apply Gas_elem_reads | intro rhogRef].
  eapply bindM_reads; [apply Gas_elem_reads | intro tab; reflexivity].
Qed.

Lemma viscosity_reads (r : nat) (T p XgO : Scalar) (w : World RealPvt) :
  Gas.viscosity eval2D r T p XgO w
  = (WetGasPvt.viscosity eval2D (gasPvt w) r T p XgO, w).
Proof.
  unfold Gas.viscosity, WetGasPvt.viscosity.
  eapply bindM_reads; [apply Gas_elem_reads | intro rhooRef].
  eapply bindM_reads; [apply Gas_elem_reads | intro rhogRef].
  eapply bindM_reads; [apply Gas_elem_reads | intro tabB].
  eapply bindM_reads; [apply Gas_elem_reads | intro tabBMu; reflexivity].
Qed.

Lemma density_reads (r : nat) (T p XgO : Scalar) (w : World RealPvt) :
  Gas.density eval2D r T p XgO w
  = (WetGasPvt.density eval2D (gasPvt w) r T p XgO, w).
Proof.
  unfold Gas.density, WetGasPvt.density.
  eapply bindM_reads; [apply Gas_elem_reads | intro rhooRef].
  eapply bindM_reads; [apply Gas_elem_reads | intro rhogRef].
  eapply bindM_reads; [apply formationVolumeFactor_reads | intro Bg; reflexivity].
Qed.

Lemma fugacityCoefficientOil_reads (r : nat) (T p : Scalar) (w : World RealPvt) :
  Gas.fugacityCoefficientOil r T p w
  = (WetGasPvt.fugacityCoefficientOil (heap w) (gasPvt w) r T p, w).
Proof.
  unfold Gas.fugacityCoefficientOil, WetGasPvt.fugacityCoefficientOil.
  eapply bindM_reads; [apply saturatedGasOilMoleFraction_reads | intro x_gOSat].
  change (match WetGasPvt.oilPvt_ (gasPvt w) with
          | None => liftR Undefined
          | Some oilPvt =>
              phi_oO <~ Oil.fugacityCoefficientOil oilPvt r T p ;;
              retM (phi_oO / x_gOSat)%Qc
          end w
          = (match WetGasPvt.oilPvt_ (gasPvt w) with
             | None => Undefined
             | Some oilPvt =>
                 phi_oO <- fugacityCoefficientOil (heap w) oilPvt r T p ;;
                 Ok (phi_oO / x_gOSat)%Qc
             end, w)).
  destruct (WetGasPvt.oilPvt_ (gasPvt w)) as [oilPvt |]; [| reflexivity].
  eapply bindM_reads; [apply Oil_call_reads | intro phi_oO; reflexivity].
Qed.

Lemma newtonLoop_reads (iterations r : nat) (T XgO eps pSat : Scalar)
    (w : World RealPvt) :
  Gas.newtonLoop iterations r T XgO eps pSat w
  = (WetGasPvt.newtonLoop iterations (gasPvt w) r T XgO eps pSat, w).
Proof.
  revert pSat. induction iterations as [| n IH]; intro pSat; [reflexivity |].
  cbn [Gas.newtonLoop WetGasPvt.newtonLoop].
  eapply bindM_reads; [apply saturatedGasOilMassFraction_reads | intro X0].
  eapply bindM_reads; [apply saturatedGasOilMassFraction_reads | intro X1].
  cbv zeta.
  destruct (Qcltb _ _); [reflexivity | apply IH].
Qed.

Lemma gasSaturationPressure_reads (r : nat) (T XgO : Scalar) (w : World RealPvt) :
  Gas.gasSaturationPressure splineEval r T XgO w
  = (WetGasPvt.gasSaturationPressure splineEval (gasPvt w) r T XgO, w).
Proof.
  unfold Gas.gasSaturationPressure, WetGasPvt.gasSaturationPressure.
  eapply bindM_reads; [apply Gas_elem_reads | intro spline].
  apply newtonLoop_reads.
Qed.

(** Every query, whatever its outcome, leaves the stored objects as they
    are and answers from them. *)
Lemma call_reads (q : Query) (w : World RealPvt) :
  call splineEval eval2D q w = (answer splineEval eval2D w q, w).
Proof.
  destruct q; cbn [call answer].
  - apply viscosity_reads.
  - apply density_reads.
  - apply formationVolumeFactor_reads.
  - reflexivity.
  - apply fugacityCoefficientOil_reads.
  - apply oilVaporizationFactor_reads.
  - apply saturatedGasOilMassFraction_reads.
  - apply saturatedGasOilMoleFraction_reads.
  - apply gasSaturationPressure_reads.
  - apply (Oil_call_reads (oilPvt w)).
  - apply (Oil_call_reads (oilPvt w)).
  - apply (Oil_call_reads (oilPvt w)).
  - apply (Oil_call_reads (oilPvt w)).
  - apply (Oil_call_reads (oilPvt w)).
  - apply (Oil_call_reads (oilPvt w)).
  - apply (Oil_call_reads (oilPvt w)).
  - apply (Oil_call_reads (oilPvt w)).
Qed.

(** C9.  No property query changes stored state.  The bodies of the
    [const] methods run as statements on the stored objects ([Engine.Gas],
    [Engine.Oil]): after any run of queries on the wet-gas correlation and
    the oil multiplexer (viscosity, density, formation volume factor,
    fugacity coefficients, vaporization factor, saturated mass and mole
    fraction, saturation pressure with its Newton loop, and the
    multiplexer's forwarded methods), whatever their outcomes, the free
    store, the multiplexer with its tag and implementation, and every table,
    spline, reference density and molar mass of the correlation are what
    they were before; each query of the run answers as it does on the
    initial state. *)
Theorem queries_preserve_state :
  forall (qs : list Query) (w : World RealPvt),
    snd (run splineEval eval2D qs w) = w
    /\ fst (run splineEval eval2D qs w) = map (answer splineEval eval2D w) qs.
Proof.
  induction qs as [| q rest IH]; intro w; cbn [run map].
  - split; reflexivity.
  - rewrite (call_reads q w).
    destruct (IH w) as [Hw Hrs].
    destruct (run splineEval eval2D rest w) as [rs w2]. cbn [fst snd] in *.
    subst. split; reflexivity.
Qed.

End Frame.

(* ------------------------------------------------------------------ *)
(** ** initFromDeck: extraction of the PVTG tables and gap-fill *)

Section GapFill.
Import WetGasPvt.

Lemma appendAt_last (B : T2.t) (x : Scalar) (col : list (Scalar * Scalar))
    (s : Scalar * Scalar) :
  T2.appendAt (B ++ [(x, col)]) (length B) s = Some (B ++ [(x, col ++ [s])]).
Proof.
  induction B as [| c B IH]; simpl; [reflexivity |].
  rewrite IH. destruct c. reflexivity.
Qed.

Lemma appendAt_spec (f : T2.t) :
  forall (i : nat) (x : Scalar) (col : list (Scalar * Scalar))
         (s : Scalar * Scalar),
    nth_error f i = Some (x, col) ->
    exists f', T2.appendAt f i s = Some f'
               /\ nth_error f' i = Some (x, col ++ [s])
               /\ (forall j, j <> i -> nth_error f' j = nth_error f j)
               /\ length f' = length f.
Proof.
  induction f as [| c rest IH]; intros [| i] x col s E; simpl in E;
    try discriminate.
  - injection E as ->. simpl. eexists. split; [reflexivity |].
    split; [reflexivity |]. split; [| reflexivity].
    intros [| j] Hj; [congruence | reflexivity].
  - destruct (IH i x col s E) as [rest' [E1 [E2 [E3 E4]]]].
    simpl. rewrite E1. destruct c as [cx ccol].
    exists ((cx, ccol) :: rest'). split; [reflexivity |].
    split; [exact E2 |]. split.
    + intros [| j] Hj; [reflexivity |]. simpl. apply E3. lia.
    + simpl. congruence.
Qed.

Lemma at_middle {A : Type} (pre : list A) (a : A) (rest : list A) :
  at_ (pre ++ a :: rest) (length pre) = Ok a.
Proof.
  unfold at_. rewrite nth_error_app2 by lia. rewrite Nat.sub_diag. reflexivity.
Qed.

Lemma bindM_Ok {S A B : Type} (m : M S A) (k : A -> M S B) (s s' : S) (a : A) :
  m s = (Ok a, s') -> bindM m k s = k a s'.
Proof. intro E. unfold bindM. rewrite E. reflexivity. Qed.

Lemma bindM_Throw {S A B : Type} (m : M S A) (k : A -> M S B) (s s' : S)
    (e : Exception) :
  m s = (Throw e, s') -> bindM m k s = (Throw e, s').
Proof. intro E. unfold bindM. rewrite E. reflexivity. Qed.

Lemma appendInvGasB_run (i : nat) (y v : Scalar) (s : Tables) (b : T2.t) :
  T2.appendAt (invGasB s) i (y, v) = Some b ->
  appendInvGasB i y v s = (Ok tt, mkTables b (gasMu s)).
Proof.
  intro E. unfold appendInvGasB, modifyR, T2.appendSamplePoint.
  rewrite E. reflexivity.
Qed.

Lemma appendGasMu_run (i : nat) (y v : Scalar) (s : Tables) (m : T2.t) :
  T2.appendAt (gasMu s) i (y, v) = Some m ->
  appendGasMu i y v s = (Ok tt, mkTables (invGasB s) m).
Proof.
  intro E. unfold appendGasMu, modifyR, T2.appendSamplePoint.
  rewrite E. reflexivity.
Qed.

Lemma extractSample_run (i : nat) (tab : list PvtgRow) (innerIdx : nat)
    (row : PvtgRow) (s : Tables) (b m : T2.t) :
  at_ tab innerIdx = Ok row ->
  T2.appendAt (invGasB s) i
    (OilSolubility row, (1 / GasFormationFactor row)%Qc) = Some b ->
  T2.appendAt (gasMu s) i (OilSolubility row, GasViscosity row) = Some m ->
  extractSample i tab innerIdx s = (Ok tt, mkTables b m).
Proof.
  intros Erow Eb Em. unfold extractSample.
  rewrite (bindM_Ok _ _ s s row) by (unfold liftR; rewrite Erow; reflexivity).
  rewrite (bindM_Ok _ _ s (mkTables b (gasMu s)) tt)
    by (apply appendInvGasB_run; assumption).
  apply appendGasMu_run. assumption.
Qed.

Lemma extractSamples_run (rest : list PvtgRow) :
  forall (pre : list PvtgRow) (B Mu : T2.t) (pgB pgMu : Scalar)
         (accB accMu : list (Scalar * Scalar)),
    length Mu = length B ->
    forM (seq (length pre) (length rest))
         (extractSample (length B) (pre ++ rest))
         (mkTables (B ++ [(pgB, accB)]) (Mu ++ [(pgMu, accMu)]))
    = (Ok tt,
       mkTables
         (B ++ [(pgB, accB ++ map (fun r => (OilSolubility r,
                                             (1 / GasFormationFactor r)%Qc))
                                  rest)])
         (Mu ++ [(pgMu, accMu ++ map (fun r => (OilSolubility r,
                                               GasViscosity r)) rest)])).
Proof.
  induction rest as [| row rest IH]; intros pre B Mu pgB pgMu accB accMu Hlen.
  - simpl. rewrite !app_nil_r. reflexivity.
  - cbn [length seq forM].
    erewrite bindM_Ok.
    2:{ eapply extractSample_run.
        - apply at_middle.
        - cbn [invGasB]. apply appendAt_last.
        - cbn [gasMu]. rewrite <- Hlen. apply appendAt_last. }
    replace (pre ++ row :: rest) with ((pre ++ [row]) ++ rest)
      by (rewrite <- app_assoc; reflexivity).
    replace (S (length pre)) with (length (pre ++ [row]))
      by (rewrite length_app; simpl; lia).
    rewrite (IH (pre ++ [row]) B Mu pgB pgMu _ _ Hlen).
    rewrite <- !app_assoc. reflexivity.
Qed.

(** The two tables as the extraction loop leaves them for the deck rows
    [rows]. *)
Lemma extractRows_run (suf : PvtgTable) :
  forall (pre : PvtgTable),
    forM (seq (length pre) (length suf)) (extractRow (pre ++ suf))
         (mkTables (map (fun row => (Pressure row, Conditions.deckInvGasB row)) pre)
                   (map (fun row => (Pressure row, Conditions.deckGasMu row)) pre))
    = (Ok tt,
       mkTables
         (map (fun row => (Pressure row, Conditions.deckInvGasB row)) (pre ++ suf))
         (map (fun row => (Pressure row, Conditions.deckGasMu row)) (pre ++ suf))).
Proof.
  induction suf as [| row suf IH]; intro pre.
  - simpl. rewrite app_nil_r. reflexivity.
  - cbn [length seq forM].
    erewrite bindM_Ok.
    2:{ unfold extractRow.
        erewrite bindM_Ok.
        2:{ unfold liftR, getPressureColumn. rewrite map_app. cbn [map].
            rewrite <- (length_map Pressure pre). rewrite at_middle.
            reflexivity. }
        erewrite bindM_Ok by reflexivity.
        erewrite bindM_Ok by reflexivity.
        cbn [invGasB gasMu]. unfold T2.appendXPos, T2.numX.
        rewrite !length_app, !length_map. cbn [length].
        rewrite Nat.eqb_refl. 
        erewrite bindM_Ok by reflexivity.
        erewrite bindM_Ok by reflexivity.
        erewrite bindM_Ok.
        2:{ unfold liftR, getInnerTable. rewrite at_middle. reflexivity. }
        cbv zeta.
        pose proof (extractSamples_run (InnerTable row) []
                      (map (fun row => (Pressure row, Conditions.deckInvGasB row)) pre)
                      (map (fun row => (Pressure row, Conditions.deckGasMu row)) pre)
                      (Pressure row) (Pressure row) [] []) as Hrun.
        rewrite !length_map in Hrun. cbn [length app] in Hrun.
        apply Hrun. reflexivity. }
    replace (pre ++ row :: suf) with ((pre ++ [row]) ++ suf)
      by (rewrite <- app_assoc; reflexivity).
    replace (S (length pre)) with (length (pre ++ [row]))
      by (rewrite length_app; simpl; lia).
    rewrite <- (IH (pre ++ [row])). rewrite !map_app. reflexivity.
Qed.

Lemma extendRow_run (x : nat) (master cur : list PvtgRow) (newRowIdx : nat)
    (mNew m0 c0 : PvtgRow) (s : Tables) (b m : T2.t) :
  at_ master newRowIdx = Ok mNew -> at_ master 0 = Ok m0 -> at_ cur 0 = Ok c0 ->
  T2.appendAt (invGasB s) x (Conditions.pointInvGasB c0 m0 mNew) = Some b ->
  T2.appendAt (gasMu s) x (Conditions.pointGasMu c0 m0 mNew) = Some m ->
  extendRow x master cur newRowIdx s = (Ok tt, mkTables b m).
Proof.
  intros Enew Em0 Ec0 Eb Em. unfold extendRow.
  rewrite (bindM_Ok _ _ s s mNew) by (unfold liftR; rewrite Enew; reflexivity).
  rewrite (bindM_Ok _ _ s s m0) by (unfold liftR; rewrite Em0; reflexivity).
  rewrite (bindM_Ok _ _ s s c0) by (unfold liftR; rewrite Ec0; reflexivity).
  cbv zeta.
  rewrite (bindM_Ok _ _ s (mkTables b (gasMu s)) tt)
    by (apply appendInvGasB_run; exact Eb).
  apply appendGasMu_run. exact Em.
Qed.

Lemma extendRows_run (further : list PvtgRow) :
  forall (x : nat) (m0 c0 : PvtgRow) (mpre crest : list PvtgRow) (s : Tables)
         (pxB pxMu : Scalar) (colB colMu : list (Scalar * Scalar)),
    nth_error (invGasB s) x = Some (pxB, colB) ->
    nth_error (gasMu s) x = Some (pxMu, colMu) ->
    exists s',
      forM (seq (length (m0 :: mpre)) (length further))
           (extendRow x ((m0 :: mpre) ++ further) (c0 :: crest)) s
      = (Ok tt, s')
      /\ nth_error (invGasB s') x
         = Some (pxB, colB ++ map (Conditions.pointInvGasB c0 m0) further)
      /\ nth_error (gasMu s') x
         = Some (pxMu, colMu ++ map (Conditions.pointGasMu c0 m0) further)
      /\ (forall j, j <> x ->
            nth_error (invGasB s') j = nth_error (invGasB s) j
            /\ nth_error (gasMu s') j = nth_error (gasMu s) j)
      /\ length (invGasB s') = length (invGasB s)
      /\ length (gasMu s') = length (gasMu s).
Proof.
  induction further as [| mNew further IH];
    intros x m0 c0 mpre crest s pxB pxMu colB colMu HB HMu.
  - exists s. cbn [length seq forM map]. rewrite !app_nil_r.
    repeat split; try reflexivity; assumption.
  - destruct (appendAt_spec (invGasB s) x pxB colB
                (Conditions.pointInvGasB c0 m0 mNew) HB)
      as [b [Eb [Rb [Ob Lb]]]].
    destruct (appendAt_spec (gasMu s) x pxMu colMu
                (Conditions.pointGasMu c0 m0 mNew) HMu)
      as [m [Em [Rm [Om Lm]]]].
    destruct (IH x m0 c0 (mpre ++ [mNew]) crest (mkTables b m) pxB pxMu
                _ _ Rb Rm)
      as [s' [Erun [RB [RMu [Oth [LB LMu]]]]]].
    exists s'. split.
    + cbn [length seq forM].
      erewrite bindM_Ok.
      2:{ eapply (extendRow_run x _ _ _ mNew m0 c0).
          - change (m0 :: mpre) with ([] ++ m0 :: mpre).
            rewrite <- app_assoc. cbn [app].
            change (m0 :: mpre ++ mNew :: further)
              with ((m0 :: mpre) ++ mNew :: further).
            change (S (length mpre)) with (length (m0 :: mpre)).
            apply at_middle.
          - reflexivity.
          - reflexivity.
          - exact Eb.
          - exact Em. }
      replace ((m0 :: mpre) ++ mNew :: further)
        with ((m0 :: mpre ++ [mNew]) ++ further)
        by (cbn [app]; rewrite <- app_assoc; reflexivity).
      replace (S (S (length mpre))) with (length (m0 :: mpre ++ [mNew]))
        by (cbn [length]; rewrite length_app; simpl; lia).
      exact Erun.
    + cbn [map]. rewrite <- !app_assoc in RB, RMu. cbn [app] in RB, RMu.
      split; [exact RB |]. split; [exact RMu |]. cbn [invGasB gasMu] in *.
      split; [| split; congruence].
      intros j Hj. destruct (Oth j Hj) as [O1 O2].
      rewrite O1, O2, (Ob j Hj), (Om j Hj). split; reflexivity.
Qed.

(** What the scan of lines 140-145 finds. *)
Lemma scanMasterTable_spec (rows : list PvtgOuterRow) :
  forall start,
    start <= scanMasterTable rows start
    /\ scanMasterTable rows start <= start + length rows
    /\ (forall j row, start <= j -> j < scanMasterTable rows start ->
          nth_error rows (j - start) = Some row ->
          length (InnerTable row) < 2)
    /\ (scanMasterTable rows start < start + length rows ->
        exists row, nth_error rows (scanMasterTable rows start - start) = Some row
                    /\ 2 <= length (InnerTable row)).
Proof.
  induction rows as [| row rest IH]; intro start; cbn [scanMasterTable length].
  - split; [lia |]. split; [lia |]. split; [| lia].
    intros j row Hj1 Hj2. lia.
  - destruct (1 <? length (InnerTable row)) eqn:Hrow.
    + apply Nat.ltb_lt in Hrow. split; [lia |]. split; [lia |]. split.
      * intros j r Hj1 Hj2. lia.
      * intros _. exists row. rewrite Nat.sub_diag. split; [reflexivity | lia].
    + apply Nat.ltb_ge in Hrow.
      destruct (IH (S start)) as [H1 [H2 [H3 H4]]].
      split; [lia |]. split; [lia |]. split.
      * intros j r Hj1 Hj2 Hnth.
        destruct (Nat.eq_dec j start) as [-> | Hne].
        -- rewrite Nat.sub_diag in Hnth. injection Hnth as <-. lia.
        -- apply (H3 j r); try lia.
           replace (j - start) with (S (j - S start)) in Hnth by lia.
           exact Hnth.
      * intros Hlt. destruct H4 as [r [Hr1 Hr2]]; [lia |].
        exists r. split; [| exact Hr2].
        replace (scanMasterTable rest (S start) - start)
          with (S (scanMasterTable rest (S start) - S start)) by lia.
        exact Hr1.
Qed.

Lemma findMasterTable_spec (tbl : PvtgTable) (x : nat) :
  x < length tbl ->
  x < findMasterTable tbl x
  /\ (findMasterTable tbl x < length tbl ->
      Conditions.isMasterOf tbl x (findMasterTable tbl x))
  /\ (length tbl <= findMasterTable tbl x -> Conditions.noMasterFor tbl x).
Proof.
  intro Hx. unfold findMasterTable.
  destruct (scanMasterTable_spec (skipn (x + 1) tbl) (x + 1))
    as [H1 [H2 [H3 H4]]].
  rewrite length_skipn in H2, H4.
  set (m := scanMasterTable (skipn (x + 1) tbl) (x + 1)) in *.
  assert (Hbelow : forall j, x < j -> j < m -> j < length tbl ->
                             Conditions.innerLength tbl j < 2).
  { intros j Hj1 Hj2 Hj3. unfold Conditions.innerLength.
    destruct (nth_error tbl j) as [row |] eqn:Hrow; [| lia].
    apply (H3 j row); try lia.
    rewrite nth_error_skipn. replace (x + 1 + (j - (x + 1))) with j by lia.
    exact Hrow. }
  split; [lia |]. split.
  - intro Hm. unfold Conditions.isMasterOf.
    split; [lia |]. split; [lia |]. split.
    + destruct H4 as [row [Hr1 Hr2]]; [lia |].
      rewrite nth_error_skipn in Hr1.
      replace (x + 1 + (m - (x + 1))) with m in Hr1 by lia.
      unfold Conditions.innerLength. rewrite Hr1. exact Hr2.
    + intros j Hj1 Hj2. apply Hbelow; lia.
  - intros Hm j Hj1 Hj2. apply Hbelow; lia.
Qed.

Lemma isMasterOf_found (tbl : PvtgTable) (x m : nat) :
  x < length tbl -> Conditions.isMasterOf tbl x m ->
  findMasterTable tbl x = m.
Proof.
  intros Hx [M1 [M2 [M3 M4]]].
  destruct (findMasterTable_spec tbl x Hx) as [F1 [F2 F3]].
  destruct (Nat.lt_ge_cases (findMasterTable tbl x) (length tbl)) as [Hlt | Hge].
  - destruct (F2 Hlt) as [G1 [G2 [G3 G4]]].
    destruct (Nat.lt_trichotomy (findMasterTable tbl x) m) as [Hl | [He | Hg]].
    + specialize (M4 _ G1 Hl). lia.
    + exact He.
    + specialize (G4 _ M1 Hg). lia.
  - specialize (F3 Hge m M1 M2). lia.
Qed.

Lemma noMasterFor_found (tbl : PvtgTable) (x : nat) :
  x < length tbl -> Conditions.noMasterFor tbl x ->
  length tbl <= findMasterTable tbl x.
Proof.
  intros Hx Hno.
  destruct (findMasterTable_spec tbl x Hx) as [F1 [F2 F3]].
  destruct (Nat.lt_ge_cases (findMasterTable tbl x) (length tbl)) as [Hlt | Hge];
    [| exact Hge].
  destruct (F2 Hlt) as [G1 [G2 [G3 G4]]].
  specialize (Hno _ G1 G2). lia.
Qed.

Lemma filledRow_complete (deckRow : PvtgOuterRow -> list (Scalar * Scalar))
    (point : PvtgRow -> PvtgRow -> PvtgRow -> Scalar * Scalar)
    (tbl : PvtgTable) (x : nat) (row : PvtgOuterRow) :
  nth_error tbl x = Some row -> 2 <= length (InnerTable row) ->
  Conditions.filledRow deckRow point tbl x = deckRow row.
Proof.
  intros Hrow Hlen. unfold Conditions.filledRow. rewrite Hrow.
  destruct (Nat.ltb_spec 1 (length (InnerTable row))); [reflexivity | lia].
Qed.

Lemma filledRow_stuck (deckRow : PvtgOuterRow -> list (Scalar * Scalar))
    (point : PvtgRow -> PvtgRow -> PvtgRow -> Scalar * Scalar)
    (tbl : PvtgTable) (x : nat) (row : PvtgOuterRow) :
  nth_error tbl x = Some row -> length tbl <= findMasterTable tbl x ->
  Conditions.filledRow deckRow point tbl x = deckRow row.
Proof.
  intros Hrow Hm. unfold Conditions.filledRow. rewrite Hrow.
  destruct (1 <? length (InnerTable row)); [reflexivity |].
  apply nth_error_None in Hm. rewrite Hm. reflexivity.
Qed.

Lemma filledRow_extended (deckRow : PvtgOuterRow -> list (Scalar * Scalar))
    (point : PvtgRow -> PvtgRow -> PvtgRow -> Scalar * Scalar)
    (tbl : PvtgTable) (x : nat) (row mrow : PvtgOuterRow) :
  nth_error tbl x = Some row -> length (InnerTable row) < 2 ->
  nth_error tbl (findMasterTable tbl x) = Some mrow ->
  Conditions.filledRow deckRow point tbl x
  = deckRow row ++ Conditions.extension point (InnerTable row) (InnerTable mrow).
Proof.
  intros Hrow Hlen Hm. unfold Conditions.filledRow. rewrite Hrow.
  destruct (Nat.ltb_spec 1 (length (InnerTable row))); [lia |].
  rewrite Hm. reflexivity.
Qed.

Lemma gapFillRow_run (tbl : PvtgTable) (x : nat) (row : PvtgOuterRow)
    (s : Tables) :
  nth_error tbl x = Some row -> InnerTable row <> [] ->
  nth_error (invGasB s) x = Some (Pressure row, Conditions.deckInvGasB row) ->
  nth_error (gasMu s) x = Some (Pressure row, Conditions.deckGasMu row) ->
  exists res s',
    gapFillRow tbl x s = (res, s')
    /\ nth_error (invGasB s') x
       = Some (Pressure row,
               Conditions.filledRow Conditions.deckInvGasB Conditions.pointInvGasB tbl x)
    /\ nth_error (gasMu s') x
       = Some (Pressure row,
               Conditions.filledRow Conditions.deckGasMu Conditions.pointGasMu tbl x)
    /\ (forall j, j <> x ->
          nth_error (invGasB s') j = nth_error (invGasB s) j
          /\ nth_error (gasMu s') j = nth_error (gasMu s) j)
    /\ ((res = Ok tt /\ ~ Conditions.stuck tbl x)
        \/ (res = Throw invalidPvtg /\ s' = s /\ Conditions.stuck tbl x)).
Proof.
  intros Hrow Hne HB HMu.
  assert (Hx : x < length tbl) by (apply nth_error_Some; congruence).
  assert (Hinner : Conditions.innerLength tbl x = length (InnerTable row))
    by (unfold Conditions.innerLength; rewrite Hrow; reflexivity).
  assert (HnumY : T2.numY (invGasB s) x = Ok (length (InnerTable row))).
  { unfold T2.numY. apply at_Ok in HB. rewrite HB. cbn [bind snd].
    unfold Conditions.deckInvGasB. rewrite length_map. reflexivity. }
  unfold gapFillRow.
  rewrite (bindM_Ok _ _ s s s) by reflexivity.
  rewrite (bindM_Ok _ _ s s (length (InnerTable row)))
    by (unfold liftR; rewrite HnumY; reflexivity).
  destruct (InnerTable row) as [| c0 crest] eqn:Hcur; [congruence |].
  rewrite (bindM_Ok _ _ s s tt) by reflexivity.
  destruct crest as [| c1 crest].
  - (* a single sample: the row is deficient *)
    cbn [length Nat.ltb Nat.leb].
    destruct (findMasterTable_spec tbl x Hx) as [F1 [F2 F3]].
    destruct (Nat.leb_spec (length tbl) (findMasterTable tbl x)) as [Hge | Hlt].
    + exists (Throw invalidPvtg), s. split; [reflexivity |].
      rewrite !(filledRow_stuck _ _ tbl x row Hrow Hge).
      split; [exact HB |]. split; [exact HMu |].
      split; [intros j Hj; split; reflexivity |].
      right. split; [reflexivity |]. split; [reflexivity |].
      split; [rewrite Hinner; simpl; lia | exact Hge].
    + destruct (F2 Hlt) as [M1 [M2 [M3 M4]]].
      unfold Conditions.innerLength in M3.
      destruct (nth_error tbl (findMasterTable tbl x)) as [mrow |] eqn:Hmrow;
        [| lia].
      destruct (InnerTable mrow) as [| m0 further] eqn:Hmaster;
        [simpl in M3; lia |].
      destruct (extendRows_run further x m0 c0 [] [] s _ _ _ _ HB HMu)
        as [s' [Erun [RB [RMu [Oth _]]]]].
      exists (Ok tt), s'. split.
      * rewrite (bindM_Ok _ _ s s (m0 :: further))
          by (unfold liftR, getInnerTable; apply at_Ok in Hmrow;
              rewrite Hmrow; cbn [bind]; rewrite Hmaster; reflexivity).
        rewrite (bindM_Ok _ _ s s [c0])
          by (unfold liftR, getInnerTable; apply at_Ok in Hrow;
              rewrite Hrow; cbn [bind]; rewrite Hcur; reflexivity).
        cbn [length Nat.sub]. rewrite Nat.sub_0_r. exact Erun.
      * rewrite !(filledRow_extended _ _ tbl x row mrow Hrow)
          by (try rewrite Hcur; try exact Hmrow; simpl; lia).
        rewrite Hcur, Hmaster. cbn [Conditions.extension].
        split; [exact RB |]. split; [exact RMu |]. split; [exact Oth |].
        left. split; [reflexivity |]. intros [_ Hstuck]. lia.
  - (* two or more samples: nothing to do *)
    cbn [length Nat.ltb Nat.leb].
    exists (Ok tt), s. split; [reflexivity |].
    rewrite !(filledRow_complete _ _ tbl x row Hrow)
      by (rewrite Hcur; simpl; lia).
    split; [exact HB |]. split; [exact HMu |].
    split; [intros j Hj; split; reflexivity |].
    left. split; [reflexivity |]. intros [Hdef _].
    rewrite Hinner in Hdef. simpl in Hdef. lia.
Qed.

Lemma stuck_later (tbl : PvtgTable) (k j : nat) :
  k < length tbl -> length tbl <= findMasterTable tbl k ->
  k <= j -> j < length tbl ->
  length tbl <= findMasterTable tbl j.
Proof.
  intros Hk Hstuck Hkj Hj.
  destruct (findMasterTable_spec tbl k Hk) as [_ [_ F3]].
  apply noMasterFor_found; [exact Hj |].
  intros i Hi1 Hi2. apply (F3 Hstuck); lia.
Qed.

Lemma untouched_filled_when_stuck (tbl : PvtgTable) (k : nat) (s : Tables) :
  k < length tbl -> length tbl <= findMasterTable tbl k ->
  Conditions.untouchedFrom tbl k s -> Conditions.filledFrom tbl k s.
Proof.
  intros Hk Hstuck Hun j row Hkj Hrow.
  assert (Hj : j < length tbl) by (apply nth_error_Some; congruence).
  rewrite !(filledRow_stuck _ _ tbl j row Hrow
              (stuck_later tbl k j Hk Hstuck Hkj Hj)).
  apply Hun; assumption.
Qed.

Lemma gapFillRows_run (tbl : PvtgTable) :
  (forall row, In row tbl -> InnerTable row <> []) ->
  forall (n k : nat) (s : Tables),
    k + n = length tbl ->
    Conditions.untouchedFrom tbl k s ->
    exists res s',
      forM (seq k n) (gapFillRow tbl) s = (res, s')
      /\ Conditions.filledFrom tbl k s'
      /\ Conditions.sameRowsBelow k s s'
      /\ ((res = Ok tt
           /\ forall j, k <= j -> j < length tbl -> ~ Conditions.stuck tbl j)
          \/ (res = Throw invalidPvtg
              /\ exists j, k <= j /\ j < length tbl /\ Conditions.stuck tbl j)).
Proof.
  intros Hne. induction n as [| n IH]; intros k s Hkn Hun.
  - exists (Ok tt), s. split; [reflexivity |]. split; [| split].
    + intros j row Hkj Hrow.
      assert (j < length tbl) by (apply nth_error_Some; congruence). lia.
    + intros j Hj. split; reflexivity.
    + left. split; [reflexivity |]. intros j Hj1 Hj2. lia.
  - destruct (nth_error tbl k) as [row |] eqn:Hrow;
      [| apply nth_error_None in Hrow; lia].
    destruct (Hun k row (Nat.le_refl k) Hrow) as [HB HMu].
    destruct (gapFillRow_run tbl k row s Hrow
                (Hne row (nth_error_In tbl k Hrow)) HB HMu)
      as [res1 [s1 [Erun [RB [RMu [Oth Hres]]]]]].
    cbn [seq forM].
    destruct Hres as [[-> Hfree] | [-> [-> Hstuck]]].
    + rewrite (bindM_Ok _ _ s s1 tt Erun).
      destruct (IH (S k) s1) as [res [s' [Erest [Hfilled [Hbelow Hres]]]]];
        [lia | |].
      { intros j r Hj Hr. destruct (Oth j) as [O1 O2]; [lia |].
        rewrite O1, O2. apply Hun; [lia | exact Hr]. }
      exists res, s'. split; [exact Erest |]. split; [| split].
      * intros j r Hj Hr. destruct (Nat.eq_dec j k) as [-> | Hjk].
        -- destruct (Hbelow k) as [B1 B2]; [lia |].
           rewrite B1, B2. assert (r = row) by congruence. subst r.
           split; assumption.
        -- apply Hfilled; [lia | exact Hr].
      * intros j Hj. destruct (Hbelow j) as [B1 B2]; [lia |].
        destruct (Oth j) as [O1 O2]; [lia |].
        rewrite B1, B2, O1, O2. split; reflexivity.
      * destruct Hres as [[-> Hnone] | [-> [j [Hj1 [Hj2 Hj3]]]]].
        -- left. split; [reflexivity |]. intros j Hj1 Hj2.
           destruct (Nat.eq_dec j k) as [-> | Hjk];
             [exact Hfree | apply Hnone; lia].
        -- right. split; [reflexivity |]. exists j. repeat split; try lia.
           ++ apply Hj3.
           ++ apply Hj3.
    + rewrite (bindM_Throw _ _ s s invalidPvtg Erun).
      exists (Throw invalidPvtg), s. split; [reflexivity |].
      destruct Hstuck as [Hdef Hnomaster].
      split; [| split].
      * apply untouched_filled_when_stuck; try assumption. lia.
      * intros j Hj. split; reflexivity.
      * right. split; [reflexivity |]. exists k.
        repeat split; try lia; assumption.
Qed.

(** The tables after the extraction and the gap-fill of one region, from
    empty tables. *)
Lemma extractPvtg_run (tbl : PvtgTable) :
  (forall row, In row tbl -> InnerTable row <> []) ->
  exists res s',
    extractPvtg tbl (mkTables [] []) = (res, s')
    /\ Conditions.filledFrom tbl 0 s'
    /\ ((res = Ok tt /\ forall j, j < length tbl -> ~ Conditions.stuck tbl j)
        \/ (res = Throw invalidPvtg
            /\ exists j, j < length tbl /\ Conditions.stuck tbl j)).
Proof.
  intro Hne.
  pose proof (extractRows_run tbl []) as Hext. cbn [length app map] in Hext.
  set (s0 := mkTables
               (map (fun row => (Pressure row, Conditions.deckInvGasB row)) tbl)
               (map (fun row => (Pressure row, Conditions.deckGasMu row)) tbl))
    in *.
  assert (Hun : Conditions.untouchedFrom tbl 0 s0).
  { intros j row _ Hrow. unfold s0. cbn [invGasB gasMu].
    rewrite !nth_error_map, Hrow. split; reflexivity. }
  destruct (gapFillRows_run tbl Hne (length tbl) 0 s0 eq_refl Hun)
    as [res [s' [Erun [Hfilled [_ Hres]]]]].
  exists res, s'. split.
  - unfold extractPvtg. rewrite (bindM_Ok _ _ _ s0 tt Hext).
    unfold gapFill. rewrite (bindM_Ok _ _ s0 s0 s0) by reflexivity.
    unfold s0 at 1. cbn [invGasB]. unfold T2.numX. rewrite length_map.
    exact Erun.
  - split; [exact Hfilled |].
    destruct Hres as [[-> Hnone] | [-> [j [_ [Hj1 Hj2]]]]].
    + left. split; [reflexivity |]. intros j Hj. apply Hnone; lia.
    + right. split; [reflexivity |]. exists j. split; assumption.
Qed.
End GapFill.

Section RegionFromDeck.
Import WetGasPvt.

Variable R : Scalar.

Lemma modifyR_Ok {S : Type} (f : S -> Result S) (s s' : S) :
  f s = Ok s' -> modifyR f s = (Ok tt, s').
Proof. intro E. unfold modifyR. rewrite E. reflexivity. Qed.

(** The loop body of [initFromDeck] for a region whose tables are still
    empty stores what extraction and gap-fill make of the region's PVTG
    table, and ends the way they end. *)
Lemma initRegionFromDeck_run (deck : Deck) (r : nat) (g : t)
    (d : DensityRecord) (tbl : PvtgTable) (res : Result unit) (s' : Tables) :
  Conditions.awaitsRegion g r ->
  nth_error (densityKeyword deck) r = Some d ->
  nth_error (pvtgTables deck) r = Some tbl ->
  2 <= length tbl ->
  extractPvtg tbl (mkTables [] []) = (res, s') ->
  exists g',
    initRegionFromDeck R deck r g = (res, g')
    /\ nth_error (inverseGasB_ g') r = Some (invGasB s')
    /\ nth_error (gasMu_ g') r = Some (gasMu s')
    /\ (forall r', r' <> r -> Conditions.awaitsRegion g r' ->
                   Conditions.awaitsRegion g' r').
Proof.
  intros [A1 [A2 [A3 [A4 [A5 [A6 A7]]]]]] Hd Htbl Hlen Hext.
  destruct g as [ptr gM oM gR oR iB mu iBMu rv spl].
  cbn in A1, A2, A3, A4, A5, A6, A7.
  destruct (setAt_lt oR r (OIL d) A4) as [oR' EoR].
  destruct (setAt_lt gR r (GAS d) A3) as [gR' EgR].
  destruct (setAt_lt oM r (lit 175 1000) A2) as [oM' EoM].
  destruct (setAt_lt gM r
              (R * (lit 27315 100 + lit 1556 100) * GAS d / lit 101325 1)%Qc A1)
    as [gM' EgM].
  destruct (setAt_lt rv r
              (T1.setXYArrays (length tbl) (getPressureColumn tbl)
                 (getOilSolubilityColumn tbl)) A5) as [rv' Erv].
  assert (HiB : r < length iB) by (apply nth_error_Some; congruence).
  assert (Hmu : r < length mu) by (apply nth_error_Some; congruence).
  destruct (setAt_lt iB r (invGasB s') HiB) as [iB' EiB].
  destruct (setAt_lt mu r (gasMu s') Hmu) as [mu' Emu].
  exists (mk ptr gM' oM' gR' oR' iB' mu' iBMu rv' spl).
  split; [| split; [eapply setAt_same; eassumption |
                    split; [eapply setAt_same; eassumption |]]].
  2:{ intros r' Hr' [B1 [B2 [B3 [B4 [B5 [B6 B7]]]]]].
      cbn in B1, B2, B3, B4, B5, B6, B7. unfold Conditions.awaitsRegion. cbn.
      rewrite (setAt_length _ _ _ _ EgM), (setAt_length _ _ _ _ EoM),
        (setAt_length _ _ _ _ EgR), (setAt_length _ _ _ _ EoR),
        (setAt_length _ _ _ _ Erv),
        (setAt_other _ _ r' _ _ EiB Hr'), (setAt_other _ _ r' _ _ Emu Hr').
      repeat split; assumption. }
  unfold initRegionFromDeck.
  erewrite bindM_Ok
    by (unfold liftR; apply at_Ok in Hd; rewrite Hd; reflexivity).
  erewrite bindM_Ok.
  2:{ apply modifyR_Ok. unfold setReferenceDensities. cbn.
      rewrite EoR. cbn. rewrite EgR. reflexivity. }
  erewrite bindM_Ok.
  2:{ apply modifyR_Ok. unfold setMolarMasses. cbn.
      rewrite EoM. cbn. rewrite EgM. reflexivity. }
  erewrite bindM_Ok
    by (unfold liftR; apply at_Ok in Htbl; rewrite Htbl; reflexivity).
  erewrite bindM_Ok.
  2:{ unfold liftR, assert.
      destruct (Nat.ltb_spec 1 (length tbl)); [reflexivity | lia]. }
  erewrite bindM_Ok by reflexivity.
  erewrite bindM_Ok.
  2:{ unfold liftR. cbn. apply at_Ok in A6. apply at_Ok in A7.
      rewrite A6. cbn. rewrite A7. reflexivity. }
  erewrite bindM_Ok.
  2:{ apply modifyR_Ok. cbn. rewrite Erv. reflexivity. }
  rewrite Hext.
  erewrite bindM_Ok.
  2:{ unfold writeTables. apply modifyR_Ok. cbn.
      rewrite EiB. cbn. rewrite Emu. reflexivity. }
  reflexivity.
Qed.


Lemma samples_at (f : T2.t) (i : nat) (x : Scalar)
    (col : list (Scalar * Scalar)) :
  nth_error f i = Some (x, col) -> T2.samples f i = col.
Proof. intro E. unfold T2.samples. rewrite E. reflexivity. Qed.

(** The two tables of a region after the loop body of [initFromDeck], row
    by row, and the way the body ends. *)
Lemma initRegionFromDeck_rows (deck : Deck) (r : nat) (g : t)
    (d : DensityRecord) (tbl : PvtgTable) :
  Conditions.awaitsRegion g r ->
  nth_error (densityKeyword deck) r = Some d ->
  nth_error (pvtgTables deck) r = Some tbl ->
  2 <= length tbl ->
  (forall row, In row tbl -> InnerTable row <> []) ->
  exists res g' invGasB' gasMu',
    initRegionFromDeck R deck r g = (res, g')
    /\ nth_error (inverseGasB_ g') r = Some invGasB'
    /\ nth_error (gasMu_ g') r = Some gasMu'
    /\ (forall x row,
          nth_error tbl x = Some row ->
          T2.samples invGasB' x
          = Conditions.filledRow Conditions.deckInvGasB Conditions.pointInvGasB tbl x
          /\ T2.samples gasMu' x
             = Conditions.filledRow Conditions.deckGasMu Conditions.pointGasMu tbl x)
    /\ ((res = Ok tt /\ forall j, j < length tbl -> ~ Conditions.stuck tbl j)
        \/ (res = Throw invalidPvtg
            /\ exists j, j < length tbl /\ Conditions.stuck tbl j)).
Proof.
  intros Hg Hd Htbl Hlen Hne.
  destruct (extractPvtg_run tbl Hne) as [res [s' [Hext [Hfilled Hres]]]].
  destruct (initRegionFromDeck_run deck r g d tbl res s' Hg Hd Htbl Hlen Hext)
    as [g' [Erun [EB [EMu _]]]].
  exists res, g', (invGasB s'), (gasMu s').
  split; [exact Erun |]. split; [exact EB |]. split; [exact EMu |].
  split; [| exact Hres].
  intros x row Hrow. destruct (Hfilled x row (Nat.le_0_l x) Hrow) as [FB FMu].
  rewrite (samples_at _ _ _ _ FB), (samples_at _ _ _ _ FMu).
  split; reflexivity.
Qed.

(** C3.  In the gap-fill of [initFromDeck], for an outer row [x] with fewer
    than two inner samples (one, by the assertion of line 130): if [m] is
    the first outer position after [x] that has two or more inner samples,
    row [x] of both tables ends as its own sample followed by the points
    synthesized from row [m]; if no position after [x] has two or more
    inner samples, the loop body of the region ends in the
    [std::runtime_error] of line 148 and row [x] of both tables holds its
    own sample only. *)
Theorem gapFill_master_row :
  forall (deck : Deck) (r : nat) (g : t) (d : DensityRecord) (tbl : PvtgTable)
         (x : nat) (row : PvtgOuterRow),
    Conditions.awaitsRegion g r ->
    nth_error (densityKeyword deck) r = Some d ->
    nth_error (pvtgTables deck) r = Some tbl ->
    2 <= length tbl ->
    (forall row', In row' tbl -> InnerTable row' <> []) ->
    nth_error tbl x = Some row ->
    length (InnerTable row) < 2 ->
    exists res g' invGasB' gasMu',
      initRegionFromDeck R deck r g = (res, g')
      /\ nth_error (inverseGasB_ g') r = Some invGasB'
      /\ nth_error (gasMu_ g') r = Some gasMu'
      /\ (forall m mrow,
            Conditions.isMasterOf tbl x m -> nth_error tbl m = Some mrow ->
            T2.samples invGasB' x
            = Conditions.deckInvGasB row
              ++ Conditions.extension Conditions.pointInvGasB
                   (InnerTable row) (InnerTable mrow)
            /\ T2.samples gasMu' x
               = Conditions.deckGasMu row
                 ++ Conditions.extension Conditions.pointGasMu
                      (InnerTable row) (InnerTable mrow))
      /\ (Conditions.noMasterFor tbl x ->
          res = Throw invalidPvtg
          /\ T2.samples invGasB' x = Conditions.deckInvGasB row
          /\ T2.samples gasMu' x = Conditions.deckGasMu row).
Proof.
  intros deck r g d tbl x row Hg Hd Htbl Hlen Hne Hrow Hdef.
  assert (Hx : x < length tbl) by (apply nth_error_Some; congruence).
  destruct (initRegionFromDeck_rows deck r g d tbl Hg Hd Htbl Hlen Hne)
    as [res [g' [B [Mu [Erun [EB [EMu [Hrows Hres]]]]]]]].
  exists res, g', B, Mu.
  split; [exact Erun |]. split; [exact EB |]. split; [exact EMu |].
  destruct (Hrows x row Hrow) as [FB FMu]. split.
  - intros m mrow Hmaster Hmrow.
    rewrite <- (isMasterOf_found tbl x m Hx Hmaster) in Hmrow.
    rewrite FB, FMu.
    rewrite !(filledRow_extended _ _ tbl x row mrow Hrow Hdef Hmrow).
    split; reflexivity.
  - intros Hno.
    pose proof (noMasterFor_found tbl x Hx Hno) as Hstuck.
    rewrite FB, FMu, !(filledRow_stuck _ _ tbl x row Hrow Hstuck).
    split; [| split; reflexivity].
    destruct Hres as [[_ Hfree] | [-> _]]; [| reflexivity].
    exfalso. apply (Hfree x Hx). split; [| exact Hstuck].
    unfold Conditions.innerLength. rewrite Hrow. exact Hdef.
Qed.

(** C4.  When the gap-fill extends a deficient row [x] from its master row
    [m], then for each sample [i >= 1] of the master row the synthesized
    point is the row's own first sample scaled by the master row's ratios,
    [newRv = curRv0 * (masterRv[i] / masterRv[0])],
    [newBg = curBg0 * (masterBg[i] / masterBg[0])],
    [newMug = curMug0 * (masterMug[i] / masterMug[0])]; [(newRv, 1/newBg)]
    stands in row [x] of the table of [1/Bg] and [(newRv, newMug)] in row
    [x] of the viscosity table, behind the row's own samples, in the order
    of the master row. *)
Theorem gapFill_synthesized_points :
  forall (deck : Deck) (r : nat) (g : t) (d : DensityRecord) (tbl : PvtgTable)
         (x m : nat) (row mrow : PvtgOuterRow) (c0 m0 mNew : PvtgRow) (i : nat),
    Conditions.awaitsRegion g r ->
    nth_error (densityKeyword deck) r = Some d ->
    nth_error (pvtgTables deck) r = Some tbl ->
    2 <= length tbl ->
    (forall row', In row' tbl -> InnerTable row' <> []) ->
    nth_error tbl x = Some row ->
    length (InnerTable row) < 2 ->
    Conditions.isMasterOf tbl x m ->
    nth_error tbl m = Some mrow ->
    nth_error (InnerTable row) 0 = Some c0 ->
    nth_error (InnerTable mrow) 0 = Some m0 ->
    1 <= i ->
    nth_error (InnerTable mrow) i = Some mNew ->
    exists res g' invGasB' gasMu',
      initRegionFromDeck R deck r g = (res, g')
      /\ nth_error (inverseGasB_ g') r = Some invGasB'
      /\ nth_error (gasMu_ g') r = Some gasMu'
      /\ let newRv :=
           (OilSolubility c0 * (OilSolubility mNew / OilSolubility m0))%Qc in
         let newBg :=
           (GasFormationFactor c0
            * (GasFormationFactor mNew / GasFormationFactor m0))%Qc in
         let newMug :=
           (GasViscosity c0 * (GasViscosity mNew / GasViscosity m0))%Qc in
         nth_error (T2.samples invGasB' x) (length (InnerTable row) + (i - 1))
         = Some (newRv, (1 / newBg)%Qc)
         /\ nth_error (T2.samples gasMu' x) (length (InnerTable row) + (i - 1))
            = Some (newRv, newMug).
Proof.
  intros deck r g d tbl x m row mrow c0 m0 mNew i
         Hg Hd Htbl Hlen Hne Hrow Hdef Hmaster Hmrow Hc0 Hm0 Hi HmNew.
  assert (Hx : x < length tbl) by (apply nth_error_Some; congruence).
  destruct (initRegionFromDeck_rows deck r g d tbl Hg Hd Htbl Hlen Hne)
    as [res [g' [B [Mu [Erun [EB [EMu [Hrows _]]]]]]]].
  exists res, g', B, Mu.
  split; [exact Erun |]. split; [exact EB |]. split; [exact EMu |].
  destruct (Hrows x row Hrow) as [FB FMu].
  rewrite <- (isMasterOf_found tbl x m Hx Hmaster) in Hmrow.
  rewrite FB, FMu, !(filledRow_extended _ _ tbl x row mrow Hrow Hdef Hmrow).
  destruct (InnerTable row) as [| c crest] eqn:Hcur; [discriminate |].
  destruct (InnerTable mrow) as [| m' further] eqn:Hmas; [discriminate |].
  injection Hc0 as ->. injection Hm0 as ->.
  destruct i as [| i]; [lia |]. cbn [nth_error] in HmNew.
  cbn [Conditions.extension Nat.sub]. rewrite Nat.sub_0_r.
  unfold Conditions.deckInvGasB, Conditions.deckGasMu. rewrite Hcur.
  cbv zeta.
  rewrite !nth_error_app2 by (rewrite length_map; lia).
  rewrite !length_map, Nat.add_comm, Nat.add_sub.
  rewrite !nth_error_map, HmNew. split; reflexivity.
Qed.

(** *** The whole of initFromDeck *)

Lemma initRegionFromDeck_outcome (deck : Deck) (r : nat) (g : t)
    (d : DensityRecord) (tbl : PvtgTable) :
  Conditions.awaitsRegion g r ->
  nth_error (densityKeyword deck) r = Some d ->
  nth_error (pvtgTables deck) r = Some tbl ->
  2 <= length tbl ->
  (forall row, In row tbl -> InnerTable row <> []) ->
  exists res g',
    initRegionFromDeck R deck r g = (res, g')
    /\ (forall r', r' <> r -> Conditions.awaitsRegion g r' ->
                   Conditions.awaitsRegion g' r')
    /\ ((res = Ok tt /\ forall j, j < length tbl -> ~ Conditions.stuck tbl j)
        \/ (res = Throw invalidPvtg
            /\ exists j, j < length tbl /\ Conditions.stuck tbl j)).
Proof.
  intros Hg Hd Htbl Hlen Hne.
  destruct (extractPvtg_run tbl Hne) as [res [s' [Hext [_ Hres]]]].
  destruct (initRegionFromDeck_run deck r g d tbl res s' Hg Hd Htbl Hlen Hext)
    as [g' [Erun [_ [_ Hframe]]]].
  exists res, g'. split; [exact Erun |]. split; [exact Hframe | exact Hres].
Qed.

Lemma initRegions_throw (deck : Deck) :
  length (pvtgTables deck) = length (densityKeyword deck) ->
  (forall tbl, In tbl (pvtgTables deck) ->
               2 <= length tbl
               /\ forall row, In row tbl -> InnerTable row <> []) ->
  forall (n k : nat) (g : t),
    k + n = length (pvtgTables deck) ->
    (forall r', k <= r' -> r' < length (pvtgTables deck) ->
                Conditions.awaitsRegion g r') ->
    (exists r tbl x,
        k <= r /\ nth_error (pvtgTables deck) r = Some tbl
        /\ x < length tbl /\ Conditions.stuck tbl x) ->
    fst (forM (seq k n) (initRegionFromDeck R deck) g) = Throw invalidPvtg.
Proof.
  intros Hsize Hvalid. induction n as [| n IH]; intros k g Hkn Hwait Hstuck.
  - destruct Hstuck as [r [tbl [x [Hr [Htbl _]]]]].
    assert (r < length (pvtgTables deck))
      by (apply nth_error_Some; congruence). lia.
  - destruct (nth_error (pvtgTables deck) k) as [tblk |] eqn:Htblk;
      [| apply nth_error_None in Htblk; lia].
    destruct (nth_error (densityKeyword deck) k) as [dk |] eqn:Hdk;
      [| apply nth_error_None in Hdk; lia].
    destruct (Hvalid tblk (nth_error_In _ _ Htblk)) as [Hlen Hne].
    destruct (initRegionFromDeck_outcome deck k g dk tblk
                (Hwait k (Nat.le_refl k) ltac:(lia)) Hdk Htblk Hlen Hne)
      as [res [g' [Erun [Hframe Hres]]]].
    cbn [seq forM].
    destruct Hres as [[-> Hfree] | [-> _]].
    + rewrite (bindM_Ok _ _ g g' tt Erun).
      apply IH; [lia | |].
      * intros r' Hr1 Hr2. apply Hframe; [lia |]. apply Hwait; lia.
      * destruct Hstuck as [r [tbl [x [Hr [Htbl [Hx Hst]]]]]].
        assert (Hrk : r <> k).
        { intros ->. assert (tbl = tblk) by congruence. subst tbl.
          exact (Hfree x Hx Hst). }
        exists r, tbl, x. split; [lia |]. split; [exact Htbl |].
        split; [exact Hx | exact Hst].
    + rewrite (bindM_Throw _ _ g g' invalidPvtg Erun). reflexivity.
Qed.

Lemma setNumRegions_fresh_awaits (n r : nat) :
  r < n -> Conditions.awaitsRegion (setNumRegions fresh n) r.
Proof.
  intro Hr. unfold Conditions.awaitsRegion, setNumRegions, fresh, resize.
  cbn. rewrite !firstn_nil, !Nat.sub_0_r. cbn [app].
  rewrite !repeat_length, !nth_error_repeat by assumption.
  repeat split; assumption.
Qed.

(** When some region's PVTG table has a deficient row with no later row to
    borrow from, [initFromDeck] on a new object ends in the
    [std::runtime_error] of line 148 (the tables of the deck satisfying the
    assertions of lines 70, 95 and 130). *)
Lemma initFromDeck_throws (deck : Deck) :
  length (pvtgTables deck) = length (densityKeyword deck) ->
  (forall tbl, In tbl (pvtgTables deck) ->
               2 <= length tbl
               /\ forall row, In row tbl -> InnerTable row <> []) ->
  (exists r tbl x,
      nth_error (pvtgTables deck) r = Some tbl
      /\ x < length tbl /\ Conditions.stuck tbl x) ->
  fst (initFromDeck R deck fresh) = Throw invalidPvtg.
Proof.
  intros Hsize Hvalid [r [tbl [x [Htbl [Hx Hst]]]]].
  unfold initFromDeck.
  rewrite (bindM_Ok _ _ fresh fresh tt)
    by (unfold liftR; rewrite Hsize, Nat.eqb_refl; reflexivity).
  rewrite (bindM_Ok _ _ fresh
             (setNumRegions fresh (length (pvtgTables deck))) tt)
    by reflexivity.
  apply (initRegions_throw deck Hsize Hvalid); [lia | |].
  - intros r' _ Hr'. apply setNumRegions_fresh_awaits. exact Hr'.
  - exists r, tbl, x. split; [lia |]. split; [exact Htbl |].
    split; [exact Hx | exact Hst].
Qed.

End RegionFromDeck.

Lemma oneRegion_awaits : Conditions.awaitsRegion Examples.oneRegion 0.
Proof. vm_compute. repeat split; repeat constructor. Defined.

Lemma pvtgExample_nonempty :
  forall row, In row Examples.pvtgExample -> InnerTable row <> [].
Proof.
  intros row [<- | [<- | [<- | []]]]; discriminate.
Defined.

Lemma pvtgExample_master : Conditions.isMasterOf Examples.pvtgExample 0 1.
Proof.
  unfold Conditions.isMasterOf. split; [lia |].
  split; [vm_compute; lia |]. split; [vm_compute; lia |].
  intros j Hj1 Hj2. lia.
Defined.

(** The example table, row 0: it is extended from row 1. *)
Lemma gapFill_master_row_witness :
  exists res g' invGasB' gasMu',
    WetGasPvt.initRegionFromDeck Examples.gasConstant Examples.deckExample 0
      Examples.oneRegion = (res, g')
    /\ nth_error (WetGasPvt.inverseGasB_ g') 0 = Some invGasB'
    /\ nth_error (WetGasPvt.gasMu_ g') 0 = Some gasMu'
    /\ UniformXTabulated2DFunction.samples invGasB' 0
       = [(1%Qc, (1 / lit 2 1)%Qc)]
         ++ [((1 * (1 / lit 2 1))%Qc,
              (1 / (lit 2 1 * (lit 5 1 / lit 4 1)))%Qc)].
Proof.
  destruct (gapFill_master_row Examples.gasConstant Examples.deckExample 0
              Examples.oneRegion Examples.densityExample Examples.pvtgExample
              0 (mkOuter (lit 100 1) 1%Qc [mkRow 1%Qc (lit 2 1) (lit 3 1)])
              oneRegion_awaits eq_refl eq_refl)
    as [res [g' [B [Mu [Erun [EB [EMu [Hmaster _]]]]]]]].
  - vm_compute. lia.
  - exact pvtgExample_nonempty.
  - reflexivity.
  - vm_compute. lia.
  - exists res, g', B, Mu. split; [exact Erun |]. split; [exact EB |].
    split; [exact EMu |].
    exact (proj1 (Hmaster 1 _ pvtgExample_master eq_refl)).
Defined.

(** The example table, row 0 and the second sample of its master row 1:
    the synthesized point is [(1/2, 2/5)] in the table of [1/Bg] and
    [(1/2, 7/2)] in the viscosity table, written with the ratios. *)
Lemma gapFill_synthesized_points_witness :
  exists res g' invGasB' gasMu',
    WetGasPvt.initRegionFromDeck Examples.gasConstant Examples.deckExample 0
      Examples.oneRegion = (res, g')
    /\ nth_error (WetGasPvt.inverseGasB_ g') 0 = Some invGasB'
    /\ nth_error (WetGasPvt.gasMu_ g') 0 = Some gasMu'
    /\ nth_error (UniformXTabulated2DFunction.samples invGasB' 0) 1
       = Some ((1 * (1 / lit 2 1))%Qc, (1 / (lit 2 1 * (lit 5 1 / lit 4 1)))%Qc)
    /\ nth_error (UniformXTabulated2DFunction.samples gasMu' 0) 1
       = Some ((1 * (1 / lit 2 1))%Qc, (lit 3 1 * (lit 7 1 / lit 6 1))%Qc).
Proof.
  exact (gapFill_synthesized_points Examples.gasConstant Examples.deckExample 0
           Examples.oneRegion Examples.densityExample Examples.pvtgExample
           0 1 (mkOuter (lit 100 1) 1%Qc [mkRow 1%Qc (lit 2 1) (lit 3 1)])
           (mkOuter (lit 200 1) (lit 2 1)
              [mkRow (lit 2 1) (lit 4 1) (lit 6 1);
               mkRow 1%Qc (lit 5 1) (lit 7 1)])
           (mkRow 1%Qc (lit 2 1) (lit 3 1))
           (mkRow (lit 2 1) (lit 4 1) (lit 6 1))
           (mkRow 1%Qc (lit 5 1) (lit 7 1)) 1
           oneRegion_awaits eq_refl eq_refl
           (le_S 2 2 (le_n 2)) pvtgExample_nonempty eq_refl
           (le_n 2) pvtgExample_master eq_refl eq_refl eq_refl (le_n 1)
           eq_refl).
Defined.

(** The whole of [initFromDeck] on the example deck and a new object: the
    last row has a single sample and nothing to borrow from, so the
    initialisation throws; row 0 has been extended before, row 2 has not. *)
Example initFromDeck_example :
  let (res, g') :=
    WetGasPvt.initFromDeck Examples.gasConstant Examples.deckExample
      WetGasPvt.fresh in
  res = Throw WetGasPvt.invalidPvtg
  /\ Examples.values
       (UniformXTabulated2DFunction.samples
          (nth 0 (WetGasPvt.inverseGasB_ g') []) 0)
     = [(1, 1 # 2); (1 # 2, 2 # 5)]%Q
  /\ Examples.values
       (UniformXTabulated2DFunction.samples
          (nth 0 (WetGasPvt.gasMu_ g') []) 0)
     = [(1, 3); (1 # 2, 7 # 2)]%Q
  /\ Examples.values
       (UniformXTabulated2DFunction.samples
          (nth 0 (WetGasPvt.inverseGasB_ g') []) 2)
     = [(3, 1)]%Q.
Proof. vm_compute. repeat split. Qed.

(* ------------------------------------------------------------------ *)
(** ** Compositions: mass fraction, vaporization factor, mole fraction *)

Lemma Qcpos_neq (d : Scalar) : (0 < d)%Qc -> d <> 0%Qc.
Proof. intros Hd E. rewrite E in Hd. exact (Qclt_not_eq _ _ Hd eq_refl). Qed.

Lemma Qcinv_pos (d : Scalar) : (0 < d)%Qc -> (0 < / d)%Qc.
Proof.
  intro Hd. unfold Qclt in *. simpl in *.
  rewrite Qred_correct. apply Qinv_lt_0_compat. exact Hd.
Qed.

Lemma Qcdiv_nonneg (a d : Scalar) : (0 <= a)%Qc -> (0 < d)%Qc -> (0 <= a / d)%Qc.
Proof.
  intros Ha Hd. unfold Qcdiv.
  replace 0%Qc with (0 * / d)%Qc by (unfold Scalar in *; ring).
  apply Qcmult_le_compat_r; [exact Ha |].
  apply Qclt_le_weak, Qcinv_pos, Hd.
Qed.

Lemma Qcdiv_pos (a d : Scalar) : (0 < a)%Qc -> (0 < d)%Qc -> (0 < a / d)%Qc.
Proof.
  intros Ha Hd. unfold Qcdiv.
  replace 0%Qc with (0 * / d)%Qc by (unfold Scalar in *; ring).
  apply Qcmult_lt_compat_r; [apply Qcinv_pos, Hd | exact Ha].
Qed.

Lemma Qcdiv_lt_1 (a d : Scalar) : (0 < d)%Qc -> (a < d)%Qc -> (a / d < 1)%Qc.
Proof.
  intros Hd Ha. unfold Qcdiv.
  replace 1%Qc with (d * / d)%Qc.
  - apply Qcmult_lt_compat_r; [apply Qcinv_pos, Hd | exact Ha].
  - apply Qcmult_inv_r, Qcpos_neq, Hd.
Qed.

Lemma Qcdiv_le_1 (a d : Scalar) : (0 < d)%Qc -> (a <= d)%Qc -> (a / d <= 1)%Qc.
Proof.
  intros Hd Ha. unfold Qcdiv.
  replace 1%Qc with (d * / d)%Qc.
  - apply Qcmult_le_compat_r; [exact Ha | apply Qclt_le_weak, Qcinv_pos, Hd].
  - apply Qcmult_inv_r, Qcpos_neq, Hd.
Qed.

Lemma Qcmult_nonneg (a b : Scalar) : (0 <= a)%Qc -> (0 <= b)%Qc -> (0 <= a * b)%Qc.
Proof.
  intros Ha Hb. replace 0%Qc with (0 * b)%Qc by (unfold Scalar in *; ring).
  apply Qcmult_le_compat_r; assumption.
Qed.

Lemma Qcplus_pos_nonneg (a b : Scalar) : (0 < a)%Qc -> (0 <= b)%Qc -> (0 < a + b)%Qc.
Proof.
  intros Ha Hb. apply Qclt_le_trans with (a + 0)%Qc.
  - replace (a + 0)%Qc with a by (unfold Scalar in *; ring). exact Ha.
  - apply Qcplus_le_compat; [apply Qcle_refl | exact Hb].
Qed.

Lemma Qclt_add_pos (a b : Scalar) : (0 < b)%Qc -> (a < b + a)%Qc.
Proof.
  intro Hb. apply Qclt_minus_iff.
  replace (b + a + - a)%Qc with b by (unfold Scalar in *; ring). exact Hb.
Qed.

Lemma Qcle_add_nonneg (a b : Scalar) : (0 <= b)%Qc -> (a <= a + b)%Qc.
Proof.
  intro Hb. replace a with (a + 0)%Qc at 1 by (unfold Scalar in *; ring).
  apply Qcplus_le_compat; [apply Qcle_refl | exact Hb].
Qed.

Lemma Qcminus_nonneg (a b : Scalar) : (a <= b)%Qc -> (0 <= b - a)%Qc.
Proof. intro Hab. apply Qcle_minus_iff in Hab. exact Hab. Qed.

Section Compositions.

Import WetGasPvt.

Variable eval2D : T2.t -> Scalar -> Scalar -> Scalar.

(** X2.  For a gas reference density above 0, an oil reference density
    that is not negative and a vaporization factor that is not negative,
    the saturated mass fraction of the oil component lies in [0, 1). *)
Theorem saturatedGasOilMassFraction_range :
  forall (g : t) (r : nat) (T p rho_o rho_g Rv : Scalar),
    nth_error (oilReferenceDensity_ g) r = Some rho_o ->
    nth_error (gasReferenceDensity_ g) r = Some rho_g ->
    oilVaporizationFactor g r T p = Ok Rv ->
    (0 <= rho_o)%Qc -> (0 < rho_g)%Qc -> (0 <= Rv)%Qc ->
    exists XgO,
      saturatedGasOilMassFraction g r T p = Ok XgO
      /\ (0 <= XgO)%Qc /\ (XgO < 1)%Qc.
Proof.
  intros g r T p rho_o rho_g Rv Ho Hg HRv Hpo Hpg HpRv.
  apply at_Ok in Ho. apply at_Ok in Hg.
  exists (Rv * rho_o / (rho_g + Rv * rho_o))%Qc.
  unfold saturatedGasOilMassFraction. rewrite Ho, Hg, HRv. cbn [bind].
  assert (Ha : (0 <= Rv * rho_o)%Qc) by (apply Qcmult_nonneg; assumption).
  assert (Hd : (0 < rho_g + Rv * rho_o)%Qc)
    by (apply Qcplus_pos_nonneg; assumption).
  split; [reflexivity |]. split.
  - apply Qcdiv_nonneg; assumption.
  - apply Qcdiv_lt_1; [exact Hd |]. apply Qclt_add_pos. exact Hpg.
Qed.

Lemma moleFraction_closed_form (X MO MG : Scalar) :
  MO <> 0%Qc -> MG <> 0%Qc -> (X / MO + (1 - X) / MG)%Qc <> 0%Qc ->
  (X * (MO / (1 + (1 - X) * (MO / MG - 1))) / MO)%Qc
  = (X / MO / (X / MO + (1 - X) / MG))%Qc.
Proof.
  intros HO HG Hs. unfold Scalar in *.
  assert (Hden : (1 + (1 - X) * (MO / MG - 1) = MO * (X / MO + (1 - X) / MG))%Qc)
    by (field; split; assumption).
  rewrite Hden. field. repeat split; try assumption.
  intro E.
  assert (E' : (X * MG + (1 - X) * MO)%Qc = 0%Qc) by exact E.
  apply Hs.
  replace (X / MO + (1 - X) / MG)%Qc with ((X * MG + (1 - X) * MO) / (MO * MG))%Qc
    by (field; split; assumption).
  rewrite E'. field. split; assumption.
Qed.

(** X3.  [saturatedGasOilMoleFraction] converts the saturated mass
    fraction [XgO] into the mole fraction
    [(XgO/MO) / (XgO/MO + (1-XgO)/MG)] of the oil component, for molar
    masses above 0 and [XgO] in [0, 1]; the result lies in [0, 1]. *)
Theorem saturatedGasOilMoleFraction_conversion :
  forall (g : t) (r : nat) (T p XgO MO MG : Scalar),
    saturatedGasOilMassFraction g r T p = Ok XgO ->
    nth_error (oilMolarMass_ g) r = Some MO ->
    nth_error (gasMolarMass_ g) r = Some MG ->
    (0 < MO)%Qc -> (0 < MG)%Qc -> (0 <= XgO)%Qc -> (XgO <= 1)%Qc ->
    exists xgO,
      saturatedGasOilMoleFraction g r T p = Ok xgO
      /\ xgO = (XgO / MO / (XgO / MO + (1 - XgO) / MG))%Qc
      /\ (0 <= xgO)%Qc /\ (xgO <= 1)%Qc.
Proof.
  intros g r T p XgO MO MG HX HMO HMG HpO HpG H0 H1.
  assert (Ha : (0 <= XgO / MO)%Qc) by (apply Qcdiv_nonneg; assumption).
  assert (Hb : (0 <= (1 - XgO) / MG)%Qc)
    by (apply Qcdiv_nonneg; [apply Qcminus_nonneg |]; assumption).
  assert (Hsum : (0 < XgO / MO + (1 - XgO) / MG)%Qc).
  { destruct (Qc_eq_dec XgO 0%Qc) as [-> | Hne].
    - replace (0 / MO + (1 - 0) / MG)%Qc with (1 / MG)%Qc
        by (unfold Scalar in *; field; split; apply Qcpos_neq; assumption).
      apply Qcdiv_pos; [reflexivity | exact HpG].
    - apply Qcplus_pos_nonneg; [| exact Hb].
      apply Qcdiv_pos; [| exact HpO].
      destruct (Qcle_lt_or_eq _ _ H0) as [Hlt | Heq]; [exact Hlt |].
      exfalso. apply Hne. symmetry. exact Heq. }
  exists (XgO / MO / (XgO / MO + (1 - XgO) / MG))%Qc.
  split; [| split; [reflexivity | split]].
  - unfold saturatedGasOilMoleFraction. rewrite HX. cbn [bind].
    apply at_Ok in HMO. apply at_Ok in HMG. rewrite HMG, HMO. cbn [bind].
    apply f_equal. apply moleFraction_closed_form; apply Qcpos_neq; assumption.
  - apply Qcdiv_nonneg; assumption.
  - apply Qcdiv_le_1; [exact Hsum |]. apply Qcle_add_nonneg. exact Hb.
Qed.

(** X4.  Where none of its divisions is by zero ([1 - XgO], the oil
    reference density and the tabulated [1/Bg] at [(p, Rv)] are not zero),
    [density] is the gas reference density times [(1 + Rv)] times the
    tabulated [1/Bg] at [(p, Rv)], with
    [Rv = XgO/(1-XgO) * (rhogRef/rhooRef)]: the oil that the gas carries
    enters with the gas reference density as its weight. *)
Theorem density_from_inverse_table :
  forall (g : t) (r : nat) (T p XgO rhooRef rhogRef : Scalar) (tab : T2.t),
    nth_error (oilReferenceDensity_ g) r = Some rhooRef ->
    nth_error (gasReferenceDensity_ g) r = Some rhogRef ->
    nth_error (inverseGasB_ g) r = Some tab ->
    (1 - XgO)%Qc <> 0%Qc -> rhooRef <> 0%Qc ->
    let Rv := (XgO / (1 - XgO) * (rhogRef / rhooRef))%Qc in
    eval2D tab p Rv <> 0%Qc ->
    density eval2D g r T p XgO
    = Ok (rhogRef * (1 + Rv) * eval2D tab p Rv)%Qc.
Proof.
  intros g r T p XgO rhooRef rhogRef tab Ho Hg Htab _ _ Rv Hne.
  apply at_Ok in Ho. apply at_Ok in Hg. apply at_Ok in Htab.
  unfold density, formationVolumeFactor. rewrite Ho, Hg. cbn [bind].
  rewrite Htab. cbn [bind]. fold Rv. apply f_equal.
  unfold Scalar in *. field. split; [exact Hne | discriminate].
Qed.

End Compositions.

(* ------------------------------------------------------------------ *)
(** ** Programmatic initialisation of the wet gas *)

Lemma setAt_beyond {A : Type} (v : list A) :
  forall (i : nat) (a : A), length v <= i -> setAt v i a = Undefined.
Proof.
  induction v as [| x v IH]; intros [| i] a Hl; simpl in *;
    try reflexivity; try lia.
  rewrite IH by lia. reflexivity.
Qed.

Lemma setAt_nth_error {A : Type} (v : list A) (i : nat) (a : A) (v' : list A) :
  setAt v i a = Ok v' ->
  forall j, nth_error v' j = if Nat.eqb j i then Some a else nth_error v j.
Proof.
  intros E j. destruct (Nat.eqb_spec j i) as [-> | Hne].
  - eapply setAt_same. exact E.
  - eapply setAt_other; [exact E | exact Hne].
Qed.

Lemma resize_fresh {A : Type} (n : nat) (d : A) : resize n d [] = repeat d n.
Proof. unfold resize. rewrite firstn_nil, Nat.sub_0_r. reflexivity. Qed.

Lemma resize_length {A : Type} (n : nat) (d : A) (v : list A) :
  length (resize n d v) = n.
Proof.
  unfold resize. rewrite length_app, length_firstn, repeat_length. lia.
Qed.

Lemma resize_nth_error {A : Type} (n : nat) (d : A) (v : list A) (i : nat) :
  nth_error (resize n d v) i
  = if i <? n
    then match nth_error v i with Some a => Some a | None => Some d end
    else None.
Proof.
  unfold resize.
  destruct (Nat.ltb_spec i n) as [Hin | Hin].
  - destruct (Nat.lt_ge_cases i (length v)) as [Hiv | Hiv].
    + rewrite nth_error_app1 by (rewrite length_firstn; lia).
      rewrite nth_error_firstn.
      destruct (Nat.ltb_spec i n); [| lia].
      destruct (nth_error v i) eqn:E; [reflexivity |].
      apply nth_error_None in E. lia.
    + rewrite nth_error_app2 by (rewrite length_firstn; lia).
      rewrite length_firstn.
      rewrite nth_error_repeat by lia.
      apply nth_error_None in Hiv. rewrite Hiv. reflexivity.
  - apply nth_error_None. rewrite length_app, length_firstn, repeat_length. lia.
Qed.

Lemma resize_Forall {A : Type} (P : A -> Prop) (n : nat) (d : A) (v : list A) :
  P d -> Forall P v -> Forall P (resize n d v).
Proof.
  intros Hd Hv. apply Forall_forall. intros a Ha.
  apply In_nth_error in Ha. destruct Ha as [i Hi].
  rewrite resize_nth_error in Hi.
  destruct (i <? n); [| discriminate].
  destruct (nth_error v i) eqn:E.
  - injection Hi as <-. rewrite Forall_forall in Hv. apply Hv.
    eapply nth_error_In. exact E.
  - injection Hi as <-. exact Hd.
Qed.

Section Programmatic.

Import WetGasPvt.

Ltac fields :=
  cbn [oilPvt_ gasMolarMass_ oilMolarMass_ gasReferenceDensity_
       oilReferenceDensity_ inverseGasB_ gasMu_ inverseGasBMu_
       oilVaporizationFactorTable_ saturationPressureSpline_].

Ltac plain_types :=
  unfold T1.setContainerOfTuples, T1.t, Tabulated1DFunction.t,
    SamplingPoints, Spline, Scalar in *.

Ltac set_at r x Hr v' E :=
  match goal with
  | |- context [setAt ?v r x] =>
      destruct (setAt_lt v r x) as [v' E];
      [rewrite repeat_length; exact Hr | rewrite E; cbn [bind]]
  end.

(** X5.  On a new object sized by [setNumRegions(n)], the setters
    [setReferenceDensities], [setMolarMasses] and
    [setSaturatedGasOilVaporizationFactor] for a region [r < n] succeed
    and leave every vector sized to [n]; afterwards
    [saturatedGasOilMassFraction(r, T, p)] is
    [Rv*rhoRefOil / (rhoRefGas + Rv*rhoRefOil)] with [Rv] the supplied
    table at [p].  For [r >= n] the first setter writes beyond its
    vector. *)
Theorem setters_then_forward_map :
  forall (n r : nat) (rhoRefOil rhoRefGas rhoRefWater MOil MGas MWater : Scalar)
         (samplePoints : SamplingPoints),
    let g0 := setNumRegions fresh n in
    let configured :=
      g1 <- setReferenceDensities g0 r rhoRefOil rhoRefGas rhoRefWater ;;
      g2 <- setMolarMasses g1 r MOil MGas MWater ;;
      setSaturatedGasOilVaporizationFactor g2 r samplePoints in
    (r < n ->
     exists g3,
       configured = Ok g3
       /\ Conditions.wetGasSized g3
       /\ Conditions.numRegions g3 = n
       /\ forall T p,
            saturatedGasOilMassFraction g3 r T p
            = (Rv <- T1.eval samplePoints p true ;;
               Ok (Rv * rhoRefOil / (rhoRefGas + Rv * rhoRefOil))%Qc))
    /\ (n <= r -> configured = Undefined).
Proof.
  intros n r rhoRefOil rhoRefGas rhoRefWater MOil MGas MWater samplePoints
         g0 configured.
  assert (E0 : g0 = mk None (repeat 0%Qc n) (repeat 0%Qc n) (repeat 0%Qc n)
                      (repeat 0%Qc n) (repeat [] n) (repeat [] n) (repeat [] n)
                      (repeat [] n) (repeat [] n)).
  { unfold g0, setNumRegions, fresh. fields.
    rewrite !resize_fresh. reflexivity. }
  unfold configured. rewrite E0. clear E0. split.
  - intro Hr.
    unfold setReferenceDensities, setMolarMasses,
      setSaturatedGasOilVaporizationFactor.
    fields. plain_types.
    set_at r rhoRefOil Hr oR EoR. set_at r rhoRefGas Hr gR EgR.
    fields. plain_types.
    set_at r MOil Hr oM EoM. set_at r MGas Hr gM EgM.
    fields. plain_types.
    set_at r samplePoints Hr rv Erv.
    eexists. split; [reflexivity |].
    unfold Conditions.wetGasSized, Conditions.numRegions. fields. plain_types.
    rewrite (setAt_length _ _ _ _ EoR), (setAt_length _ _ _ _ EgR),
      (setAt_length _ _ _ _ EoM), (setAt_length _ _ _ _ EgM),
      (setAt_length _ _ _ _ Erv), !repeat_length.
    split; [repeat split |]. split; [reflexivity |].
    intros T p. unfold saturatedGasOilMassFraction, oilVaporizationFactor.
    fields. plain_types.
    rewrite (proj2 (at_Ok _ _ _) (setAt_same _ _ _ _ EgR)),
      (proj2 (at_Ok _ _ _) (setAt_same _ _ _ _ EoR)),
      (proj2 (at_Ok _ _ _) (setAt_same _ _ _ _ Erv)).
    reflexivity.
  - intro Hr. unfold setReferenceDensities. fields.
    rewrite setAt_beyond by (rewrite repeat_length; exact Hr). reflexivity.
Qed.

End Programmatic.

(* ------------------------------------------------------------------ *)
(** ** The saturation-pressure spline *)

Section SplineNodes.

Import WetGasPvt.

Lemma ofNat_S (n : nat) : ofNat (n + 1) = (ofNat n + 1)%Qc.
Proof.
  unfold ofNat. apply Qc_is_canon. unfold Qcplus, Q2Qc. cbn [this].
  rewrite !Qred_correct. unfold Qeq, Qplus. simpl. lia.
Qed.

Lemma ofNat_S_neq_0 (n : nat) : ofNat (n + 1) <> 0%Qc.
Proof.
  unfold ofNat. intro E. apply (f_equal this) in E. cbn [this Q2Qc] in E.
  assert (Hz : ((Z.of_nat (n + 1) # 1) == 0)%Q).
  { rewrite <- (Qred_correct (Z.of_nat (n + 1) # 1)). rewrite E. reflexivity. }
  unfold Qeq in Hz. simpl in Hz. lia.
Qed.

Lemma pSatSamplePoints_run (g : t) (r : nat) (lo delta : Scalar) :
  Conditions.wetGasSized g -> r < Conditions.numRegions g ->
  Conditions.tabulated g r ->
  forall idxs,
    pSatSamplePoints g r lo delta idxs
    = Ok (map (fun i => (Conditions.massFractionAt g r (lo + ofNat i * delta)%Qc,
                         (lo + ofNat i * delta)%Qc)) idxs).
Proof.
  intros Hs Hr Ht. induction idxs as [| i idxs IH]; [reflexivity |].
  cbn [pSatSamplePoints map].
  rewrite (saturatedGasOilMassFraction_defined g r _ _ Hs Hr Ht). cbn [bind].
  rewrite IH. reflexivity.
Qed.

Lemma xMin_defined (tab : T1.t) :
  1 <= length tab -> exists lo, T1.xMin tab = Ok lo.
Proof. destruct tab as [| [x y] tab]; simpl; [lia | eauto]. Qed.

Lemma xMax_defined (tab : T1.t) :
  1 <= length tab -> exists hi, T1.xMax tab = Ok hi.
Proof.
  intro Hlen. unfold T1.xMax. destruct (rev tab) as [| [x y] l] eqn:E; [| eauto].
  apply (f_equal (@length _)) in E. rewrite length_rev in E. simpl in E. lia.
Qed.

Lemma updateSaturationPressureSpline_run (g : t) (r : nat) (tab : T1.t)
    (lo hi : Scalar) :
  Conditions.wetGasSized g -> r < Conditions.numRegions g ->
  nth_error (oilVaporizationFactorTable_ g) r = Some tab -> 2 <= length tab ->
  T1.xMin tab = Ok lo -> T1.xMax tab = Ok hi ->
  exists spl,
    setAt (saturationPressureSpline_ g) r
      (Conditions.splineNodes g r lo
         ((hi - lo) / ofNat (T1.numSamples tab * 5 + 1))%Qc
         (T1.numSamples tab * 5 + 1)) = Ok spl
    /\ updateSaturationPressureSpline_ g r
       = Ok (mk (oilPvt_ g) (gasMolarMass_ g) (oilMolarMass_ g)
                (gasReferenceDensity_ g) (oilReferenceDensity_ g)
                (inverseGasB_ g) (gasMu_ g) (inverseGasBMu_ g)
                (oilVaporizationFactorTable_ g) spl).
Proof.
  intros Hs Hr Htab Hlen Hlo Hhi.
  assert (Ht : Conditions.tabulated g r) by (exists tab; split; assumption).
  destruct (setAt_lt (saturationPressureSpline_ g) r
              (Conditions.splineNodes g r lo
                 ((hi - lo) / ofNat (T1.numSamples tab * 5 + 1))%Qc
                 (T1.numSamples tab * 5 + 1))) as [spl Espl].
  { destruct Hs as [_ [_ [_ [_ [_ Hspl]]]]]. lia. }
  exists spl. split; [exact Espl |].
  unfold updateSaturationPressureSpline_.
  apply at_Ok in Htab. rewrite Htab. cbn [bind]. rewrite Hhi, Hlo. cbn [bind].
  rewrite (pSatSamplePoints_run g r _ _ Hs Hr Ht). cbn [bind].
  unfold Conditions.splineNodes in Espl. rewrite Espl. reflexivity.
Qed.

(** X6.  For a region whose vaporization factor is tabulated with
    [numSamples] samples on [xMin, xMax], [updateSaturationPressureSpline_]
    fits the spline of the region to [n + 1] points, [n = 5*numSamples]:
    point [i] is the pressure [xMin + i*delta],
    [delta = (xMax - xMin)/(n + 1)], paired with its saturated mass
    fraction, an exact pair of the forward map.  The last pressure is
    [xMax - delta]: the upper end of the table is not among the points. *)
Theorem updateSaturationPressureSpline_nodes :
  forall (g : t) (r : nat) (tab : T1.t) (lo hi : Scalar),
    Conditions.wetGasSized g -> r < Conditions.numRegions g ->
    nth_error (oilVaporizationFactorTable_ g) r = Some tab -> 2 <= length tab ->
    T1.xMin tab = Ok lo -> T1.xMax tab = Ok hi ->
    let n := T1.numSamples tab * 5 in
    let delta := ((hi - lo) / ofNat (n + 1))%Qc in
    exists g' spl,
      updateSaturationPressureSpline_ g r = Ok g'
      /\ nth_error (saturationPressureSpline_ g') r = Some spl
      /\ length spl = n + 1
      /\ (forall i, i <= n ->
            exists XgO,
              nth_error spl i = Some (XgO, (lo + ofNat i * delta)%Qc)
              /\ forall T,
                   saturatedGasOilMassFraction g' r T (lo + ofNat i * delta)%Qc
                   = Ok XgO)
      /\ (lo + ofNat n * delta + delta = hi)%Qc.
Proof.
  intros g r tab lo hi Hs Hr Htab Hlen Hlo Hhi n delta.
  destruct (updateSaturationPressureSpline_run g r tab lo hi Hs Hr Htab Hlen Hlo Hhi)
    as [spl [Espl Erun]].
  eexists. exists (Conditions.splineNodes g r lo delta (n + 1)).
  split; [exact Erun |]. cbn [saturationPressureSpline_].
  split; [eapply setAt_same; exact Espl |].
  split; [unfold Conditions.splineNodes; rewrite length_map, length_seq;
          reflexivity |].
  split.
  - intros i Hi.
    exists (Conditions.massFractionAt g r (lo + ofNat i * delta)%Qc). split.
    + unfold Conditions.splineNodes. rewrite nth_error_map, nth_error_seq.
      destruct (Nat.ltb_spec i (n + 1)); [| lia]. reflexivity.
    + intro T.
      apply (saturatedGasOilMassFraction_defined g r T _ Hs Hr).
      exists tab. split; assumption.
  - unfold delta. pose proof (ofNat_S_neq_0 n) as Hne. rewrite ofNat_S in *.
    unfold Scalar in *. field. exact Hne.
Qed.

End SplineNodes.

(* ------------------------------------------------------------------ *)
(** ** setSaturatedGasViscosity *)

Section SaturatedViscosity.

Import WetGasPvt.

Variable splineEval : Spline -> Scalar -> Scalar.

Lemma saturatedViscositySamples_run (samplePoints : SamplingPoints)
    (poMin poMax : Scalar) (nP : nat) (P : T2.t) (x : Scalar) :
  forall (n k : nat) (acc : list (Scalar * Scalar)),
    forM (seq k n)
         (saturatedViscositySample splineEval samplePoints poMin poMax nP (length P))
         (P ++ [(x, acc)])
    = (Ok tt,
       P ++ [(x, acc ++ map (fun pIdx =>
                               let pg := (poMin + (poMax - poMin) * ofNat pIdx
                                                  / ofNat nP)%Qc in
                               (pg, splineEval samplePoints pg))
                            (seq k n))]).
Proof.
  induction n as [| n IH]; intros k acc.
  - simpl. rewrite app_nil_r. reflexivity.
  - cbn [seq forM map].
    erewrite bindM_Ok.
    2:{ unfold saturatedViscositySample. apply modifyR_Ok.
        unfold T2.appendSamplePoint. rewrite appendAt_last. reflexivity. }
    rewrite IH. rewrite <- app_assoc. reflexivity.
Qed.

Lemma saturatedViscosityColumns_run (samplePoints : SamplingPoints)
    (RvMin RvMax poMin poMax : Scalar) (nRv nP : nat) :
  forall (n k : nat),
    forM (seq k n)
         (saturatedViscosityColumn splineEval samplePoints RvMin RvMax poMin poMax
            nRv nP)
         (map (fun RvIdx =>
                 ((RvMin + (RvMax - RvMin) * ofNat RvIdx / ofNat nRv)%Qc,
                  Conditions.viscosityColumn splineEval samplePoints poMin poMax nP))
              (seq 0 k))
    = (Ok tt,
       map (fun RvIdx =>
              ((RvMin + (RvMax - RvMin) * ofNat RvIdx / ofNat nRv)%Qc,
               Conditions.viscosityColumn splineEval samplePoints poMin poMax nP))
           (seq 0 (k + n))).
Proof.
  induction n as [| n IH]; intro k.
  - rewrite Nat.add_0_r. reflexivity.
  - cbn [seq forM].
    erewrite bindM_Ok.
    2:{ unfold saturatedViscosityColumn.
        erewrite bindM_Ok by reflexivity.
        unfold T2.appendXPos.
        pose proof (saturatedViscositySamples_run samplePoints poMin poMax nP
                      (map (fun RvIdx =>
                              ((RvMin + (RvMax - RvMin) * ofNat RvIdx / ofNat nRv)%Qc,
                               Conditions.viscosityColumn splineEval samplePoints
                                 poMin poMax nP))
                           (seq 0 k))
                      (RvMin + (RvMax - RvMin) * ofNat k / ofNat nRv)%Qc
                      nP 0 []) as Hrun.
        rewrite length_map, length_seq in Hrun. exact Hrun. }
    cbn [app].
    fold (Conditions.viscosityColumn splineEval samplePoints poMin poMax nP).
    replace (k + S n) with (S k + n) by lia.
    rewrite <- (IH (S k)). f_equal.
    rewrite seq_S, map_app. reflexivity.
Qed.

(** X7.  On a region whose viscosity table is still empty,
    [setSaturatedGasViscosity(r, samplePoints)] builds a table of 20 outer
    positions [RvMin + (RvMax - RvMin)*RvIdx/20] with [RvMin = 0] and
    [RvMax] the vaporization factor at the upper end of its table; every
    one of the 20 positions receives the same [2*size] samples, the
    pressures [poMin + (poMax - poMin)*pIdx/(2*size)] with the spline fitted
    to [samplePoints] at them: the stored viscosity does not depend on the
    outer position. *)
Theorem setSaturatedGasViscosity_columns :
  forall (g : t) (r : nat) (samplePoints : SamplingPoints) (tab : T1.t)
         (hi RvMax : Scalar) (first_ last_ : Scalar * Scalar),
    nth_error (oilVaporizationFactorTable_ g) r = Some tab ->
    T1.xMax tab = Ok hi -> T1.eval tab hi true = Ok RvMax ->
    front samplePoints = Ok first_ -> back samplePoints = Ok last_ ->
    nth_error (gasMu_ g) r = Some [] ->
    exists g' gasMu',
      setSaturatedGasViscosity splineEval g r samplePoints = Ok g'
      /\ nth_error (gasMu_ g') r = Some gasMu'
      /\ T2.numX gasMu' = 20
      /\ forall RvIdx, RvIdx < 20 ->
           T2.xAt gasMu' RvIdx
           = Ok (0 + (RvMax - 0) * ofNat RvIdx / ofNat 20)%Qc
           /\ T2.samples gasMu' RvIdx
              = Conditions.viscosityColumn splineEval samplePoints
                  (fst first_) (fst last_) (length samplePoints * 2).
Proof.
  intros g r samplePoints tab hi RvMax first_ last_
         Htab Hhi HRv Hfirst Hlast Hmu.
  assert (Hr : r < length (gasMu_ g)) by (apply nth_error_Some; congruence).
  pose proof (saturatedViscosityColumns_run samplePoints 0%Qc RvMax
                (fst first_) (fst last_) 20 (length samplePoints * 2) 20 0)
    as Hrun.
  simpl (seq 0 0) in Hrun. cbn [map] in Hrun.
  match type of Hrun with _ = (Ok tt, ?tabMu) => set (gasMu' := tabMu) in * end.
  destruct (setAt_lt (gasMu_ g) r gasMu' Hr) as [v Ev].
  eexists. exists gasMu'. split.
  - unfold setSaturatedGasViscosity.
    apply at_Ok in Htab. rewrite Htab. cbn [bind]. rewrite Hhi. cbn [bind].
    rewrite HRv. cbn [bind]. rewrite Hfirst. cbn [bind]. rewrite Hlast.
    cbn [bind]. apply at_Ok in Hmu. rewrite Hmu. cbn [bind].
    cbv zeta.
    match goal with
    | |- context [forM ?l ?f ?s] =>
        assert (E : forM l f s = (Ok tt, gasMu')) by exact Hrun; rewrite E
    end.
    cbn [bind]. rewrite Ev. reflexivity.
  - cbn [gasMu_]. split; [eapply setAt_same; exact Ev |].
    split; [reflexivity |].
    intros RvIdx HRvIdx.
    do 20 (destruct RvIdx as [| RvIdx]; [split; reflexivity |]). lia.
Qed.

End SaturatedViscosity.

(* ------------------------------------------------------------------ *)
(** ** initEnd of the wet gas: the table of 1/(Bg*mug) *)

Lemma combine_app_same {A B : Type} (l1 l2 : list A) (l1' l2' : list B) :
  length l1 = length l1' ->
  combine (l1 ++ l2) (l1' ++ l2') = combine l1 l1' ++ combine l2 l2'.
Proof.
  revert l1'. induction l1 as [| a l1 IH]; intros [| b l1'] Hlen;
    simpl in *; try discriminate; try reflexivity.
  f_equal. apply IH. lia.
Qed.

Lemma Forall2_pointwise {A B : Type} (P : A -> B -> Prop) (l : list A) :
  forall l',
    length l = length l' ->
    (forall i, i < length l ->
       exists a b, nth_error l i = Some a /\ nth_error l' i = Some b /\ P a b) ->
    Forall2 P l l'.
Proof.
  induction l as [| a l IH]; intros [| b l'] Hlen Hall; simpl in Hlen;
    try discriminate; constructor.
  - destruct (Hall 0) as [a' [b' [Ea [Eb Hp]]]]; [simpl; lia |].
    simpl in Ea, Eb. congruence.
  - apply IH; [lia |]. intros i Hi.
    destruct (Hall (S i)) as [a' [b' [Ea [Eb Hp]]]]; [simpl; lia |].
    eauto.
Qed.

Lemma bindM_Ok_inv {S A B : Type} (m : M S A) (k : A -> M S B) (s s' : S) (b : B) :
  bindM m k s = (Ok b, s') ->
  exists a s1, m s = (Ok a, s1) /\ k a s1 = (Ok b, s').
Proof.
  unfold bindM. destruct (m s) as [[a | e |] s1]; intro E;
    try discriminate. eauto.
Qed.

Lemma bindM_Undefined {S A B : Type} (m : M S A) (k : A -> M S B) (s s' : S) :
  m s = (Undefined, s') -> bindM m k s = (Undefined, s').
Proof. intro E. unfold bindM. rewrite E. reflexivity. Qed.

Section InitEnd.

Import WetGasPvt.

Ltac fields :=
  cbn [oilPvt_ gasMolarMass_ oilMolarMass_ gasReferenceDensity_
       oilReferenceDensity_ inverseGasB_ gasMu_ inverseGasBMu_
       oilVaporizationFactorTable_ saturationPressureSpline_].

Lemma initEndSamples_run (gasMu invGasB : T2.t) (pIdx : nat) (xm xb : Scalar)
    (mu : list (Scalar * Scalar)) :
  forall (b premu preb : list (Scalar * Scalar)) (P : T2.t) (x : Scalar)
         (acc : list (Scalar * Scalar)),
    nth_error gasMu pIdx = Some (xm, premu ++ mu) ->
    nth_error invGasB pIdx = Some (xb, preb ++ b) ->
    length premu = length preb -> length mu = length b ->
    length P = pIdx ->
    forM (seq (length premu) (length mu))
         (fun rvIdx =>
            y <~ liftR (T2.yAt gasMu pIdx rvIdx) ;;
            b <~ liftR (T2.valueAt invGasB pIdx rvIdx) ;;
            m <~ liftR (T2.valueAt gasMu pIdx rvIdx) ;;
            modifyR (fun invGasBMu =>
                       T2.appendSamplePoint invGasBMu pIdx y (b * 1 / m)%Qc))
         (P ++ [(x, acc)])
    = (Ok tt, P ++ [(x, acc ++ Conditions.productColumn mu b)]).
Proof.
  induction mu as [| [y m] mu IH]; intros b premu preb P x acc Hmu Hb Hpre Hlen HP.
  - simpl. rewrite app_nil_r. reflexivity.
  - destruct b as [| [yb vb] b]; [discriminate |].
    cbn [length seq forM].
    erewrite bindM_Ok.
    2:{ erewrite bindM_Ok.
        2:{ unfold liftR, T2.yAt. apply at_Ok in Hmu. rewrite Hmu.
            cbn [bind snd]. rewrite at_middle. reflexivity. }
        erewrite bindM_Ok.
        2:{ unfold liftR, T2.valueAt. apply at_Ok in Hb. rewrite Hb.
            cbn [bind snd]. rewrite Hpre. rewrite at_middle. reflexivity. }
        erewrite bindM_Ok.
        2:{ unfold liftR, T2.valueAt. apply at_Ok in Hmu. rewrite Hmu.
            cbn [bind snd]. rewrite at_middle. reflexivity. }
        apply modifyR_Ok. unfold T2.appendSamplePoint. rewrite <- HP.
        rewrite appendAt_last. reflexivity. }
    cbn [fst snd].
    replace (S (length premu)) with (length (premu ++ [(y, m)]))
      by (rewrite length_app; simpl; lia).
    rewrite (IH b (premu ++ [(y, m)]) (preb ++ [(yb, vb)])).
    + rewrite <- app_assoc. reflexivity.
    + rewrite <- app_assoc. exact Hmu.
    + rewrite <- app_assoc. exact Hb.
    + rewrite !length_app. simpl. lia.
    + simpl in Hlen. lia.
    + exact HP.
Qed.

Lemma initEndColumn_run (gasMu invGasB : T2.t) (pIdx : nat) (xm xb : Scalar)
    (mu b : list (Scalar * Scalar)) (P : T2.t) :
  nth_error gasMu pIdx = Some (xm, mu) ->
  nth_error invGasB pIdx = Some (xb, b) ->
  length mu = length b -> length P = pIdx ->
  initEndColumn gasMu invGasB pIdx P
  = (Ok tt, P ++ [(xm, Conditions.productColumn mu b)]).
Proof.
  intros Hmu Hb Hlen HP. unfold initEndColumn.
  erewrite bindM_Ok.
  2:{ unfold liftR, T2.xAt. apply at_Ok in Hmu. rewrite Hmu. reflexivity. }
  erewrite bindM_Ok by reflexivity.
  erewrite bindM_Ok.
  2:{ unfold liftR, T2.numY. apply at_Ok in Hmu. rewrite Hmu. reflexivity. }
  erewrite bindM_Ok.
  2:{ unfold liftR, T2.numY. apply at_Ok in Hb. rewrite Hb. reflexivity. }
  cbn [fst snd]. rewrite Hlen, Nat.eqb_refl.
  erewrite bindM_Ok by reflexivity.
  cbv zeta. unfold T2.appendXPos. rewrite <- Hlen.
  apply (initEndSamples_run gasMu invGasB pIdx xm xb mu b [] [] P xm []);
    try assumption; reflexivity.
Qed.

Lemma initEndColumns_run (gasMu invGasB : T2.t) :
  forall (sufMu sufB preMu preB : T2.t),
    gasMu = preMu ++ sufMu -> invGasB = preB ++ sufB ->
    length preMu = length preB ->
    Conditions.sameShape sufMu sufB ->
    forM (seq (length preMu) (length sufMu)) (initEndColumn gasMu invGasB)
         (Conditions.productTable preMu preB)
    = (Ok tt, Conditions.productTable gasMu invGasB).
Proof.
  induction sufMu as [| [xm mu] sufMu IH];
    intros sufB preMu preB EMu EB Hpre Hshape.
  - inversion Hshape; subst. simpl. rewrite !app_nil_r. reflexivity.
  - inversion Hshape as [| c [xb b] l l' Hcol Hrest]; subst. cbn [snd] in Hcol.
    cbn [length seq forM].
    erewrite bindM_Ok.
    2:{ eapply (initEndColumn_run _ _ _ xm xb mu b).
        - rewrite nth_error_app2 by lia. rewrite Nat.sub_diag. reflexivity.
        - rewrite Hpre. rewrite nth_error_app2 by lia. rewrite Nat.sub_diag.
          reflexivity.
        - exact Hcol.
        - unfold Conditions.productTable. rewrite length_map, length_combine.
          lia. }
    replace (S (length preMu)) with (length (preMu ++ [(xm, mu)]))
      by (rewrite length_app; simpl; lia).
    replace (Conditions.productTable preMu preB
             ++ [(xm, Conditions.productColumn mu b)])
      with (Conditions.productTable (preMu ++ [(xm, mu)]) (preB ++ [(xb, b)])).
    + apply (IH l' (preMu ++ [(xm, mu)]) (preB ++ [(xb, b)])).
      * rewrite <- app_assoc. reflexivity.
      * rewrite <- app_assoc. reflexivity.
      * rewrite !length_app. simpl. lia.
      * exact Hrest.
    + unfold Conditions.productTable. rewrite combine_app_same by exact Hpre.
      rewrite map_app. reflexivity.
Qed.

Lemma initEndRegion_run (g0 g : t) (k : nat) :
  Conditions.finalizable g0 -> Conditions.finalizedBelow g0 g k ->
  k < Conditions.numRegions g0 ->
  exists g', initEndRegion g k = Ok g' /\ Conditions.finalizedBelow g0 g' (S k).
Proof.
  intros [Hs [HlenB [HlenBMu Hreg]]] Hinv Hk.
  destruct Hinv as [I1 [I2 [I3 [I4 [I5 [I6 [I7 [I8 [I9 [I10 I11]]]]]]]]]].
  destruct (Hreg k Hk) as [[tab [Htab Htlen]] [_ Hshape]].
  pose proof (I11 k Hk) as Hempty. rewrite Nat.ltb_irrefl in Hempty.
  assert (Hmu : nth_error (gasMu_ g0) k = Some (nth k (gasMu_ g0) []))
    by (apply nth_error_nth'; exact Hk).
  assert (Hb : nth_error (inverseGasB_ g0) k = Some (nth k (inverseGasB_ g0) []))
    by (apply nth_error_nth'; lia).
  set (mu := nth k (gasMu_ g0) []) in *.
  set (b := nth k (inverseGasB_ g0) []) in *.
  destruct (setAt_lt (inverseGasBMu_ g) k (Conditions.productTable mu b))
    as [v Ev]; [lia |].
  destruct (xMin_defined tab) as [lo Hlo]; [lia |].
  destruct (xMax_defined tab) as [hi Hhi]; [lia |].
  set (g1 := mk (oilPvt_ g) (gasMolarMass_ g) (oilMolarMass_ g)
                (gasReferenceDensity_ g) (oilReferenceDensity_ g)
                (inverseGasB_ g) (gasMu_ g) v
                (oilVaporizationFactorTable_ g) (saturationPressureSpline_ g)).
  assert (Hs1 : Conditions.wetGasSized g1).
  { destruct Hs as [S1 [S2 [S3 [S4 [S5 S6]]]]].
    unfold Conditions.wetGasSized, Conditions.numRegions in *. unfold g1. cbn.
    rewrite I1, I2, I3, I4, I5, I6, I9. repeat split; assumption. }
  assert (Hr1 : k < Conditions.numRegions g1).
  { unfold Conditions.numRegions, g1 in *. cbn. rewrite I6. exact Hk. }
  destruct (updateSaturationPressureSpline_run g1 k tab lo hi Hs1 Hr1)
    as [spl [Espl Erun]]; try assumption.
  { unfold g1. cbn. rewrite I5. exact Htab. }
  eexists. split.
  - unfold initEndRegion. rewrite I6, I7.
    apply at_Ok in Hmu. apply at_Ok in Hb. rewrite Hmu, Hb. cbn [bind].
    assert (Hnum : T2.numX mu = T2.numX b)
      by (unfold T2.numX; eapply Forall2_length; exact Hshape).
    rewrite Hnum, Nat.eqb_refl. cbn [assert bind].
    apply at_Ok in Hempty. rewrite Hempty. cbn [bind].
    rewrite <- Hnum.
    pose proof (initEndColumns_run mu b mu b [] [] eq_refl eq_refl eq_refl Hshape)
      as Hcols.
    cbn [length] in Hcols. unfold Conditions.productTable at 1 in Hcols.
    cbn [combine map] in Hcols. unfold T2.numX. rewrite Hcols.
    cbn [bind]. rewrite Ev. cbn [bind]. rewrite <- I6, <- I7. exact Erun.
  - unfold Conditions.finalizedBelow, g1. fields.
    rewrite (setAt_length _ _ _ _ Espl), (setAt_length _ _ _ _ Ev).
    repeat split; try assumption.
    intros r Hr. rewrite (setAt_nth_error _ _ _ _ Ev r).
    destruct (Nat.eqb_spec r k) as [-> | Hne].
    + destruct (Nat.ltb_spec k (S k)); [reflexivity | lia].
    + rewrite (I11 r Hr).
      destruct (Nat.ltb_spec r k), (Nat.ltb_spec r (S k)); try reflexivity; lia.
Qed.

Lemma initEndRegions_run (g0 : t) (n : nat) :
  Conditions.finalizable g0 ->
  forall k g,
    k + n = Conditions.numRegions g0 -> Conditions.finalizedBelow g0 g k ->
    exists g', initEndRegions g (seq k n) = Ok g'
               /\ Conditions.finalizedBelow g0 g' (Conditions.numRegions g0).
Proof.
  intro Hfin. induction n as [| n IH]; intros k g Hkn Hinv.
  - exists g. split; [reflexivity |].
    replace (Conditions.numRegions g0) with k by lia. exact Hinv.
  - destruct (initEndRegion_run g0 g k Hfin Hinv) as [g1 [E1 Hinv1]]; [lia |].
    destruct (IH (S k) g1) as [g' [E Hinv']]; [lia | exact Hinv1 |].
    exists g'. split; [| exact Hinv'].
    cbn [seq initEndRegions]. rewrite E1. exact E.
Qed.

Lemma initEnd_run (g : t) (oilPvt : OilPvtMultiplexer.addr) :
  Conditions.finalizable g ->
  exists g',
    initEnd g oilPvt = Ok g'
    /\ oilPvt_ g' = Some oilPvt
    /\ gasMu_ g' = gasMu_ g
    /\ inverseGasB_ g' = inverseGasB_ g
    /\ forall r, r < Conditions.numRegions g ->
         nth_error (inverseGasBMu_ g') r
         = Some (Conditions.productTable (nth r (gasMu_ g) [])
                                         (nth r (inverseGasB_ g) [])).
Proof.
  intros Hfin.
  set (g0 := mk (Some oilPvt) (gasMolarMass_ g) (oilMolarMass_ g)
               (gasReferenceDensity_ g) (oilReferenceDensity_ g)
               (inverseGasB_ g) (gasMu_ g) (inverseGasBMu_ g)
               (oilVaporizationFactorTable_ g) (saturationPressureSpline_ g)).
  assert (Hfin0 : Conditions.finalizable g0) by exact Hfin.
  assert (Hinv0 : Conditions.finalizedBelow g0 g0 0).
  { unfold Conditions.finalizedBelow. repeat split; try reflexivity.
    intros r Hr. cbn [Nat.ltb Nat.leb]. destruct Hfin0 as [_ [_ [_ Hreg]]].
    apply (Hreg r Hr). }
  destruct (initEndRegions_run g0 (Conditions.numRegions g0) Hfin0 0 g0
              eq_refl Hinv0) as [g' [E Hinv]].
  exists g'. split; [exact E |].
  destruct Hinv as [_ [_ [_ [_ [_ [I6 [I7 [I8 [_ [_ I11]]]]]]]]]].
  split; [exact I8 |]. split; [exact I6 |]. split; [exact I7 |].
  intros r Hr. rewrite (I11 r Hr).
  destruct (Nat.ltb_spec r (Conditions.numRegions g0)) as [_ | Hge];
    [reflexivity |].
  exfalso. unfold Conditions.numRegions in *. cbn in Hge. lia.
Qed.

(** X8.  On an object whose vectors are all sized to the number of
    regions and whose regions each have a tabulated vaporization factor,
    two tables of the same shape and an empty table of [1/(Bg*mug)],
    [initEnd(oilPvt)] succeeds, stores the pointer, leaves the tables of
    [1/Bg] and of the viscosity as they are, and fills the table of
    [1/(Bg*mug)] of every region with the outer positions and sample
    positions of the viscosity table and the values [invGasB * 1 / gasMu]. *)
Theorem initEnd_product_tables :
  forall (g : t) (oilPvt : OilPvtMultiplexer.addr),
    Conditions.finalizable g ->
    exists g',
      initEnd g oilPvt = Ok g'
      /\ oilPvt_ g' = Some oilPvt
      /\ gasMu_ g' = gasMu_ g
      /\ inverseGasB_ g' = inverseGasB_ g
      /\ forall r, r < Conditions.numRegions g ->
           nth_error (inverseGasBMu_ g') r
           = Some (Conditions.productTable (nth r (gasMu_ g) [])
                                           (nth r (inverseGasB_ g) [])).
Proof. intros g oilPvt Hfin. exact (initEnd_run g oilPvt Hfin). Qed.

Lemma initEndColumn_Ok_inv (gasMu invGasB : T2.t) (pIdx : nat) (P P' : T2.t) :
  initEndColumn gasMu invGasB pIdx P = (Ok tt, P') ->
  exists cm cb,
    nth_error gasMu pIdx = Some cm /\ nth_error invGasB pIdx = Some cb
    /\ length (snd cm) = length (snd cb).
Proof.
  unfold initEndColumn. intro E.
  apply bindM_Ok_inv in E. destruct E as [x [s1 [E1 E]]].
  apply bindM_Ok_inv in E. destruct E as [u [s2 [_ E]]].
  apply bindM_Ok_inv in E. destruct E as [nMu [s3 [E3 E]]].
  apply bindM_Ok_inv in E. destruct E as [nB [s4 [E4 E]]].
  apply bindM_Ok_inv in E. destruct E as [u5 [s5 [E5 _]]].
  unfold liftR in E3, E4, E5.
  injection E3 as E3 _. injection E4 as E4 _. injection E5 as E5 _.
  unfold T2.numY in E3, E4.
  apply bind_Ok_inv in E3. destruct E3 as [cm [Hcm E3]].
  apply bind_Ok_inv in E4. destruct E4 as [cb [Hcb E4]].
  injection E3 as <-. injection E4 as <-.
  exists cm, cb. apply at_Ok in Hcm. apply at_Ok in Hcb.
  split; [exact Hcm |]. split; [exact Hcb |].
  unfold assert in E5.
  destruct (Nat.eqb_spec (length (snd cm)) (length (snd cb)));
    [assumption | discriminate].
Qed.

Lemma initEndColumns_Ok_inv (gasMu invGasB : T2.t) (l : list nat) :
  forall P P',
    forM l (initEndColumn gasMu invGasB) P = (Ok tt, P') ->
    forall pIdx, In pIdx l ->
      exists cm cb,
        nth_error gasMu pIdx = Some cm /\ nth_error invGasB pIdx = Some cb
        /\ length (snd cm) = length (snd cb).
Proof.
  induction l as [| i l IH]; intros P P' E pIdx Hin; [destruct Hin |].
  cbn [forM] in E. apply bindM_Ok_inv in E. destruct E as [[] [P1 [E1 E]]].
  destruct Hin as [<- | Hin].
  - eapply initEndColumn_Ok_inv. exact E1.
  - eapply IH; eassumption.
Qed.

Lemma initEndRegion_Ok_inv (g g' : t) (r : nat) :
  initEndRegion g r = Ok g' ->
  gasMu_ g' = gasMu_ g /\ inverseGasB_ g' = inverseGasB_ g
  /\ exists mu b,
       nth_error (gasMu_ g) r = Some mu /\ nth_error (inverseGasB_ g) r = Some b
       /\ Conditions.sameShape mu b.
Proof.
  unfold initEndRegion. intro E.
  apply bind_Ok_inv in E. destruct E as [mu [Hmu E]].
  apply bind_Ok_inv in E. destruct E as [b [Hb E]].
  apply bind_Ok_inv in E. destruct E as [u [Hnum E]].
  apply bind_Ok_inv in E. destruct E as [bmu [_ E]].
  destruct (forM (seq 0 (T2.numX mu)) (initEndColumn mu b) bmu)
    as [res bmu'] eqn:Hloop.
  apply bind_Ok_inv in E. destruct E as [u' [Hres E]]. subst res.
  apply bind_Ok_inv in E. destruct E as [v [_ E]].
  unfold updateSaturationPressureSpline_ in E.
  apply bind_Ok_inv in E. destruct E as [tab [_ E]].
  apply bind_Ok_inv in E. destruct E as [hi [_ E]].
  apply bind_Ok_inv in E. destruct E as [lo [_ E]].
  apply bind_Ok_inv in E. destruct E as [pts [_ E]].
  apply bind_Ok_inv in E. destruct E as [spl [_ E]].
  injection E as <-. fields.
  split; [reflexivity |]. split; [reflexivity |].
  exists mu, b. apply at_Ok in Hmu. apply at_Ok in Hb.
  split; [exact Hmu |]. split; [exact Hb |].
  unfold assert in Hnum.
  destruct (Nat.eqb_spec (T2.numX mu) (T2.numX b)) as [Hx |]; [| discriminate].
  destruct u'.
  apply Forall2_pointwise; [exact Hx |].
  intros i Hi.
  apply (initEndColumns_Ok_inv mu b _ _ _ Hloop i). apply in_seq.
  unfold T2.numX. lia.
Qed.

Lemma initEndRegions_Ok_inv (regions : list nat) :
  forall g g',
    initEndRegions g regions = Ok g' ->
    gasMu_ g' = gasMu_ g /\ inverseGasB_ g' = inverseGasB_ g
    /\ forall r, In r regions ->
         exists mu b,
           nth_error (gasMu_ g) r = Some mu
           /\ nth_error (inverseGasB_ g) r = Some b
           /\ Conditions.sameShape mu b.
Proof.
  induction regions as [| r0 rest IH]; intros g g' E; cbn [initEndRegions] in E.
  - injection E as <-. split; [reflexivity |]. split; [reflexivity |].
    intros r [].
  - apply bind_Ok_inv in E. destruct E as [g1 [E1 E]].
    apply initEndRegion_Ok_inv in E1. destruct E1 as [M1 [B1 H1]].
    apply IH in E. destruct E as [M2 [B2 H2]].
    split; [congruence |]. split; [congruence |].
    intros r [<- | Hin]; [exact H1 |].
    rewrite <- M1, <- B1. apply H2. exact Hin.
Qed.

(** X9.  [initEnd] returns only if, in every region, the viscosity table
    and the table of [1/Bg] have the same number of outer positions and
    the same number of samples at each of them (the assertions of lines
    363 and 370 hold in every region). *)
Theorem initEnd_needs_same_shape :
  forall (g g' : t) (oilPvt : OilPvtMultiplexer.addr) (r : nat),
    initEnd g oilPvt = Ok g' ->
    r < length (gasMu_ g) ->
    exists mu b,
      nth_error (gasMu_ g) r = Some mu
      /\ nth_error (inverseGasB_ g) r = Some b
      /\ Conditions.sameShape mu b.
Proof.
  intros g g' oilPvt r E Hr. unfold initEnd in E.
  apply initEndRegions_Ok_inv in E. destruct E as [_ [_ Hall]].
  fields. cbn [gasMu_ inverseGasB_] in Hall. apply Hall. apply in_seq. lia.
Qed.

End InitEnd.

(* ------------------------------------------------------------------ *)
(** ** initFromDeck of the wet gas as a whole *)

Section DeckOutcome.

Import WetGasPvt.

Variable R : Scalar.

Ltac fields :=
  cbn [oilPvt_ gasMolarMass_ oilMolarMass_ gasReferenceDensity_
       oilReferenceDensity_ inverseGasB_ gasMu_ inverseGasBMu_
       oilVaporizationFactorTable_ saturationPressureSpline_].

Lemma stuck_last (tbl : PvtgTable) :
  1 <= length tbl ->
  Conditions.lastRowComplete tbl = false ->
  Conditions.stuck tbl (length tbl - 1).
Proof.
  intros Hlen Hlast. unfold Conditions.lastRowComplete in Hlast.
  apply Nat.ltb_ge in Hlast. split; [lia |].
  destruct (findMasterTable_spec tbl (length tbl - 1)) as [F1 _]; lia.
Qed.

Lemma not_stuck_when_last_complete (tbl : PvtgTable) (x : nat) :
  x < length tbl -> Conditions.lastRowComplete tbl = true ->
  ~ Conditions.stuck tbl x.
Proof.
  intros Hx Hlast [Hdef Hno]. unfold Conditions.lastRowComplete in Hlast.
  apply Nat.ltb_lt in Hlast.
  destruct (Nat.eq_dec x (length tbl - 1)) as [-> | Hne]; [lia |].
  destruct (findMasterTable_spec tbl x Hx) as [_ [_ F3]].
  specialize (F3 Hno (length tbl - 1)). lia.
Qed.

Lemma initRegions_ok (deck : Deck) :
  Conditions.validDeck deck ->
  (forall tbl, In tbl (pvtgTables deck) -> Conditions.lastRowComplete tbl = true) ->
  forall (n k : nat) (g : t),
    k + n = length (pvtgTables deck) ->
    (forall r', k <= r' -> r' < length (pvtgTables deck) ->
                Conditions.awaitsRegion g r') ->
    fst (forM (seq k n) (initRegionFromDeck R deck) g) = Ok tt.
Proof.
  intros [Hsize Hvalid] Hlast. induction n as [| n IH]; intros k g Hkn Hwait.
  - reflexivity.
  - destruct (nth_error (pvtgTables deck) k) as [tblk |] eqn:Htblk;
      [| apply nth_error_None in Htblk; lia].
    destruct (nth_error (densityKeyword deck) k) as [dk |] eqn:Hdk;
      [| apply nth_error_None in Hdk; lia].
    destruct (Hvalid tblk (nth_error_In _ _ Htblk)) as [Hlen Hne].
    destruct (initRegionFromDeck_outcome R deck k g dk tblk
                (Hwait k (Nat.le_refl k) ltac:(lia)) Hdk Htblk Hlen Hne)
      as [res [g' [Erun [Hframe Hres]]]].
    cbn [seq forM].
    destruct Hres as [[-> Hfree] | [-> [j [Hj Hst]]]].
    + rewrite (bindM_Ok _ _ g g' tt Erun).
      apply IH; [lia |].
      intros r' Hr1 Hr2. apply Hframe; [lia |]. apply Hwait; lia.
    + exfalso.
      apply (not_stuck_when_last_complete tblk j Hj
               (Hlast tblk (nth_error_In _ _ Htblk)) Hst).
Qed.

(** X10.  On a new object and a deck that passes the assertions of lines
    70, 95 and 130, [initFromDeck] succeeds exactly when the last outer
    row of every region's PVTG table has two or more inner samples;
    otherwise it ends in the [std::runtime_error] of line 148 (the last
    table must exhibit at least one entry for undersaturated gas). *)
Theorem initFromDeck_outcome :
  forall deck : Deck,
    Conditions.validDeck deck ->
    fst (initFromDeck R deck fresh)
    = if forallb Conditions.lastRowComplete (pvtgTables deck)
      then Ok tt else Throw invalidPvtg.
Proof.
  intros deck Hvalid. pose proof Hvalid as [Hsize Hrows].
  destruct (forallb Conditions.lastRowComplete (pvtgTables deck)) eqn:Hall.
  - unfold initFromDeck.
    rewrite (bindM_Ok _ _ fresh fresh tt)
      by (unfold liftR; rewrite Hsize, Nat.eqb_refl; reflexivity).
    rewrite (bindM_Ok _ _ fresh
               (setNumRegions fresh (length (pvtgTables deck))) tt)
      by reflexivity.
    apply (initRegions_ok deck Hvalid); [| lia |].
    + intros tbl Hin. rewrite forallb_forall in Hall. apply Hall, Hin.
    + intros r' _ Hr'. apply setNumRegions_fresh_awaits. exact Hr'.
  - apply (initFromDeck_throws R deck Hsize Hrows).
    assert (Hex : exists tbl, In tbl (pvtgTables deck)
                              /\ Conditions.lastRowComplete tbl = false).
    { clear - Hall. induction (pvtgTables deck) as [| tbl l IH];
        [discriminate |].
      cbn [forallb] in Hall. apply andb_false_iff in Hall.
      destruct Hall as [Hl | Hl].
      - exists tbl. split; [left; reflexivity | exact Hl].
      - destruct (IH Hl) as [t' [Hin Ht']]. exists t'.
        split; [right; exact Hin | exact Ht']. }
    destruct Hex as [tbl [Hin Hlast]].
    destruct (In_nth_error _ _ Hin) as [r Hr].
    destruct (Hrows tbl Hin) as [Hlen _].
    exists r, tbl, (length tbl - 1). split; [exact Hr |].
    split; [lia |]. apply stuck_last; [lia | exact Hlast].
Qed.

Lemma setXYArrays_columns (tbl : PvtgTable) :
  T1.setXYArrays (length tbl) (getPressureColumn tbl) (getOilSolubilityColumn tbl)
  = map (fun row => (Pressure row, SaturatedOilSolubility row)) tbl.
Proof.
  unfold T1.setXYArrays, getPressureColumn, getOilSolubilityColumn.
  induction tbl as [| row tbl IH]; [reflexivity |].
  cbn [length map combine firstn]. rewrite IH. reflexivity.
Qed.

(** The loop body of [initFromDeck] for region [r], field by field. *)
Lemma initRegionFromDeck_state (deck : Deck) (r : nat) (g : t)
    (d : DensityRecord) (tbl : PvtgTable) (tabB tabMu : T2.t)
    (res : Result unit) (s' : Tables) :
  r < length (gasMolarMass_ g) -> r < length (oilMolarMass_ g) ->
  r < length (gasReferenceDensity_ g) -> r < length (oilReferenceDensity_ g) ->
  r < length (oilVaporizationFactorTable_ g) ->
  nth_error (inverseGasB_ g) r = Some tabB ->
  nth_error (gasMu_ g) r = Some tabMu ->
  nth_error (densityKeyword deck) r = Some d ->
  nth_error (pvtgTables deck) r = Some tbl ->
  2 <= length tbl ->
  extractPvtg tbl (mkTables tabB tabMu) = (res, s') ->
  exists g',
    initRegionFromDeck R deck r g = (res, g')
    /\ nth_error (oilReferenceDensity_ g') r = Some (OIL d)
    /\ nth_error (gasReferenceDensity_ g') r = Some (GAS d)
    /\ nth_error (oilMolarMass_ g') r = Some (lit 175 1000)
    /\ nth_error (gasMolarMass_ g') r
       = Some (R * (lit 27315 100 + lit 1556 100) * GAS d / lit 101325 1)%Qc
    /\ nth_error (oilVaporizationFactorTable_ g') r
       = Some (map (fun row => (Pressure row, SaturatedOilSolubility row)) tbl)
    /\ nth_error (inverseGasB_ g') r = Some (invGasB s')
    /\ nth_error (gasMu_ g') r = Some (gasMu s')
    /\ Conditions.sameOutside r g g'.
Proof.
  intros A1 A2 A3 A4 A5 A6 A7 Hd Htbl Hlen Hext.
  destruct g as [ptr gM oM gR oR iB mu iBMu rv spl].
  cbn in A1, A2, A3, A4, A5, A6, A7.
  destruct (setAt_lt oR r (OIL d) A4) as [oR' EoR].
  destruct (setAt_lt gR r (GAS d) A3) as [gR' EgR].
  destruct (setAt_lt oM r (lit 175 1000) A2) as [oM' EoM].
  destruct (setAt_lt gM r
              (R * (lit 27315 100 + lit 1556 100) * GAS d / lit 101325 1)%Qc A1)
    as [gM' EgM].
  destruct (setAt_lt rv r
              (T1.setXYArrays (length tbl) (getPressureColumn tbl)
                 (getOilSolubilityColumn tbl)) A5) as [rv' Erv].
  assert (HiB : r < length iB) by (apply nth_error_Some; congruence).
  assert (Hmu : r < length mu) by (apply nth_error_Some; congruence).
  destruct (setAt_lt iB r (invGasB s') HiB) as [iB' EiB].
  destruct (setAt_lt mu r (gasMu s') Hmu) as [mu' Emu].
  exists (mk ptr gM' oM' gR' oR' iB' mu' iBMu rv' spl).
  split.
  - unfold initRegionFromDeck.
    erewrite bindM_Ok
      by (unfold liftR; apply at_Ok in Hd; rewrite Hd; reflexivity).
    erewrite bindM_Ok.
    2:{ apply modifyR_Ok. unfold setReferenceDensities. cbn.
        rewrite EoR. cbn. rewrite EgR. reflexivity. }
    erewrite bindM_Ok.
    2:{ apply modifyR_Ok. unfold setMolarMasses. cbn.
        rewrite EoM. cbn. rewrite EgM. reflexivity. }
    erewrite bindM_Ok
      by (unfold liftR; apply at_Ok in Htbl; rewrite Htbl; reflexivity).
    erewrite bindM_Ok.
    2:{ unfold liftR, assert.
        destruct (Nat.ltb_spec 1 (length tbl)); [reflexivity | lia]. }
    erewrite bindM_Ok by reflexivity.
    erewrite bindM_Ok.
    2:{ unfold liftR. cbn. apply at_Ok in A6. apply at_Ok in A7.
        rewrite A6. cbn. rewrite A7. reflexivity. }
    erewrite bindM_Ok.
    2:{ apply modifyR_Ok. cbn. rewrite Erv. reflexivity. }
    rewrite Hext.
    erewrite bindM_Ok.
    2:{ unfold writeTables. apply modifyR_Ok. cbn.
        rewrite EiB. cbn. rewrite Emu. reflexivity. }
    reflexivity.
  - fields. rewrite <- (setXYArrays_columns tbl).
    repeat (split; [eapply setAt_same; eassumption |]).
    unfold Conditions.sameOutside. fields.
    split; [reflexivity |]. split; [reflexivity |]. split; [reflexivity |].
    split.
    + repeat split; eapply setAt_length; eassumption.
    + intros r' Hr'. repeat split; eapply setAt_other; eassumption.
Qed.

(** X11.  Before it turns to the PVTG tables, the loop body of
    [initFromDeck] for region [r] stores the region's DENSITY record: the
    reference densities of oil and gas, the molar mass 175e-3 of oil, the
    molar mass [R*T*rhoRefG/p] of gas from the region's own gas density,
    and the saturated vaporization factor as the pairs (pressure, Rv) of
    the outer rows.  This is stored also when the gap-fill then throws;
    what belongs to other regions is left as it is. *)
Theorem initRegionFromDeck_stores_fluid :
  forall (deck : Deck) (r : nat) (g : t) (d : DensityRecord) (tbl : PvtgTable),
    Conditions.awaitsRegion g r ->
    nth_error (densityKeyword deck) r = Some d ->
    nth_error (pvtgTables deck) r = Some tbl ->
    2 <= length tbl ->
    exists res g',
      initRegionFromDeck R deck r g = (res, g')
      /\ nth_error (oilReferenceDensity_ g') r = Some (OIL d)
      /\ nth_error (gasReferenceDensity_ g') r = Some (GAS d)
      /\ nth_error (oilMolarMass_ g') r = Some (lit 175 1000)
      /\ nth_error (gasMolarMass_ g') r
         = Some (R * (lit 27315 100 + lit 1556 100) * GAS d / lit 101325 1)%Qc
      /\ nth_error (oilVaporizationFactorTable_ g') r
         = Some (map (fun row => (Pressure row, SaturatedOilSolubility row)) tbl)
      /\ Conditions.sameOutside r g g'.
Proof.
  intros deck r g d tbl [A1 [A2 [A3 [A4 [A5 [A6 A7]]]]]] Hd Htbl Hlen.
  destruct (extractPvtg tbl (mkTables [] [])) as [res s'] eqn:Hext.
  destruct (initRegionFromDeck_state deck r g d tbl [] [] res s'
              A1 A2 A3 A4 A5 A6 A7 Hd Htbl Hlen Hext)
    as [g' [Erun [H1 [H2 [H3 [H4 [H5 [_ [_ H8]]]]]]]]].
  exists res, g'. repeat (split; [assumption |]). exact H8.
Qed.

Lemma gapFillRow_complete (tbl : PvtgTable) (x : nat) (row : PvtgOuterRow)
    (s : Tables) :
  nth_error (invGasB s) x = Some (Pressure row, Conditions.deckInvGasB row) ->
  2 <= length (InnerTable row) ->
  gapFillRow tbl x s = (Ok tt, s).
Proof.
  intros HB Hlen. unfold gapFillRow.
  erewrite bindM_Ok by reflexivity.
  erewrite bindM_Ok.
  2:{ unfold liftR, T2.numY. apply at_Ok in HB. rewrite HB. reflexivity. }
  cbn [bind snd]. unfold Conditions.deckInvGasB. rewrite length_map.
  erewrite bindM_Ok.
  2:{ unfold liftR, assert.
      destruct (Nat.ltb_spec 0 (length (InnerTable row))); [reflexivity | lia]. }
  destruct (Nat.ltb_spec 1 (length (InnerTable row))); [reflexivity | lia].
Qed.

Lemma gapFillRows_complete (tbl : PvtgTable) (s : Tables) :
  (forall row, In row tbl -> 2 <= length (InnerTable row)) ->
  invGasB s = map (fun row => (Pressure row, Conditions.deckInvGasB row)) tbl ->
  forall n k,
    k + n <= length tbl ->
    forM (seq k n) (gapFillRow tbl) s = (Ok tt, s).
Proof.
  intros Hfull HB. induction n as [| n IH]; intros k Hkn; [reflexivity |].
  cbn [seq forM].
  destruct (nth_error tbl k) as [row |] eqn:Hrow;
    [| apply nth_error_None in Hrow; lia].
  erewrite bindM_Ok.
  2:{ apply (gapFillRow_complete tbl k row).
      - rewrite HB, nth_error_map, Hrow. reflexivity.
      - apply Hfull. eapply nth_error_In. exact Hrow. }
  apply IH. lia.
Qed.

Lemma extractPvtg_complete (tbl : PvtgTable) :
  (forall row, In row tbl -> 2 <= length (InnerTable row)) ->
  extractPvtg tbl (mkTables [] [])
  = (Ok tt,
     mkTables (map (fun row => (Pressure row, Conditions.deckInvGasB row)) tbl)
              (map (fun row => (Pressure row, Conditions.deckGasMu row)) tbl)).
Proof.
  intro Hfull. pose proof (extractRows_run tbl []) as Hext.
  cbn [length app map] in Hext.
  unfold extractPvtg. erewrite bindM_Ok by exact Hext.
  unfold gapFill. erewrite bindM_Ok by reflexivity.
  cbn [invGasB]. unfold T2.numX. rewrite length_map.
  apply gapFillRows_complete; [exact Hfull | reflexivity | lia].
Qed.

(** X12.  When every outer row of a region's PVTG table has two or more
    inner samples, the loop body of [initFromDeck] succeeds and the two
    tables of the region hold exactly the deck's samples, [(Rv, 1/Bg)] and
    [(Rv, mug)], at the pressures of the outer rows: the gap-fill adds
    nothing. *)
Theorem initRegionFromDeck_complete_table :
  forall (deck : Deck) (r : nat) (g : t) (d : DensityRecord) (tbl : PvtgTable),
    Conditions.awaitsRegion g r ->
    nth_error (densityKeyword deck) r = Some d ->
    nth_error (pvtgTables deck) r = Some tbl ->
    2 <= length tbl ->
    (forall row, In row tbl -> 2 <= length (InnerTable row)) ->
    exists g',
      initRegionFromDeck R deck r g = (Ok tt, g')
      /\ nth_error (inverseGasB_ g') r
         = Some (map (fun row => (Pressure row, Conditions.deckInvGasB row)) tbl)
      /\ nth_error (gasMu_ g') r
         = Some (map (fun row => (Pressure row, Conditions.deckGasMu row)) tbl).
Proof.
  intros deck r g d tbl [A1 [A2 [A3 [A4 [A5 [A6 A7]]]]]] Hd Htbl Hlen Hfull.
  destruct (initRegionFromDeck_state deck r g d tbl [] [] (Ok tt) _
              A1 A2 A3 A4 A5 A6 A7 Hd Htbl Hlen (extractPvtg_complete tbl Hfull))
    as [g' [Erun [_ [_ [_ [_ [_ [HB [HMu _]]]]]]]]].
  exists g'. split; [exact Erun |]. split; assumption.
Qed.

Lemma extractPvtg_on_filled_tables (tbl : PvtgTable) (tabB tabMu : T2.t) :
  1 <= length tbl -> tabB <> [] ->
  fst (extractPvtg tbl (mkTables tabB tabMu)) = Undefined.
Proof.
  intros Hlen Hne. destruct tbl as [| row tbl]; [simpl in Hlen; lia |].
  unfold extractPvtg. cbn [length seq forM].
  erewrite bindM_Undefined; [reflexivity |].
  erewrite bindM_Undefined; [reflexivity |].
  unfold extractRow.
  erewrite bindM_Ok by reflexivity.
  erewrite bindM_Ok by reflexivity.
  erewrite bindM_Ok by reflexivity.
  erewrite bindM_Undefined; [reflexivity |].
  unfold liftR, assert. cbn [invGasB]. unfold T2.appendXPos, T2.numX.
  rewrite length_app. cbn [length].
  destruct tabB as [| c tabB]; [congruence |].
  cbn [length]. destruct (Nat.eqb_spec (S (length tabB) + 1) (0 + 1)); [lia |].
  reflexivity.
Qed.

(** X13.  The loop body of [initFromDeck] on a region whose table of
    [1/Bg] already has outer positions (the object was initialised from a
    deck before) stores the DENSITY data and then fails the assertion of
    line 112: the new outer position is appended behind the old ones, so
    that [numX()] is not [outerIdx + 1]. *)
Theorem initRegionFromDeck_again_undefined :
  forall (deck : Deck) (r : nat) (g : t) (d : DensityRecord) (tbl : PvtgTable)
         (tabB tabMu : T2.t),
    r < length (gasMolarMass_ g) -> r < length (oilMolarMass_ g) ->
    r < length (gasReferenceDensity_ g) -> r < length (oilReferenceDensity_ g) ->
    r < length (oilVaporizationFactorTable_ g) ->
    nth_error (inverseGasB_ g) r = Some tabB ->
    nth_error (gasMu_ g) r = Some tabMu ->
    nth_error (densityKeyword deck) r = Some d ->
    nth_error (pvtgTables deck) r = Some tbl ->
    2 <= length tbl ->
    0 < T2.numX tabB ->
    fst (initRegionFromDeck R deck r g) = Undefined.
Proof.
  intros deck r g d tbl tabB tabMu A1 A2 A3 A4 A5 A6 A7 Hd Htbl Hlen Hnum.
  destruct (extractPvtg tbl (mkTables tabB tabMu)) as [res s'] eqn:Hext.
  assert (Hres : res = Undefined).
  { pose proof (extractPvtg_on_filled_tables tbl tabB tabMu) as Hfail.
    rewrite Hext in Hfail. apply Hfail; [lia |].
    intro E. rewrite E in Hnum. simpl in Hnum. lia. }
  subst res.
  destruct (initRegionFromDeck_state deck r g d tbl tabB tabMu Undefined s'
              A1 A2 A3 A4 A5 A6 A7 Hd Htbl Hlen Hext) as [g' [Erun _]].
  rewrite Erun. reflexivity.
Qed.

End DeckOutcome.

(* ------------------------------------------------------------------ *)
(** ** From the deck to initEnd *)

Section DeckToInitEnd.

Import WetGasPvt.

Variable R : Scalar.

Ltac fields :=
  cbn [oilPvt_ gasMolarMass_ oilMolarMass_ gasReferenceDensity_
       oilReferenceDensity_ inverseGasB_ gasMu_ inverseGasBMu_
       oilVaporizationFactorTable_ saturationPressureSpline_].

Lemma keeps_liftR {A : Type} (r : Result A) : Conditions.keepsLengths (liftR r).
Proof. intros s res s' E. injection E as _ <-. split; reflexivity. Qed.

Lemma keeps_retM {A : Type} (a : A) : Conditions.keepsLengths (retM a).
Proof. intros s res s' E. injection E as _ <-. split; reflexivity. Qed.

Lemma keeps_getM : Conditions.keepsLengths (@getM Tables).
Proof. intros s res s' E. injection E as _ <-. split; reflexivity. Qed.

Lemma keeps_bindM {A B : Type} (m : M Tables A) (k : A -> M Tables B) :
  Conditions.keepsLengths m -> (forall a, Conditions.keepsLengths (k a)) ->
  Conditions.keepsLengths (bindM m k).
Proof.
  intros Hm Hk s res s' E. unfold bindM in E.
  destruct (m s) as [[a | e |] s1] eqn:Em.
  - destruct (Hm s _ s1 Em) as [L1 L2]. destruct (Hk a s1 res s' E) as [L3 L4].
    split; congruence.
  - injection E as _ <-. exact (Hm s _ s1 Em).
  - injection E as _ <-. exact (Hm s _ s1 Em).
Qed.

Lemma keeps_forM (body : nat -> M Tables unit) (l : list nat) :
  (forall i, Conditions.keepsLengths (body i)) ->
  Conditions.keepsLengths (forM l body).
Proof.
  intro Hbody. induction l as [| i l IH]; cbn [forM].
  - apply keeps_retM.
  - apply keeps_bindM; [apply Hbody | intros _; exact IH].
Qed.

Lemma appendAt_length (f : T2.t) :
  forall (i : nat) (s : Scalar * Scalar) (f' : T2.t),
    T2.appendAt f i s = Some f' -> length f' = length f.
Proof.
  induction f as [| [x col] rest IH]; intros [| i] s f' E; simpl in E;
    try discriminate.
  - injection E as <-. reflexivity.
  - destruct (T2.appendAt rest i s) as [rest' |] eqn:Erest; [| discriminate].
    injection E as <-. simpl. f_equal. eapply IH. exact Erest.
Qed.

Lemma keeps_appendInvGasB (i : nat) (y v : Scalar) :
  Conditions.keepsLengths (appendInvGasB i y v).
Proof.
  intros s res s' E. unfold appendInvGasB, modifyR, T2.appendSamplePoint in E.
  destruct (T2.appendAt (invGasB s) i (y, v)) as [b |] eqn:Eb; cbn [bind] in E.
  - injection E as _ <-. cbn [invGasB gasMu].
    split; [eapply appendAt_length; exact Eb | reflexivity].
  - injection E as _ <-. split; reflexivity.
Qed.

Lemma keeps_appendGasMu (i : nat) (y v : Scalar) :
  Conditions.keepsLengths (appendGasMu i y v).
Proof.
  intros s res s' E. unfold appendGasMu, modifyR, T2.appendSamplePoint in E.
  destruct (T2.appendAt (gasMu s) i (y, v)) as [m |] eqn:Em; cbn [bind] in E.
  - injection E as _ <-. cbn [invGasB gasMu].
    split; [reflexivity | eapply appendAt_length; exact Em].
  - injection E as _ <-. split; reflexivity.
Qed.

Lemma keeps_gapFillRow (tbl : PvtgTable) (x : nat) :
  Conditions.keepsLengths (gapFillRow tbl x).
Proof.
  unfold gapFillRow.
  apply keeps_bindM; [apply keeps_getM | intro s].
  apply keeps_bindM; [apply keeps_liftR | intro numY].
  apply keeps_bindM; [apply keeps_liftR | intros _].
  destruct (1 <? numY); [apply keeps_retM |].
  destruct (length tbl <=? findMasterTable tbl x); [apply keeps_liftR |].
  apply keeps_bindM; [apply keeps_liftR | intro masterTable].
  apply keeps_bindM; [apply keeps_liftR | intro curTable].
  apply keeps_forM. intro i. unfold extendRow.
  apply keeps_bindM; [apply keeps_liftR | intro mNew].
  apply keeps_bindM; [apply keeps_liftR | intro m0].
  apply keeps_bindM; [apply keeps_liftR | intro c0].
  cbv zeta.
  apply keeps_bindM; [apply keeps_appendInvGasB | intros _].
  apply keeps_appendGasMu.
Qed.

Lemma filledRow_same_length (tbl : PvtgTable) (x : nat) :
  length (Conditions.filledRow Conditions.deckGasMu Conditions.pointGasMu tbl x)
  = length (Conditions.filledRow Conditions.deckInvGasB Conditions.pointInvGasB
              tbl x).
Proof.
  unfold Conditions.filledRow.
  destruct (nth_error tbl x) as [row |]; [| reflexivity].
  assert (Hdeck : length (Conditions.deckGasMu row)
                  = length (Conditions.deckInvGasB row))
    by (unfold Conditions.deckGasMu, Conditions.deckInvGasB;
        rewrite !length_map; reflexivity).
  destruct (1 <? length (InnerTable row)); [exact Hdeck |].
  destruct (nth_error tbl (findMasterTable tbl x)) as [mrow |]; [| exact Hdeck].
  rewrite !length_app, Hdeck. f_equal.
  unfold Conditions.extension.
  destruct (InnerTable row); [reflexivity |].
  destruct (InnerTable mrow); [reflexivity |].
  rewrite !length_map. reflexivity.
Qed.

(** The tables that extraction and gap-fill make of a PVTG table have one
    outer position per outer row, and the same shape. *)
Lemma extractPvtg_shape (tbl : PvtgTable) (res : Result unit) (s' : Tables) :
  (forall row, In row tbl -> InnerTable row <> []) ->
  extractPvtg tbl (mkTables [] []) = (res, s') ->
  Conditions.sameShape (gasMu s') (invGasB s').
Proof.
  intros Hne Hrun.
  destruct (extractPvtg_run tbl Hne) as [res0 [s0 [E0 [Hfilled _]]]].
  rewrite Hrun in E0. injection E0 as -> ->.
  assert (Hlen : length (invGasB s0) = length tbl
                 /\ length (gasMu s0) = length tbl).
  { pose proof (extractRows_run tbl []) as Hext. cbn [length app map] in Hext.
    unfold extractPvtg in Hrun. erewrite bindM_Ok in Hrun by exact Hext.
    unfold gapFill in Hrun. erewrite bindM_Ok in Hrun by reflexivity.
    pose proof (keeps_forM (gapFillRow tbl) _ (keeps_gapFillRow tbl) _ _ _ Hrun)
      as [L1 L2].
    cbn [invGasB gasMu] in L1, L2. rewrite !length_map in L1, L2.
    split; assumption. }
  destruct Hlen as [LB LMu].
  apply Forall2_pointwise; [congruence |].
  intros i Hi.
  destruct (nth_error tbl i) as [row |] eqn:Hrow;
    [| apply nth_error_None in Hrow; lia].
  destruct (Hfilled i row (Nat.le_0_l i) Hrow) as [FB FMu].
  eexists. eexists. split; [exact FMu |]. split; [exact FB |].
  cbn [snd]. apply filledRow_same_length.
Qed.

Lemma nth_of_nth_error {A : Type} (l l' : list A) (i : nat) (d : A) :
  nth_error l' i = nth_error l i -> nth i l' d = nth i l d.
Proof.
  intro E. destruct (nth_error l i) as [a |] eqn:El.
  - rewrite (nth_error_nth _ _ _ E), (nth_error_nth _ _ _ El). reflexivity.
  - apply nth_error_None in E. apply nth_error_None in El.
    rewrite !nth_overflow by assumption. reflexivity.
Qed.

Lemma sameShape_eq (a b a' b' : T2.t) :
  a' = a -> b' = b -> Conditions.sameShape a b -> Conditions.sameShape a' b'.
Proof. intros -> ->. exact (fun Hs => Hs). Qed.

Lemma initRegion_fills (deck : Deck) (k : nat) (g : t) :
  Conditions.validDeck deck ->
  (forall tbl, In tbl (pvtgTables deck) -> Conditions.lastRowComplete tbl = true) ->
  Conditions.deckFilledBelow deck k g ->
  k < length (pvtgTables deck) ->
  exists g',
    initRegionFromDeck R deck k g = (Ok tt, g')
    /\ Conditions.deckFilledBelow deck (S k) g'.
Proof.
  intros [Hsize Hvalid] Hlast Hinv Hk.
  destruct Hinv as [Hs [HN [HlB [HlBMu [Hempty [Hdone Htodo]]]]]].
  pose proof Hs as [S1 [S2 [S3 [S4 [S5 S6]]]]].
  destruct (nth_error (pvtgTables deck) k) as [tbl |] eqn:Htbl;
    [| apply nth_error_None in Htbl; lia].
  destruct (nth_error (densityKeyword deck) k) as [d |] eqn:Hd;
    [| apply nth_error_None in Hd; lia].
  destruct (Hvalid tbl (nth_error_In _ _ Htbl)) as [Hlen Hne].
  destruct (Htodo k (Nat.le_refl k) Hk) as [EB EMu].
  destruct (extractPvtg_run tbl Hne) as [res [s' [Hext [_ Hres]]]].
  assert (Hok : res = Ok tt).
  { destruct Hres as [[-> _] | [_ [j [Hj Hst]]]]; [reflexivity |].
    exfalso.
    apply (not_stuck_when_last_complete tbl j Hj
             (Hlast tbl (nth_error_In _ _ Htbl)) Hst). }
  subst res.
  pose proof (extractPvtg_shape tbl (Ok tt) s' Hne Hext) as Hshape.
  destruct (initRegionFromDeck_state R deck k g d tbl [] [] (Ok tt) s')
    as [g' [Erun [_ [_ [_ [_ [Hrv [HB' [HMu' Hout]]]]]]]]];
    try assumption; try lia.
  exists g'. split; [exact Erun |].
  destruct Hout as [O1 [O2 [O3 [[L1 [L2 [L3 [L4 [L5 [L6 L7]]]]]] Hother]]]].
  unfold Conditions.deckFilledBelow, Conditions.wetGasSized,
    Conditions.numRegions in *.
  rewrite O2, O3, L1, L2, L3, L4, L5, L6, L7.
  split; [repeat split; assumption |].
  split; [assumption |]. split; [assumption |]. split; [assumption |].
  split; [assumption |]. split.
  - intros r Hr. destruct (Nat.eq_dec r k) as [-> | Hrk].
    + split.
      * eexists. split; [exact Hrv |]. rewrite length_map. exact Hlen.
      * eapply sameShape_eq; [| | exact Hshape];
          apply nth_error_nth; assumption.
    + destruct (Hother r Hrk) as [_ [_ [_ [_ [PB [PMu PRv]]]]]].
      destruct (Hdone r) as [[tab [Htab Htl]] Hsh]; [lia |].
      split.
      * exists tab. split; [congruence | exact Htl].
      * eapply sameShape_eq; [| | exact Hsh];
          apply nth_of_nth_error; assumption.
  - intros r Hr1 Hr2.
    destruct (Hother r ltac:(lia)) as [_ [_ [_ [_ [PB [PMu _]]]]]].
    rewrite PB, PMu. apply Htodo; lia.
Qed.

Lemma initRegions_fill (deck : Deck) :
  Conditions.validDeck deck ->
  (forall tbl, In tbl (pvtgTables deck) -> Conditions.lastRowComplete tbl = true) ->
  forall (n k : nat) (g : t),
    k + n = length (pvtgTables deck) ->
    Conditions.deckFilledBelow deck k g ->
    exists g',
      forM (seq k n) (initRegionFromDeck R deck) g = (Ok tt, g')
      /\ Conditions.deckFilledBelow deck (length (pvtgTables deck)) g'.
Proof.
  intros Hvalid Hlast. induction n as [| n IH]; intros k g Hkn Hinv.
  - exists g. split; [reflexivity |].
    replace (length (pvtgTables deck)) with k by lia. exact Hinv.
  - destruct (initRegion_fills deck k g Hvalid Hlast Hinv) as [g1 [E1 Hinv1]];
      [lia |].
    destruct (IH (S k) g1) as [g' [E Hinv']]; [lia | exact Hinv1 |].
    exists g'. split; [| exact Hinv'].
    cbn [seq forM]. rewrite (bindM_Ok _ _ g g1 tt E1). exact E.
Qed.

Lemma setNumRegions_fresh_filledBelow (deck : Deck) :
  Conditions.deckFilledBelow deck 0
    (setNumRegions fresh (length (pvtgTables deck))).
Proof.
  unfold Conditions.deckFilledBelow, Conditions.wetGasSized,
    Conditions.numRegions, setNumRegions, fresh.
  fields. rewrite !resize_length.
  split; [repeat split |]. split; [reflexivity |]. split; [reflexivity |].
  split; [reflexivity |].
  assert (Hnil : forall (A : Type) r,
            r < length (pvtgTables deck) ->
            nth_error (resize (length (pvtgTables deck)) (@nil A) []) r
            = Some []).
  { intros A r Hr. rewrite resize_fresh. apply nth_error_repeat. exact Hr. }
  split; [intros r Hr; apply Hnil; exact Hr |].
  split; [intros r Hr; lia |].
  intros r _ Hr. split; apply Hnil; exact Hr.
Qed.

(** X14.  For a deck that passes the assertions of lines 70, 95 and 130
    and whose PVTG tables all end in a row with two or more inner samples,
    [initFromDeck] on a new object succeeds and [initEnd] on its result
    succeeds as well: the tables the gap-fill leaves have the same shape
    in every region, as the assertions of [initEnd] require, and the table
    of [1/(Bg*mug)] of every region is filled from them. *)
Theorem initFromDeck_then_initEnd :
  forall (deck : Deck) (oilPvt : OilPvtMultiplexer.addr),
    Conditions.validDeck deck ->
    (forall tbl, In tbl (pvtgTables deck) ->
                 Conditions.lastRowComplete tbl = true) ->
    exists g1 g2,
      initFromDeck R deck fresh = (Ok tt, g1)
      /\ initEnd g1 oilPvt = Ok g2
      /\ oilPvt_ g2 = Some oilPvt
      /\ forall r, r < length (pvtgTables deck) ->
           nth_error (inverseGasBMu_ g2) r
           = Some (Conditions.productTable (nth r (gasMu_ g1) [])
                                           (nth r (inverseGasB_ g1) [])).
Proof.
  intros deck oilPvt Hvalid Hlast.
  destruct (initRegions_fill deck Hvalid Hlast (length (pvtgTables deck)) 0
              (setNumRegions fresh (length (pvtgTables deck))) eq_refl
              (setNumRegions_fresh_filledBelow deck)) as [g1 [E1 Hinv]].
  assert (Hfin : Conditions.finalizable g1).
  { destruct Hinv as [Hs [HN [HlB [HlBMu [Hempty [Hdone _]]]]]].
    unfold Conditions.finalizable. rewrite HN.
    split; [exact Hs |]. split; [exact HlB |]. split; [exact HlBMu |].
    intros r Hr. destruct (Hdone r Hr) as [Ht Hsh].
    split; [exact Ht |]. split; [apply Hempty; exact Hr | exact Hsh]. }
  destruct (initEnd_run g1 oilPvt Hfin) as [g2 [E2 [Hptr [_ [_ Hprod]]]]].
  exists g1, g2. split.
  - unfold initFromDeck. destruct Hvalid as [Hsize _].
    rewrite (bindM_Ok _ _ fresh fresh tt)
      by (unfold liftR; rewrite Hsize, Nat.eqb_refl; reflexivity).
    rewrite (bindM_Ok _ _ fresh
               (setNumRegions fresh (length (pvtgTables deck))) tt)
      by reflexivity.
    exact E1.
  - split; [exact E2 |]. split; [exact Hptr |].
    intros r Hr. apply Hprod.
    destruct Hinv as [_ [HN _]]. rewrite HN. exact Hr.
Qed.

End DeckToInitEnd.

(* ------------------------------------------------------------------ *)
(** ** The oil multiplexer: construction, selection, forwarding, destruction *)

Section Multiplexer.

Import OilPvtMultiplexer.
Context {RealPvt : Type} `{RealPvtClass RealPvt}.

Lemma load_store_deleted (h : Heap RealPvt) (a : addr) :
  load (store h a None) a = None.
Proof.
  revert a. induction h as [| x rest IH]; intros [| a];
    try reflexivity.
  apply IH.
Qed.

Lemma OilPvtApproach_eqb_refl (a : OilPvtApproach) : OilPvtApproach_eqb a a = true.
Proof. destruct a; reflexivity. Qed.

Lemma setApproach_run (h : Heap RealPvt) (self : addr) (m : t)
    (appr : OilPvtApproach) :
  this_ h self = Ok m -> appr <> NoOilPvt ->
  setApproach h self appr = (Ok tt, Conditions.selected h self appr).
Proof.
  intros Hthis Hne. unfold setApproach. rewrite Hthis.
  destruct appr; [congruence | reflexivity | reflexivity | reflexivity].
Qed.

Lemma selected_this (h : Heap RealPvt) (self : addr) (m : t)
    (appr : OilPvtApproach) :
  this_ h self = Ok m ->
  this_ (Conditions.selected h self appr) self = Ok (mk appr (Some (length h))).
Proof.
  intro Hthis. pose proof (this_lt h self m Hthis) as Hlt.
  unfold this_, Conditions.selected. rewrite load_store_same; [reflexivity |].
  rewrite length_app. simpl. lia.
Qed.

Lemma selected_impl (h : Heap RealPvt) (self : addr) (m : t)
    (appr : OilPvtApproach) :
  this_ h self = Ok m ->
  load (Conditions.selected h self appr) (length h)
  = Some (ObjRealPvt appr (construct appr)).
Proof.
  intro Hthis. pose proof (this_lt h self m Hthis) as Hlt.
  unfold Conditions.selected. rewrite load_store_other by lia. apply load_app_new.
Qed.

Lemma selected_getRealPvt (h : Heap RealPvt) (self : addr) (m : t)
    (appr : OilPvtApproach) :
  this_ h self = Ok m ->
  getRealPvt (Conditions.selected h self appr) (mk appr (Some (length h))) appr
  = Ok (length h, construct appr).
Proof.
  intro Hthis. unfold getRealPvt. cbn [approach_ realOilPvt_].
  rewrite OilPvtApproach_eqb_refl. cbn [assert bind].
  rewrite (selected_impl h self m appr Hthis), OilPvtApproach_eqb_refl.
  reflexivity.
Qed.

Lemma call_after_setApproach {A : Type} (h : Heap RealPvt) (self : addr) (m : t)
    (appr : OilPvtApproach) (codeToCall : OilPvtApproach -> RealPvt -> Result A) :
  this_ h self = Ok m -> appr <> NoOilPvt ->
  OPM_OIL_PVT_MULTIPLEXER_CALL (Conditions.selected h self appr) self codeToCall
  = codeToCall appr (construct appr).
Proof.
  intros Hthis Hne. unfold OPM_OIL_PVT_MULTIPLEXER_CALL.
  rewrite (selected_this h self m appr Hthis). cbn [bind approach_].
  pose proof (selected_getRealPvt h self m appr Hthis) as Hget.
  destruct appr; [congruence | | |]; rewrite Hget; reflexivity.
Qed.

Lemma call_unset {A : Type} (h : Heap RealPvt) (self : addr)
    (p : option addr) (codeToCall : OilPvtApproach -> RealPvt -> Result A) :
  this_ h self = Ok (mk NoOilPvt p) ->
  OPM_OIL_PVT_MULTIPLEXER_CALL h self codeToCall = Throw notImplemented.
Proof.
  intro Hthis. unfold OPM_OIL_PVT_MULTIPLEXER_CALL. rewrite Hthis. reflexivity.
Qed.

Lemma constructor_this (h : Heap RealPvt) :
  this_ (snd (constructor h)) (fst (constructor h)) = Ok (mk NoOilPvt None).
Proof.
  unfold constructor, new, this_. cbn [fst snd]. rewrite load_app_new.
  reflexivity.
Qed.

(** X15.  On a newly constructed multiplexer the approach is [NoOilPvt]:
    every property method throws [std::logic_error] (Not implemented: Oil
    PVT of this deck!), and the destructor releases nothing. *)
Theorem unset_multiplexer_throws :
  forall (h : Heap RealPvt) (regionIdx : nat) (T p Rs : Scalar),
    let self := fst (constructor h) in
    let h1 := snd (constructor h) in
    approach h1 self = Ok NoOilPvt
    /\ viscosity h1 self regionIdx T p Rs = Throw notImplemented
    /\ saturatedViscosity h1 self regionIdx T p = Throw notImplemented
    /\ formationVolumeFactor h1 self regionIdx T p Rs = Throw notImplemented
    /\ saturatedFormationVolumeFactor h1 self regionIdx T p = Throw notImplemented
    /\ density h1 self regionIdx T p Rs = Throw notImplemented
    /\ saturatedDensity h1 self regionIdx T p = Throw notImplemented
    /\ saturatedGasDissolutionFactor h1 self regionIdx T p = Throw notImplemented
    /\ saturationPressure h1 self regionIdx T Rs = Throw notImplemented
    /\ destructor h1 self = Ok h1.
Proof.
  intros h regionIdx T p Rs self h1.
  pose proof (constructor_this h) as Hthis. fold self h1 in Hthis.
  split; [unfold approach; rewrite Hthis; reflexivity |].
  repeat (split; [apply (call_unset h1 self None); exact Hthis |]).
  unfold destructor. rewrite Hthis. reflexivity.
Qed.

(** X16.  After [setApproach(appr)] with an approach other than
    [NoOilPvt], [approach()] returns [appr] and every property method
    returns what the method of that name returns on the newly constructed
    implementation of kind [appr], with the same arguments. *)
Theorem setApproach_then_forwards :
  forall (h : Heap RealPvt) (self : addr) (m : t) (appr : OilPvtApproach)
         (regionIdx : nat) (T p Rs : Scalar),
    this_ h self = Ok m -> appr <> NoOilPvt ->
    let h' := snd (setApproach h self appr) in
    let pvtImpl := construct appr in
    approach h' self = Ok appr
    /\ viscosity h' self regionIdx T p Rs
       = real_viscosity appr pvtImpl regionIdx T p Rs
    /\ saturatedViscosity h' self regionIdx T p
       = real_saturatedViscosity appr pvtImpl regionIdx T p
    /\ formationVolumeFactor h' self regionIdx T p Rs
       = real_formationVolumeFactor appr pvtImpl regionIdx T p Rs
    /\ saturatedFormationVolumeFactor h' self regionIdx T p
       = real_saturatedFormationVolumeFactor appr pvtImpl regionIdx T p
    /\ density h' self regionIdx T p Rs
       = real_density appr pvtImpl regionIdx T p Rs
    /\ saturatedDensity h' self regionIdx T p
       = real_saturatedDensity appr pvtImpl regionIdx T p
    /\ saturatedGasDissolutionFactor h' self regionIdx T p
       = real_saturatedGasDissolutionFactor appr pvtImpl regionIdx T p
    /\ saturationPressure h' self regionIdx T Rs
       = real_saturationPressure appr pvtImpl regionIdx T Rs.
Proof.
  intros h self m appr regionIdx T p Rs Hthis Hne h' pvtImpl.
  unfold h'. rewrite (setApproach_run h self m appr Hthis Hne). cbn [snd].
  split.
  - unfold approach. rewrite (selected_this h self m appr Hthis). reflexivity.
  - unfold viscosity, saturatedViscosity, formationVolumeFactor,
      saturatedFormationVolumeFactor, density, saturatedDensity,
      saturatedGasDissolutionFactor, saturationPressure, pvtImpl.
    rewrite !(call_after_setApproach h self m appr _ Hthis Hne).
    repeat split; reflexivity.
Qed.

(** X17.  After [setApproach(appr)] the destructor deletes the
    implementation object that this call created, and nothing else: every
    other object on the free store is as before. *)
Theorem destructor_releases_implementation :
  forall (h : Heap RealPvt) (self : addr) (m : t) (appr : OilPvtApproach),
    this_ h self = Ok m -> appr <> NoOilPvt ->
    let h' := snd (setApproach h self appr) in
    exists h'',
      destructor h' self = Ok h''
      /\ load h'' (length h) = None
      /\ (forall a, a <> length h -> load h'' a = load h' a).
Proof.
  intros h self m appr Hthis Hne h'.
  unfold h'. rewrite (setApproach_run h self m appr Hthis Hne). cbn [snd].
  pose proof (this_lt h self m Hthis) as Hlt.
  exists (store (Conditions.selected h self appr) (length h) None).
  assert (Hdel : destructor (Conditions.selected h self appr) self
                 = Ok (store (Conditions.selected h self appr) (length h) None)).
  { unfold destructor. rewrite (selected_this h self m appr Hthis).
    cbn [bind approach_].
    pose proof (selected_getRealPvt h self m appr Hthis) as Hget.
    destruct appr; [congruence | | |]; rewrite Hget; cbn [bind fst];
      unfold delete; rewrite (selected_impl h self m _ Hthis); reflexivity. }
  split; [exact Hdel |]. split; [apply load_store_deleted |].
  intros a Ha. apply load_store_other. exact Ha.
Qed.


Variable DeckT : Type.
Variable hasKeyword : DeckT -> string -> bool.
Variable real_initFromDeck :
  OilPvtApproach -> DeckT -> RealPvt -> Result unit * RealPvt.
Variable real_initEnd : OilPvtApproach -> RealPvt -> Result unit * RealPvt.

Lemma selectApproach_run (h : Heap RealPvt) (self : addr) (m : t) (deck : DeckT) :
  this_ h self = Ok m ->
  selectApproach hasKeyword h self deck
  = match Conditions.deckApproach hasKeyword deck with
    | NoOilPvt => (Ok tt, h)
    | k => (Ok tt, Conditions.selected h self k)
    end.
Proof.
  intro Hthis. unfold selectApproach, Conditions.deckApproach.
  destruct (hasKeyword deck "PVCDO");
    [apply (setApproach_run h self m); [exact Hthis | discriminate] |].
  destruct (hasKeyword deck "PVDO");
    [apply (setApproach_run h self m); [exact Hthis | discriminate] |].
  destruct (hasKeyword deck "PVTO");
    [apply (setApproach_run h self m); [exact Hthis | discriminate] |].
  reflexivity.
Qed.

Lemma update_after_setApproach (h : Heap RealPvt) (self : addr) (m : t)
    (appr : OilPvtApproach)
    (codeToCall : OilPvtApproach -> RealPvt -> Result unit * RealPvt) :
  this_ h self = Ok m -> appr <> NoOilPvt ->
  OPM_OIL_PVT_MULTIPLEXER_UPDATE (Conditions.selected h self appr) self codeToCall
  = (fst (codeToCall appr (construct appr)),
     store (Conditions.selected h self appr) (length h)
       (Some (ObjRealPvt appr (snd (codeToCall appr (construct appr)))))).
Proof.
  intros Hthis Hne. unfold OPM_OIL_PVT_MULTIPLEXER_UPDATE.
  rewrite (selected_this h self m appr Hthis). cbn [approach_].
  pose proof (selected_getRealPvt h self m appr Hthis) as Hget.
  destruct appr; [congruence | | |]; rewrite Hget;
    destruct (codeToCall _ (construct _)); reflexivity.
Qed.

Lemma store_length (h : Heap RealPvt) (a : addr) (c : option (Object RealPvt)) :
  length (store h a c) = length h.
Proof.
  revert a. induction h as [| x rest IH]; intros [| a]; simpl; try reflexivity.
  rewrite IH. reflexivity.
Qed.

Lemma update_run (h : Heap RealPvt) (self p : addr) (k : OilPvtApproach)
    (o : RealPvt)
    (codeToCall : OilPvtApproach -> RealPvt -> Result unit * RealPvt) :
  this_ h self = Ok (mk k (Some p)) -> k <> NoOilPvt ->
  load h p = Some (ObjRealPvt k o) ->
  OPM_OIL_PVT_MULTIPLEXER_UPDATE h self codeToCall
  = (fst (codeToCall k o),
     store h p (Some (ObjRealPvt k (snd (codeToCall k o))))).
Proof.
  intros Hthis Hne Hload. unfold OPM_OIL_PVT_MULTIPLEXER_UPDATE.
  rewrite Hthis. cbn [approach_].
  assert (Hget : getRealPvt h (mk k (Some p)) k = Ok (p, o)).
  { unfold getRealPvt. cbn [approach_ realOilPvt_].
    rewrite OilPvtApproach_eqb_refl. cbn [assert bind].
    rewrite Hload, OilPvtApproach_eqb_refl. reflexivity. }
  destruct k; [congruence | | |]; rewrite Hget;
    destruct (codeToCall _ o); reflexivity.
Qed.

Lemma initFromDeck_run (h : Heap RealPvt) (deck : DeckT) :
  let self := fst (constructor h) in
  let h1 := snd (constructor h) in
  let k := Conditions.deckApproach hasKeyword deck in
  k <> NoOilPvt ->
  initFromDeck hasKeyword real_initFromDeck h1 self deck
  = (fst (real_initFromDeck k deck (construct k)), Conditions.initialised real_initFromDeck h deck k)
  /\ this_ (Conditions.initialised real_initFromDeck h deck k) self = Ok (mk k (Some (length h1)))
  /\ load (Conditions.initialised real_initFromDeck h deck k) (length h1)
     = Some (ObjRealPvt k (snd (real_initFromDeck k deck (construct k)))).
Proof.
  intros self h1 k Hk.
  pose proof (constructor_this h) as Hthis. fold self h1 in Hthis.
  assert (Hself : self = length h) by reflexivity.
  assert (Hlen1 : length h1 = S (length h)).
  { unfold h1, constructor, new. cbn [snd]. rewrite length_app. simpl. lia. }
  split; [| split].
  - unfold initFromDeck.
    rewrite (selectApproach_run h1 self _ deck Hthis). fold k.
    unfold Conditions.initialised. fold self h1.
    destruct k eqn:Ek; [congruence | | |];
      rewrite (update_after_setApproach h1 self _ _ _ Hthis) by discriminate;
      reflexivity.
  - unfold Conditions.initialised. fold self h1.
    unfold this_. rewrite load_store_other by lia.
    exact (selected_this h1 self _ k Hthis).
  - unfold Conditions.initialised. fold self h1.
    apply load_store_same. unfold Conditions.selected.
    rewrite store_length, length_app. simpl. lia.
Qed.

Lemma initFromDeck_no_keyword (h : Heap RealPvt) (deck : DeckT) :
  let self := fst (constructor h) in
  let h1 := snd (constructor h) in
  Conditions.deckApproach hasKeyword deck = NoOilPvt ->
  initFromDeck hasKeyword real_initFromDeck h1 self deck
  = (Throw notImplemented, h1).
Proof.
  intros self h1 Hk.
  pose proof (constructor_this h) as Hthis. fold self h1 in Hthis.
  unfold initFromDeck.
  rewrite (selectApproach_run h1 self _ deck Hthis). rewrite Hk.
  unfold OPM_OIL_PVT_MULTIPLEXER_UPDATE. rewrite Hthis. reflexivity.
Qed.

(** X18.  [initFromDeck] on a newly constructed multiplexer takes the
    approach from the first keyword present among PVCDO, PVDO and PVTO, in
    this order: it creates the implementation of that kind, runs its
    [initFromDeck] on it and ends the way that call ends; objects that were
    on the free store before are untouched.  For a deck with none of the
    three keywords it throws [std::logic_error] and creates nothing. *)
Theorem multiplexer_initFromDeck :
  forall (h : Heap RealPvt) (deck : DeckT),
    let self := fst (constructor h) in
    let h1 := snd (constructor h) in
    let k := Conditions.deckApproach hasKeyword deck in
    (k = NoOilPvt ->
     initFromDeck hasKeyword real_initFromDeck h1 self deck
     = (Throw notImplemented, h1))
    /\ (k <> NoOilPvt ->
        exists h2,
          initFromDeck hasKeyword real_initFromDeck h1 self deck
          = (fst (real_initFromDeck k deck (construct k)), h2)
          /\ approach h2 self = Ok k
          /\ load h2 (length h1)
             = Some (ObjRealPvt k (snd (real_initFromDeck k deck (construct k))))
          /\ forall a, a < length h -> load h2 a = load h a).
Proof.
  intros h deck self h1 k.
  pose proof (constructor_this h) as Hthis. fold self h1 in Hthis.
  assert (Hself : self = length h) by reflexivity.
  assert (Hlen1 : length h1 = S (length h)).
  { unfold h1, constructor, new. cbn [snd]. rewrite length_app. simpl. lia. }
  split.
  - intro Hk. apply initFromDeck_no_keyword. exact Hk.
  - intro Hk. destruct (initFromDeck_run h deck Hk) as [Erun [Ethis Eload]].
    fold self h1 k in Erun, Ethis, Eload.
    exists (Conditions.initialised real_initFromDeck h deck k).
    split; [exact Erun |]. split; [| split; [exact Eload |]].
    + unfold approach. rewrite Ethis. reflexivity.
    + intros a Ha. unfold Conditions.initialised. fold self h1.
      rewrite load_store_other by lia.
      unfold Conditions.selected. rewrite load_store_other by lia.
      rewrite load_app_lt by lia.
      unfold h1, constructor, new. cbn [snd]. apply load_app_lt. exact Ha.
Qed.

(** X19.  [initEnd] after [initFromDeck] runs the [initEnd] of the very
    implementation object that [initFromDeck] created and initialised, and
    ends the way that call ends; after an [initFromDeck] that found none
    of the keywords it throws [std::logic_error]. *)
Theorem multiplexer_initEnd_after_initFromDeck :
  forall (h : Heap RealPvt) (deck : DeckT),
    let self := fst (constructor h) in
    let h1 := snd (constructor h) in
    let k := Conditions.deckApproach hasKeyword deck in
    let h2 := snd (initFromDeck hasKeyword real_initFromDeck h1 self deck) in
    let pvtImpl := snd (real_initFromDeck k deck (construct k)) in
    (k = NoOilPvt -> initEnd real_initEnd h2 self = (Throw notImplemented, h2))
    /\ (k <> NoOilPvt ->
        exists h3,
          initEnd real_initEnd h2 self = (fst (real_initEnd k pvtImpl), h3)
          /\ approach h3 self = Ok k
          /\ load h3 (length h1)
             = Some (ObjRealPvt k (snd (real_initEnd k pvtImpl)))).
Proof.
  intros h deck self h1 k h2 pvtImpl.
  pose proof (constructor_this h) as Hthis. fold self h1 in Hthis.
  assert (Hself : self = length h) by reflexivity.
  assert (Hlen1 : length h1 = S (length h)).
  { unfold h1, constructor, new. cbn [snd]. rewrite length_app. simpl. lia. }
  split.
  - intro Hk. pose proof (initFromDeck_no_keyword h deck Hk) as E.
    fold self h1 in E. unfold h2. rewrite E. cbn [snd].
    unfold initEnd, OPM_OIL_PVT_MULTIPLEXER_UPDATE. rewrite Hthis. reflexivity.
  - intro Hk. destruct (initFromDeck_run h deck Hk) as [Erun [Ethis Eload]].
    fold self h1 k in Erun, Ethis, Eload.
    unfold h2. rewrite Erun. cbn [snd].
    eexists. split; [| split].
    + unfold initEnd. apply (update_run _ self (length h1) k pvtImpl);
        assumption.
    + unfold approach, this_. rewrite load_store_other by lia.
      unfold this_ in Ethis.
      destruct (load (Conditions.initialised real_initFromDeck h deck k) self) as [[mm | ? ?] |];
        try discriminate.
      injection Ethis as ->. reflexivity.
    + apply load_store_same. unfold Conditions.initialised, Conditions.selected.
      rewrite !store_length, length_app. cbn [length]. fold h1. lia.
Qed.

End Multiplexer.

(* ------------------------------------------------------------------ *)
(** ** The static data of the black-oil fluid system *)

Section BlackOilDensities.

Import BlackOil.

Lemma setReferenceDensities_run (s : t) (rhoOil rhoWater rhoGas : Scalar)
    (regionIdx : nat) :
  Conditions.blackOilSized s ->
  regionIdx < length (referenceDensity_ s) ->
  exists d,
    setReferenceDensities s rhoOil rhoWater rhoGas regionIdx
    = Ok (mk (enableDissolvedGas_ s) (enableVaporizedOil_ s) d (molarMass_ s))
    /\ nth_error d regionIdx = Some [rhoWater; rhoOil; rhoGas]
    /\ (forall k, k <> regionIdx -> nth_error d k = nth_error (referenceDensity_ s) k)
    /\ length d = length (referenceDensity_ s).
Proof.
  intros [Hlen [Hdens Hmass]] Hlt.
  destruct (nth_error (referenceDensity_ s) regionIdx) as [row |] eqn:Hrow;
    [| apply nth_error_None in Hrow; lia].
  assert (Hrow3 : length row = 3).
  { rewrite Forall_forall in Hdens. apply Hdens.
    eapply nth_error_In. eassumption. }
  destruct row as [| w [| o [| gd [| ? ?]]]]; simpl in Hrow3; try lia.
  unfold setReferenceDensities.
  destruct (setElem_spec (referenceDensity_ s) regionIdx oilPhaseIdx rhoOil
              _ [w; rhoOil; gd] Hrow eq_refl) as [d1 [E1 [R1 [O1 L1]]]].
  rewrite E1. cbn [bind].
  destruct (setElem_spec d1 regionIdx waterPhaseIdx rhoWater
              _ [rhoWater; rhoOil; gd] R1 eq_refl) as [d2 [E2 [R2 [O2 L2]]]].
  rewrite E2. cbn [bind].
  destruct (setElem_spec d2 regionIdx gasPhaseIdx rhoGas
              _ [rhoWater; rhoOil; rhoGas] R2 eq_refl) as [d3 [E3 [R3 [O3 L3]]]].
  rewrite E3. cbn [bind].
  exists d3. split; [reflexivity |]. split; [exact R3 |]. split.
  - intros k Hk. rewrite O3, O2, O1 by assumption. reflexivity.
  - congruence.
Qed.

(** X20.  [setReferenceDensities(rhoOil, rhoWater, rhoGas, regionIdx)]
    for a region below the region count makes [referenceDensity] return
    the three values for that region's oil, water and gas phase, leaves
    the reference densities of every other region and all molar masses as
    they are, and keeps the vectors sized; for a region index at or beyond
    the region count it writes beyond the vector. *)
Theorem setReferenceDensities_round_trip :
  forall (s : t) (rhoOil rhoWater rhoGas : Scalar) (regionIdx : nat),
    Conditions.blackOilSized s ->
    (regionIdx < length (referenceDensity_ s) ->
     exists s',
       setReferenceDensities s rhoOil rhoWater rhoGas regionIdx = Ok s'
       /\ referenceDensity s' oilPhaseIdx regionIdx = Ok rhoOil
       /\ referenceDensity s' waterPhaseIdx regionIdx = Ok rhoWater
       /\ referenceDensity s' gasPhaseIdx regionIdx = Ok rhoGas
       /\ (forall phaseIdx r, r <> regionIdx ->
             referenceDensity s' phaseIdx r = referenceDensity s phaseIdx r)
       /\ molarMass_ s' = molarMass_ s
       /\ Conditions.blackOilSized s')
    /\ (length (referenceDensity_ s) <= regionIdx ->
        setReferenceDensities s rhoOil rhoWater rhoGas regionIdx = Undefined).
Proof.
  intros s rhoOil rhoWater rhoGas regionIdx Hs. split.
  - intro Hlt.
    destruct (setReferenceDensities_run s rhoOil rhoWater rhoGas regionIdx Hs Hlt)
      as [d [E [Hd [Hother Hlen]]]].
    eexists. split; [exact E |].
    unfold referenceDensity. cbn [referenceDensity_ molarMass_].
    apply at_Ok in Hd. rewrite Hd. cbn [bind].
    split; [reflexivity |]. split; [reflexivity |]. split; [reflexivity |].
    split; [| split; [reflexivity |]].
    + intros phaseIdx r Hr. unfold at_. rewrite (Hother r Hr). reflexivity.
    + destruct Hs as [Hl [Hdens Hmass]]. unfold Conditions.blackOilSized.
      cbn [referenceDensity_ molarMass_]. split; [congruence |].
      split; [| exact Hmass].
      apply at_Ok in Hd.
      eapply Forall_replaced with (v := referenceDensity_ s) (i := regionIdx);
        try eassumption. reflexivity.
  - intro Hge. unfold setReferenceDensities, setElem, at_.
    apply nth_error_None in Hge. rewrite Hge. reflexivity.
Qed.

Lemma setDeckDensities_run (densityKeyword : list DensityRecord) :
  forall (n k : nat) (s : t),
    Conditions.blackOilSized s ->
    length (referenceDensity_ s) = length densityKeyword ->
    k + n = length densityKeyword ->
    exists d,
      setDeckDensities s densityKeyword (seq k n)
      = Ok (mk (enableDissolvedGas_ s) (enableVaporizedOil_ s) d (molarMass_ s))
      /\ length d = length (referenceDensity_ s)
      /\ Forall (fun a => length a = 3) d
      /\ (forall r rec, k <= r -> nth_error densityKeyword r = Some rec ->
            nth_error d r = Some [WATER rec; OIL rec; GAS rec])
      /\ (forall r, r < k -> nth_error d r = nth_error (referenceDensity_ s) r).
Proof.
  induction n as [| n IH]; intros k s Hs Hlen Hkn.
  - exists (referenceDensity_ s). cbn [seq setDeckDensities].
    destruct s; cbn. split; [reflexivity |]. split; [reflexivity |].
    split; [apply Hs |]. split; [| reflexivity].
    intros r rec Hr Hrec.
    assert (r < length densityKeyword) by (apply nth_error_Some; congruence). lia.
  - cbn [seq setDeckDensities].
    destruct (nth_error densityKeyword k) as [rec |] eqn:Hrec;
      [| apply nth_error_None in Hrec; lia].
    pose proof Hrec as Hat. apply at_Ok in Hat. rewrite Hat. cbn [bind].
    destruct (setReferenceDensities_run s (OIL rec) (WATER rec) (GAS rec) k Hs)
      as [d1 [E1 [Hd1 [Hother1 Hlen1]]]]; [lia |].
    rewrite E1. cbn [bind].
    set (s1 := mk (enableDissolvedGas_ s) (enableVaporizedOil_ s) d1 (molarMass_ s)).
    assert (Hs1 : Conditions.blackOilSized s1).
    { destruct Hs as [Hl [Hdens Hmass]]. unfold Conditions.blackOilSized, s1.
      cbn [referenceDensity_ molarMass_]. split; [congruence |].
      split; [| exact Hmass].
      eapply Forall_replaced with (v := referenceDensity_ s) (i := k);
        try eassumption. reflexivity. }
    destruct (IH (S k) s1 Hs1) as [d [E [Hl [Hall [Hset Hkeep]]]]].
    { unfold s1. cbn [referenceDensity_]. congruence. }
    { lia. }
    exists d. split; [exact E |]. unfold s1 in Hl, Hkeep.
    cbn [referenceDensity_] in Hl, Hkeep.
    split; [congruence |]. split; [exact Hall |]. split.
    + intros r rec' Hr Hrec'. destruct (Nat.eq_dec r k) as [-> | Hne].
      * rewrite Hkeep by lia. assert (rec' = rec) by congruence. subst rec'.
        exact Hd1.
      * apply Hset; [lia | exact Hrec'].
    + intros r Hr. rewrite Hkeep by lia. apply Hother1. lia.
Qed.

Lemma initBegin_sized (s : t) (n : nat) :
  Conditions.blackOilSized s -> Conditions.blackOilSized (initBegin s n).
Proof.
  intros [Hl [Hd Hm]]. unfold Conditions.blackOilSized, initBegin, resizeArrays_.
  cbn [referenceDensity_ molarMass_]. rewrite !resize_length.
  split; [reflexivity |]. split; apply resize_Forall; try assumption; reflexivity.
Qed.

(** X21.  [initBegin(n)] considers dissolved gas and not vaporized oil,
    whatever was set before, and sizes both static vectors to [n]: a region
    below [n] that existed before keeps its reference densities and molar
    masses, a new region has zeros, and a region at or beyond [n] is not
    there. *)
Theorem initBegin_keeps_surviving_regions :
  forall (s : t) (n phaseIdx regionIdx : nat),
    Conditions.blackOilSized s ->
    let s' := initBegin s n in
    enableDissolvedGas s' = true
    /\ enableVaporizedOil s' = false
    /\ length (referenceDensity_ s') = n
    /\ length (molarMass_ s') = n
    /\ Conditions.blackOilSized s'
    /\ (regionIdx < n -> regionIdx < length (referenceDensity_ s) ->
        referenceDensity s' phaseIdx regionIdx
        = referenceDensity s phaseIdx regionIdx
        /\ molarMass s' phaseIdx regionIdx = molarMass s phaseIdx regionIdx)
    /\ (regionIdx < n -> length (referenceDensity_ s) <= regionIdx ->
        phaseIdx < 3 ->
        referenceDensity s' phaseIdx regionIdx = Ok 0%Qc
        /\ molarMass s' phaseIdx regionIdx = Ok 0%Qc)
    /\ (n <= regionIdx -> referenceDensity s' phaseIdx regionIdx = Undefined).
Proof.
  intros s n phaseIdx regionIdx Hs s'.
  split; [reflexivity |]. split; [reflexivity |].
  unfold s', initBegin, resizeArrays_. cbn [referenceDensity_ molarMass_].
  rewrite !resize_length. split; [reflexivity |]. split; [reflexivity |].
  split; [apply (initBegin_sized s n Hs) |].
  destruct Hs as [Hl [Hd Hm]].
  assert (Hat : forall v : list array3,
            at_ (resize n zeros3 v) regionIdx
            = if regionIdx <? n
              then match nth_error v regionIdx with
                   | Some a => Ok a
                   | None => Ok zeros3
                   end
              else Undefined).
  { intro v. unfold at_. rewrite resize_nth_error.
    destruct (regionIdx <? n); [| reflexivity].
    destruct (nth_error v regionIdx); reflexivity. }
  unfold referenceDensity, molarMass.
  cbn [referenceDensity_ molarMass_]. rewrite !Hat.
  split; [| split].
  - intros Hn Hr. destruct (Nat.ltb_spec regionIdx n); [| lia].
    destruct (nth_error (referenceDensity_ s) regionIdx) eqn:E1;
      [| apply nth_error_None in E1; lia].
    destruct (nth_error (molarMass_ s) regionIdx) eqn:E2;
      [| apply nth_error_None in E2; lia].
    apply at_Ok in E1. apply at_Ok in E2. rewrite E1, E2.
    split; reflexivity.
  - intros Hn Hr Hp. destruct (Nat.ltb_spec regionIdx n); [| lia].
    assert (E1 : nth_error (referenceDensity_ s) regionIdx = None)
      by (apply nth_error_None; lia).
    assert (E2 : nth_error (molarMass_ s) regionIdx = None)
      by (apply nth_error_None; lia).
    rewrite E1, E2. cbn [bind].
    destruct phaseIdx as [| [| [| ?]]]; try lia; split; reflexivity.
  - intros Hn. destruct (Nat.ltb_spec regionIdx n); [lia |]. reflexivity.
Qed.

Lemma initFromDeckDensities_run :
  forall (s : t) (densityKeyword : list DensityRecord) (hasDISGAS hasVAPOIL : bool),
    Conditions.blackOilSized s ->
    exists s',
      initFromDeckDensities s densityKeyword hasDISGAS hasVAPOIL = Ok s'
      /\ enableDissolvedGas s' = hasDISGAS
      /\ enableVaporizedOil s' = hasVAPOIL
      /\ Conditions.blackOilSized s'
      /\ length (referenceDensity_ s') = length densityKeyword
      /\ forall regionIdx densityRecord,
           nth_error densityKeyword regionIdx = Some densityRecord ->
           referenceDensity s' oilPhaseIdx regionIdx = Ok (OIL densityRecord)
           /\ referenceDensity s' waterPhaseIdx regionIdx = Ok (WATER densityRecord)
           /\ referenceDensity s' gasPhaseIdx regionIdx = Ok (GAS densityRecord).
Proof.
  intros s densityKeyword hasDISGAS hasVAPOIL Hs.
  unfold initFromDeckDensities. cbv zeta.
  set (s3 := setEnableVaporizedOil
               (setEnableDissolvedGas (initBegin s (length densityKeyword)) hasDISGAS)
               hasVAPOIL).
  assert (Hs3 : Conditions.blackOilSized s3)
    by (exact (initBegin_sized s (length densityKeyword) Hs)).
  assert (Hlen3 : length (referenceDensity_ s3) = length densityKeyword)
    by (unfold s3; cbn; apply resize_length).
  destruct (setDeckDensities_run densityKeyword (length densityKeyword) 0 s3
              Hs3 Hlen3 eq_refl) as [d [E [Hl [Hall [Hset _]]]]].
  eexists. split; [exact E |].
  split; [reflexivity |]. split; [reflexivity |].
  split; [| split].
  - destruct Hs3 as [H1 [H2 H3]]. unfold Conditions.blackOilSized.
    cbn [referenceDensity_ molarMass_]. split; [congruence |].
    split; assumption.
  - cbn [referenceDensity_]. congruence.
  - intros regionIdx densityRecord Hrec.
    pose proof (Hset regionIdx densityRecord (Nat.le_0_l _) Hrec) as Hd.
    unfold referenceDensity. cbn [referenceDensity_].
    apply at_Ok in Hd. rewrite Hd. repeat split; reflexivity.
Qed.

(** X22.  The part of [initFromDeck] before the PVT objects are created
    (lines 109-123) sizes the fluid system to the number of DENSITY
    records, takes the two switches from the keywords DISGAS and VAPOIL,
    and stores the reference densities of every record under the region of
    its index: [referenceDensity] returns the record's OIL, WATER and GAS
    items for the oil, water and gas phase. *)
Theorem initFromDeckDensities_stores_records :
  forall (s : t) (densityKeyword : list DensityRecord) (hasDISGAS hasVAPOIL : bool),
    Conditions.blackOilSized s ->
    exists s',
      initFromDeckDensities s densityKeyword hasDISGAS hasVAPOIL = Ok s'
      /\ enableDissolvedGas s' = hasDISGAS
      /\ enableVaporizedOil s' = hasVAPOIL
      /\ Conditions.blackOilSized s'
      /\ length (referenceDensity_ s') = length densityKeyword
      /\ forall regionIdx densityRecord,
           nth_error densityKeyword regionIdx = Some densityRecord ->
           referenceDensity s' oilPhaseIdx regionIdx = Ok (OIL densityRecord)
           /\ referenceDensity s' waterPhaseIdx regionIdx = Ok (WATER densityRecord)
           /\ referenceDensity s' gasPhaseIdx regionIdx = Ok (GAS densityRecord).
Proof. exact initFromDeckDensities_run. Qed.



Variable R : Scalar.

(** X23.  [initEnd] on the static data that lines 109-123 of
    [initFromDeck] leave: every region keeps the gas reference density of
    its own DENSITY record, while the molar mass of the gas component is,
    in every region, [R*T*rho/p] with the GAS item of the first record. *)
Theorem deck_densities_then_initEnd :
  forall (s : t) (densityKeyword : list DensityRecord) (hasDISGAS hasVAPOIL : bool)
         (first : DensityRecord),
    Conditions.blackOilSized s ->
    nth_error densityKeyword 0 = Some first ->
    exists s1 s2,
      initFromDeckDensities s densityKeyword hasDISGAS hasVAPOIL = Ok s1
      /\ initEnd R s1 = Ok s2
      /\ forall regionIdx densityRecord,
           nth_error densityKeyword regionIdx = Some densityRecord ->
           referenceDensity s2 gasPhaseIdx regionIdx = Ok (GAS densityRecord)
           /\ molarMass s2 gasCompIdx regionIdx
              = Ok (R * surfaceTemperature * GAS first / surfacePressure)%Qc.
Proof.
  intros s densityKeyword hasDISGAS hasVAPOIL first Hs Hfirst.
  destruct (initFromDeckDensities_run s densityKeyword hasDISGAS
              hasVAPOIL Hs) as [s1 [E1 [_ [_ [Hs1 [Hlen Hrec]]]]]].
  destruct (Hrec 0 first Hfirst) as [_ [_ Hgas0]].
  destruct (initEndRegions_spec R (seq 0 (length (molarMass_ s1))) s1 (GAS first) Hs1)
    as [s2 [E2 [D2 [L2 [P2 _]]]]].
  { intros r Hr. apply in_seq in Hr. lia. }
  { exact Hgas0. }
  exists s1, s2. split; [exact E1 |]. split; [exact E2 |].
  intros regionIdx densityRecord Hr.
  destruct (Hrec regionIdx densityRecord Hr) as [_ [_ Hgas]].
  split.
  - unfold referenceDensity in *. rewrite D2. exact Hgas.
  - assert (Hlt : regionIdx < length (molarMass_ s1)).
    { destruct Hs1 as [Hl _]. rewrite <- Hl, Hlen.
      apply nth_error_Some. congruence. }
    assert (Hrow : nth_error (molarMass_ s2) regionIdx
                   = Some (molarMasses R (GAS first)))
      by (apply P2, in_seq; lia).
    unfold molarMass. apply at_Ok in Hrow. rewrite Hrow. reflexivity.
Qed.

End BlackOilDensities.

(* ------------------------------------------------------------------ *)
(** ** The properties above on the example data *)

Ltac qc_neq :=
  let E := fresh "E" in
  intro E; apply (f_equal this) in E; vm_compute in E; discriminate E.

Ltac qc_le := vm_compute; discriminate.

Ltac qc_lt := vm_compute; reflexivity.

Ltac by_value := apply Ok_by_value; vm_compute; reflexivity.

Lemma saturatedGasOilMassFraction_range_witness :
  exists XgO,
    WetGasPvt.saturatedGasOilMassFraction Examples.wetGas 0 0%Qc 1%Qc = Ok XgO
    /\ (0 <= XgO)%Qc /\ (XgO < 1)%Qc.
Proof.
  apply (saturatedGasOilMassFraction_range Examples.wetGas 0 0%Qc 1%Qc
           1%Qc 1%Qc (lit 2 1)).
  - vm_compute. reflexivity.
  - vm_compute. reflexivity.
  - by_value.
  - qc_le.
  - qc_lt.
  - qc_le.
Defined.

(** The example wet gas, region 0, at pressure 1: mass fraction 2/3, molar
    masses 175e-3 and 20e-3. *)
Lemma saturatedGasOilMoleFraction_conversion_witness :
  exists xgO,
    WetGasPvt.saturatedGasOilMoleFraction Examples.wetGas 0 0%Qc 1%Qc = Ok xgO
    /\ xgO = (lit 2 3 / lit 175 1000
              / (lit 2 3 / lit 175 1000 + (1 - lit 2 3) / lit 20 1000))%Qc
    /\ (0 <= xgO)%Qc /\ (xgO <= 1)%Qc.
Proof.
  apply (saturatedGasOilMoleFraction_conversion Examples.wetGas 0 0%Qc 1%Qc
           (lit 2 3) (lit 175 1000) (lit 20 1000)).
  - by_value.
  - vm_compute. reflexivity.
  - vm_compute. reflexivity.
  - qc_lt.
  - qc_lt.
  - qc_le.
  - qc_le.
Defined.

(** The example wet gas with tables, region 0, at the mass fraction 1/2:
    [Rv = 1]. *)
Lemma density_from_inverse_table_witness :
  WetGasPvt.density Examples.constantEval2D Examples.tabulatedGas 0 0%Qc 1%Qc
    (lit 1 2)
  = Ok (1 * (1 + lit 1 2 / (1 - lit 1 2) * (1 / 1))
        * Examples.constantEval2D Examples.invBgExample 1%Qc
            (lit 1 2 / (1 - lit 1 2) * (1 / 1)))%Qc.
Proof.
  apply (density_from_inverse_table Examples.constantEval2D
           Examples.tabulatedGas 0 0%Qc 1%Qc (lit 1 2) 1%Qc 1%Qc
           Examples.invBgExample).
  - vm_compute. reflexivity.
  - vm_compute. reflexivity.
  - vm_compute. reflexivity.
  - qc_neq.
  - qc_neq.
  - qc_neq.
Defined.

(** Region 1 of a new object with two regions. *)
Lemma setters_then_forward_map_witness :
  exists g3,
    (g1 <- WetGasPvt.setReferenceDensities
             (WetGasPvt.setNumRegions WetGasPvt.fresh 2) 1
             (lit 800 1) 1%Qc (lit 1000 1) ;;
     g2 <- WetGasPvt.setMolarMasses g1 1 (lit 175 1000) (lit 20 1000)
             (lit 18 1000) ;;
     WetGasPvt.setSaturatedGasOilVaporizationFactor g2 1
       [(0%Qc, 1%Qc); (1%Qc, lit 2 1)]) = Ok g3
    /\ Conditions.wetGasSized g3
    /\ Conditions.numRegions g3 = 2
    /\ forall T p,
         WetGasPvt.saturatedGasOilMassFraction g3 1 T p
         = (Rv <- Tabulated1DFunction.eval [(0%Qc, 1%Qc); (1%Qc, lit 2 1)] p true ;;
            Ok (Rv * lit 800 1 / (1 + Rv * lit 800 1))%Qc).
Proof.
  apply (proj1 (setters_then_forward_map 2 1 (lit 800 1) 1%Qc (lit 1000 1)
                  (lit 175 1000) (lit 20 1000) (lit 18 1000)
                  [(0%Qc, 1%Qc); (1%Qc, lit 2 1)])).
  lia.
Defined.

(** The example wet gas, region 0: two samples on [0, 1], hence 11 points
    with [delta = 1/11]. *)
Lemma updateSaturationPressureSpline_nodes_witness :
  let delta := ((1 - 0) / ofNat (2 * 5 + 1))%Qc in
  exists g' spl,
    WetGasPvt.updateSaturationPressureSpline_ Examples.wetGas 0 = Ok g'
    /\ nth_error (WetGasPvt.saturationPressureSpline_ g') 0 = Some spl
    /\ length spl = 2 * 5 + 1
    /\ (forall i, i <= 2 * 5 ->
          exists XgO,
            nth_error spl i = Some (XgO, (0 + ofNat i * delta)%Qc)
            /\ forall T,
                 WetGasPvt.saturatedGasOilMassFraction g' 0 T
                   (0 + ofNat i * delta)%Qc
                 = Ok XgO)
    /\ (0 + ofNat (2 * 5) * delta + delta = 1)%Qc.
Proof.
  apply (updateSaturationPressureSpline_nodes Examples.wetGas 0
           [(0%Qc, 1%Qc); (1%Qc, lit 2 1)] 0%Qc 1%Qc).
  - exact wetGas_sized.
  - exact wetGas_regions.
  - vm_compute. reflexivity.
  - simpl. lia.
  - reflexivity.
  - reflexivity.
Defined.

(** The example wet gas, region 0, and the viscosities 1 and 2 at the
    pressures 0 and 1. *)
Lemma setSaturatedGasViscosity_columns_witness :
  exists g' gasMu',
    WetGasPvt.setSaturatedGasViscosity Examples.linearSpline Examples.wetGas 0
      [(0%Qc, 1%Qc); (1%Qc, lit 2 1)] = Ok g'
    /\ nth_error (WetGasPvt.gasMu_ g') 0 = Some gasMu'
    /\ UniformXTabulated2DFunction.numX gasMu' = 20
    /\ forall RvIdx, RvIdx < 20 ->
         UniformXTabulated2DFunction.xAt gasMu' RvIdx
         = Ok (0 + (lit 2 1 - 0) * ofNat RvIdx / ofNat 20)%Qc
         /\ UniformXTabulated2DFunction.samples gasMu' RvIdx
            = Conditions.viscosityColumn Examples.linearSpline
                [(0%Qc, 1%Qc); (1%Qc, lit 2 1)] 0%Qc 1%Qc 4.
Proof.
  apply (setSaturatedGasViscosity_columns Examples.linearSpline Examples.wetGas
           0 [(0%Qc, 1%Qc); (1%Qc, lit 2 1)] [(0%Qc, 1%Qc); (1%Qc, lit 2 1)]
           1%Qc (lit 2 1) (0%Qc, 1%Qc) (1%Qc, lit 2 1)).
  - vm_compute. reflexivity.
  - reflexivity.
  - by_value.
  - reflexivity.
  - reflexivity.
  - vm_compute. reflexivity.
Defined.

Lemma tabulatedGas_finalizable : Conditions.finalizable Examples.tabulatedGas.
Proof.
  unfold Conditions.finalizable.
  split; [vm_compute; repeat split |].
  split; [reflexivity |]. split; [reflexivity |].
  intros r Hr.
  assert (Hcases : r = 0 \/ r = 1) by (vm_compute in Hr; lia).
  destruct Hcases as [-> | ->].
  - split; [exists [(0%Qc, 1%Qc); (1%Qc, lit 2 1)]; split;
             [vm_compute; reflexivity | simpl; lia] |].
    split; [vm_compute; reflexivity |].
    vm_compute. repeat constructor.
  - split; [exists [(0%Qc, 1%Qc); (1%Qc, lit 2 1)]; split;
             [vm_compute; reflexivity | simpl; lia] |].
    split; [vm_compute; reflexivity |].
    vm_compute. repeat constructor.
Defined.

(** The example wet gas with tables. *)
Lemma initEnd_product_tables_witness :
  exists g',
    WetGasPvt.initEnd Examples.tabulatedGas 0 = Ok g'
    /\ WetGasPvt.oilPvt_ g' = Some 0
    /\ WetGasPvt.gasMu_ g' = WetGasPvt.gasMu_ Examples.tabulatedGas
    /\ WetGasPvt.inverseGasB_ g' = WetGasPvt.inverseGasB_ Examples.tabulatedGas
    /\ forall r, r < Conditions.numRegions Examples.tabulatedGas ->
         nth_error (WetGasPvt.inverseGasBMu_ g') r
         = Some (Conditions.productTable
                   (nth r (WetGasPvt.gasMu_ Examples.tabulatedGas) [])
                   (nth r (WetGasPvt.inverseGasB_ Examples.tabulatedGas) [])).
Proof.
  exact (initEnd_product_tables Examples.tabulatedGas 0 tabulatedGas_finalizable).
Defined.

(** In that example the values of region 0 are [1/2, 1/2] at both outer
    positions. *)
Example initEnd_product_values :
  map (fun col => (this (fst col), Examples.values (snd col)))
      (nth 0 (WetGasPvt.inverseGasBMu_ Examples.finalTabulatedGas) [])
  = [ (0%Q, [(0%Q, (1 # 2)%Q); (1%Q, (1 # 2)%Q)]);
      (1%Q, [(0%Q, (1 # 2)%Q); (1%Q, (1 # 2)%Q)]) ].
Proof. vm_compute. reflexivity. Qed.

Lemma initEnd_needs_same_shape_witness :
  exists mu b,
    nth_error (WetGasPvt.gasMu_ Examples.tabulatedGas) 1 = Some mu
    /\ nth_error (WetGasPvt.inverseGasB_ Examples.tabulatedGas) 1 = Some b
    /\ Conditions.sameShape mu b.
Proof.
  apply (initEnd_needs_same_shape Examples.tabulatedGas
           Examples.finalTabulatedGas 0 1).
  - vm_compute. reflexivity.
  - vm_compute. lia.
Defined.

Lemma deckExample_valid : Conditions.validDeck Examples.deckExample.
Proof.
  split; [reflexivity |].
  intros tbl [<- | []]. split; [simpl; lia | exact pvtgExample_nonempty].
Defined.

(** The example deck: the last row of its table has a single inner
    sample. *)
Lemma initFromDeck_outcome_witness :
  fst (WetGasPvt.initFromDeck Examples.gasConstant Examples.deckExample
         WetGasPvt.fresh)
  = Throw WetGasPvt.invalidPvtg.
Proof.
  exact (initFromDeck_outcome Examples.gasConstant Examples.deckExample
           deckExample_valid).
Defined.

(** The example deck, which ends in the exception: the DENSITY data of its
    region are stored all the same. *)
Lemma initRegionFromDeck_stores_fluid_witness :
  exists res g',
    WetGasPvt.initRegionFromDeck Examples.gasConstant Examples.deckExample 0
      Examples.oneRegion = (res, g')
    /\ nth_error (WetGasPvt.oilReferenceDensity_ g') 0
       = Some (OIL Examples.densityExample)
    /\ nth_error (WetGasPvt.gasReferenceDensity_ g') 0
       = Some (GAS Examples.densityExample)
    /\ nth_error (WetGasPvt.oilMolarMass_ g') 0 = Some (lit 175 1000)
    /\ nth_error (WetGasPvt.gasMolarMass_ g') 0
       = Some (Examples.gasConstant * (lit 27315 100 + lit 1556 100)
               * GAS Examples.densityExample / lit 101325 1)%Qc
    /\ nth_error (WetGasPvt.oilVaporizationFactorTable_ g') 0
       = Some (map (fun row => (Pressure row, SaturatedOilSolubility row))
                   Examples.pvtgExample)
    /\ Conditions.sameOutside 0 Examples.oneRegion g'.
Proof.
  apply (initRegionFromDeck_stores_fluid Examples.gasConstant
           Examples.deckExample 0 Examples.oneRegion Examples.densityExample
           Examples.pvtgExample).
  - exact oneRegion_awaits.
  - reflexivity.
  - reflexivity.
  - simpl. lia.
Defined.

Lemma pvtgFull_complete :
  forall row, In row Examples.pvtgFull -> 2 <= length (InnerTable row).
Proof. intros row [<- | [<- | []]]; simpl; lia. Defined.

(** The deck whose rows all have two inner samples. *)
Lemma initRegionFromDeck_complete_table_witness :
  exists g',
    WetGasPvt.initRegionFromDeck Examples.gasConstant Examples.deckFull 0
      Examples.oneRegion = (Ok tt, g')
    /\ nth_error (WetGasPvt.inverseGasB_ g') 0
       = Some (map (fun row => (Pressure row, Conditions.deckInvGasB row))
                   Examples.pvtgFull)
    /\ nth_error (WetGasPvt.gasMu_ g') 0
       = Some (map (fun row => (Pressure row, Conditions.deckGasMu row))
                   Examples.pvtgFull).
Proof.
  apply (initRegionFromDeck_complete_table Examples.gasConstant
           Examples.deckFull 0 Examples.oneRegion Examples.densityExample
           Examples.pvtgFull).
  - exact oneRegion_awaits.
  - reflexivity.
  - reflexivity.
  - simpl. lia.
  - exact pvtgFull_complete.
Defined.

(** The loop body run a second time on the region it has filled. *)
Lemma initRegionFromDeck_again_undefined_witness :
  fst (WetGasPvt.initRegionFromDeck Examples.gasConstant Examples.deckFull 0
         Examples.filledRegion)
  = Undefined.
Proof.
  apply (initRegionFromDeck_again_undefined Examples.gasConstant
           Examples.deckFull 0 Examples.filledRegion Examples.densityExample
           Examples.pvtgFull
           (nth 0 (WetGasPvt.inverseGasB_ Examples.filledRegion) [])
           (nth 0 (WetGasPvt.gasMu_ Examples.filledRegion) [])).
  - vm_compute. lia.
  - vm_compute. lia.
  - vm_compute. lia.
  - vm_compute. lia.
  - vm_compute. lia.
  - apply nth_error_nth'. vm_compute. lia.
  - apply nth_error_nth'. vm_compute. lia.
  - reflexivity.
  - reflexivity.
  - simpl. lia.
  - vm_compute. lia.
Defined.

Lemma deckFilled_valid : Conditions.validDeck Examples.deckFilled.
Proof.
  split; [reflexivity |].
  intros tbl [<- | []]. split; [simpl; lia |].
  intros row [<- | [<- | []]]; discriminate.
Defined.

Lemma deckFilled_last_rows :
  forall tbl, In tbl (pvtgTables Examples.deckFilled) ->
              Conditions.lastRowComplete tbl = true.
Proof. intros tbl [<- | []]. reflexivity. Defined.

(** The deck whose table has a deficient first row and a complete last
    row. *)
Lemma initFromDeck_then_initEnd_witness :
  exists g1 g2,
    WetGasPvt.initFromDeck Examples.gasConstant Examples.deckFilled
      WetGasPvt.fresh = (Ok tt, g1)
    /\ WetGasPvt.initEnd g1 0 = Ok g2
    /\ WetGasPvt.oilPvt_ g2 = Some 0
    /\ forall r, r < length (pvtgTables Examples.deckFilled) ->
         nth_error (WetGasPvt.inverseGasBMu_ g2) r
         = Some (Conditions.productTable (nth r (WetGasPvt.gasMu_ g1) [])
                                         (nth r (WetGasPvt.inverseGasB_ g1) [])).
Proof.
  exact (initFromDeck_then_initEnd Examples.gasConstant Examples.deckFilled 0
           deckFilled_valid deckFilled_last_rows).
Defined.

Lemma oneMultiplexer_this :
  OilPvtMultiplexer.this_ Examples.oneMultiplexer 0
  = Ok (OilPvtMultiplexer.mk OilPvtMultiplexer.NoOilPvt None).
Proof. reflexivity. Defined.

(** The stateless implementation family: every method answers 1. *)
Lemma setApproach_then_forwards_witness :
  let h' := snd (OilPvtMultiplexer.setApproach Examples.oneMultiplexer 0
                   OilPvtMultiplexer.LiveOilPvt) in
  OilPvtMultiplexer.approach h' 0 = Ok OilPvtMultiplexer.LiveOilPvt
  /\ OilPvtMultiplexer.viscosity h' 0 0 0%Qc 1%Qc 1%Qc = Ok 1%Qc
  /\ OilPvtMultiplexer.saturationPressure h' 0 0 0%Qc 1%Qc = Ok 1%Qc.
Proof.
  intro h'.
  destruct (setApproach_then_forwards (RealPvt := unit) Examples.oneMultiplexer
              0 _ OilPvtMultiplexer.LiveOilPvt 0 0%Qc 1%Qc 1%Qc
              oneMultiplexer_this ltac:(discriminate))
    as [Ha [Hv [_ [_ [_ [_ [_ [_ Hp]]]]]]]].
  split; [exact Ha |]. split; [exact Hv | exact Hp].
Defined.

Lemma destructor_releases_implementation_witness :
  let h' := snd (OilPvtMultiplexer.setApproach Examples.oneMultiplexer 0
                   OilPvtMultiplexer.LiveOilPvt) in
  exists h'',
    OilPvtMultiplexer.destructor h' 0 = Ok h''
    /\ OilPvtMultiplexer.load h'' (length Examples.oneMultiplexer) = None
    /\ forall a, a <> length Examples.oneMultiplexer ->
                 OilPvtMultiplexer.load h'' a = OilPvtMultiplexer.load h' a.
Proof.
  exact (destructor_releases_implementation (RealPvt := unit)
           Examples.oneMultiplexer 0 _ OilPvtMultiplexer.LiveOilPvt
           oneMultiplexer_this ltac:(discriminate)).
Defined.

(** A deck with PVTO and PVDO: the dead-oil implementation is chosen. *)
Lemma multiplexer_initFromDeck_witness :
  exists h2,
    OilPvtMultiplexer.initFromDeck Examples.hasKeyword Examples.unitInitFromDeck
      Examples.oneMultiplexer 0 Examples.keywordDeck
    = (Ok tt, h2)
    /\ OilPvtMultiplexer.approach h2 0 = Ok OilPvtMultiplexer.DeadOilPvt
    /\ OilPvtMultiplexer.load h2 1
       = Some (OilPvtMultiplexer.ObjRealPvt OilPvtMultiplexer.DeadOilPvt tt)
    /\ forall a, a < 0 ->
                 OilPvtMultiplexer.load h2 a = OilPvtMultiplexer.load [] a.
Proof.
  refine (proj2 (multiplexer_initFromDeck (RealPvt := unit) (list string)
                   Examples.hasKeyword Examples.unitInitFromDeck []
                   Examples.keywordDeck) _).
  vm_compute. discriminate.
Defined.

Lemma multiplexer_initEnd_after_initFromDeck_witness :
  let h2 := snd (OilPvtMultiplexer.initFromDeck Examples.hasKeyword
                   Examples.unitInitFromDeck Examples.oneMultiplexer 0
                   Examples.keywordDeck) in
  exists h3,
    OilPvtMultiplexer.initEnd Examples.unitInitEnd h2 0 = (Ok tt, h3)
    /\ OilPvtMultiplexer.approach h3 0 = Ok OilPvtMultiplexer.DeadOilPvt
    /\ OilPvtMultiplexer.load h3 1
       = Some (OilPvtMultiplexer.ObjRealPvt OilPvtMultiplexer.DeadOilPvt tt).
Proof.
  refine (proj2 (multiplexer_initEnd_after_initFromDeck (RealPvt := unit)
                   (list string) Examples.hasKeyword Examples.unitInitFromDeck
                   Examples.unitInitEnd [] Examples.keywordDeck) _).
  vm_compute. discriminate.
Defined.

Lemma blackOil2_sized : Conditions.blackOilSized Examples.blackOil2.
Proof.
  unfold Conditions.blackOilSized. simpl. repeat split; repeat constructor.
Defined.

Lemma blackOilStart_sized : Conditions.blackOilSized Examples.blackOilStart.
Proof. repeat split; constructor. Defined.

(** The two-region example: new densities for region 1. *)
Lemma setReferenceDensities_round_trip_witness :
  exists s',
    BlackOil.setReferenceDensities Examples.blackOil2
      (lit 700 1) (lit 900 1) (lit 3 1) 1 = Ok s'
    /\ BlackOil.referenceDensity s' BlackOil.oilPhaseIdx 1 = Ok (lit 700 1)
    /\ BlackOil.referenceDensity s' BlackOil.waterPhaseIdx 1 = Ok (lit 900 1)
    /\ BlackOil.referenceDensity s' BlackOil.gasPhaseIdx 1 = Ok (lit 3 1)
    /\ (forall phaseIdx r, r <> 1 ->
          BlackOil.referenceDensity s' phaseIdx r
          = BlackOil.referenceDensity Examples.blackOil2 phaseIdx r)
    /\ BlackOil.molarMass_ s' = BlackOil.molarMass_ Examples.blackOil2
    /\ Conditions.blackOilSized s'.
Proof.
  apply (proj1 (setReferenceDensities_round_trip Examples.blackOil2
                  (lit 700 1) (lit 900 1) (lit 3 1) 1 blackOil2_sized)).
  vm_compute. lia.
Defined.

(** The two-region example, resized to three regions: region 1 keeps its
    gas density 2. *)
Lemma initBegin_keeps_surviving_regions_witness :
  BlackOil.referenceDensity (BlackOil.initBegin Examples.blackOil2 3)
    BlackOil.gasPhaseIdx 1
  = BlackOil.referenceDensity Examples.blackOil2 BlackOil.gasPhaseIdx 1
  /\ BlackOil.referenceDensity (BlackOil.initBegin Examples.blackOil2 3)
       BlackOil.gasPhaseIdx 2 = Ok 0%Qc.
Proof.
  destruct (initBegin_keeps_surviving_regions Examples.blackOil2 3
              BlackOil.gasPhaseIdx 1 blackOil2_sized)
    as [_ [_ [_ [_ [_ [Hkeep _]]]]]].
  destruct (initBegin_keeps_surviving_regions Examples.blackOil2 3
              BlackOil.gasPhaseIdx 2 blackOil2_sized)
    as [_ [_ [_ [_ [_ [_ [Hnew _]]]]]]].
  split.
  - apply Hkeep; vm_compute; lia.
  - apply Hnew; vm_compute; lia.
Defined.

Lemma initFromDeckDensities_stores_records_witness :
  exists s',
    BlackOil.initFromDeckDensities Examples.blackOilStart
      Examples.densityRecords true false = Ok s'
    /\ BlackOil.enableDissolvedGas s' = true
    /\ BlackOil.enableVaporizedOil s' = false
    /\ Conditions.blackOilSized s'
    /\ length (BlackOil.referenceDensity_ s') = length Examples.densityRecords
    /\ forall regionIdx densityRecord,
         nth_error Examples.densityRecords regionIdx = Some densityRecord ->
         BlackOil.referenceDensity s' BlackOil.oilPhaseIdx regionIdx
         = Ok (OIL densityRecord)
         /\ BlackOil.referenceDensity s' BlackOil.waterPhaseIdx regionIdx
            = Ok (WATER densityRecord)
         /\ BlackOil.referenceDensity s' BlackOil.gasPhaseIdx regionIdx
            = Ok (GAS densityRecord).
Proof.
  exact (initFromDeckDensities_stores_records Examples.blackOilStart
           Examples.densityRecords true false blackOilStart_sized).
Defined.

(** Two DENSITY records with the gas densities 1 and 2: both regions get
    the molar mass that belongs to the density 1. *)
Lemma deck_densities_then_initEnd_witness :
  exists s1 s2,
    BlackOil.initFromDeckDensities Examples.blackOilStart
      Examples.densityRecords true false = Ok s1
    /\ BlackOil.initEnd Examples.gasConstant s1 = Ok s2
    /\ forall regionIdx densityRecord,
         nth_error Examples.densityRecords regionIdx = Some densityRecord ->
         BlackOil.referenceDensity s2 BlackOil.gasPhaseIdx regionIdx
         = Ok (GAS densityRecord)
         /\ BlackOil.molarMass s2 BlackOil.gasCompIdx regionIdx
            = Ok (Examples.gasConstant * BlackOil.surfaceTemperature * 1
                  / BlackOil.surfacePressure)%Qc.
Proof.
  exact (deck_densities_then_initEnd Examples.gasConstant
           Examples.blackOilStart Examples.densityRecords true false
           (mkDensity (lit 800 1) 1%Qc (lit 1000 1))
           blackOilStart_sized eq_refl).
Defined.
